(** * Tile-parallel gradient search resampling: the orchestration layer

    A shallow embedding of [pyresample/gradient/__init__.py]: the array
    splitting and stacking helpers, the footprint polygons and the tile
    culling, the dispatch of the per-tile kernel and the final reduction.

    Arrays are modelled the way NumPy stores them: a shape and the elements
    in C (row-major) order.  Python exceptions are values of [exn] and
    fallible code lives in the [result] monad. *)

From Stdlib Require Import String.
From Stdlib Require Import List ZArith Arith Lia Bool Permutation.
Import ListNotations.

Set Implicit Arguments.

(** ** Exceptions and the error monad *)

Inductive exn : Type :=
| NotImplementedError (msg : string)
| ValueError
| IndexError
| AxisError
| ZeroDivisionError
| TopologicalError.

Inductive result (A : Type) : Type :=
| Ok (a : A)
| Raise (e : exn).

Arguments Ok {A} a.
Arguments Raise {A} e.

Definition bind {A B} (c : result A) (k : A -> result B) : result B :=
  match c with
  | Ok a => k a
  | Raise e => Raise e
  end.

Declare Scope result_scope.
Delimit Scope result_scope with result.
Notation "x <- c ;; k" := (bind c (fun x => k))
  (at level 61, c at next level, right associativity) : result_scope.
Open Scope result_scope.

(** A list comprehension whose body may raise: elements are evaluated from
    left to right and the first exception aborts the comprehension. *)
Fixpoint mapM {A B} (f : A -> result B) (l : list A) : result (list B) :=
  match l with
  | [] => Ok []
  | x :: l' => y <- f x ;; ys <- mapM f l' ;; Ok (y :: ys)
  end.

(** ** Python sequences: indexing and slicing with signed indices *)

Definition norm_index (len : nat) (i : Z) : option nat :=
  if (0 <=? i)%Z then
    (if (i <? Z.of_nat len)%Z then Some (Z.to_nat i) else None)
  else
    (if (- Z.of_nat len <=? i)%Z then Some (Z.to_nat (Z.of_nat len + i)) else None).

(** [l[i]] *)
Definition py_index {A} (l : list A) (i : Z) : result A :=
  match norm_index (length l) i with
  | Some k => match nth_error l k with Some x => Ok x | None => Raise IndexError end
  | None => Raise IndexError
  end.

(** The position a slice bound denotes: negative bounds count from the end,
    and every bound is clamped to the sequence. *)
Definition slice_bound (len : nat) (i : Z) : nat :=
  if (0 <=? i)%Z then Nat.min (Z.to_nat i) len
  else Z.to_nat (Z.max 0 (Z.of_nat len + i)).

(** [l[:i]] and [l[i:]] *)
Definition py_slice_to {A} (l : list A) (i : Z) : list A :=
  firstn (slice_bound (length l) i) l.

Definition py_slice_from {A} (l : list A) (i : Z) : list A :=
  skipn (slice_bound (length l) i) l.

(** [int(a / n)] on non-negative integers: true division followed by
    truncation.  The quotient of two integers below 2^53 is rounded
    correctly, so the truncation is the integer quotient. *)
Definition py_int_div (a n : nat) : result nat :=
  if Nat.eqb n 0 then Raise ZeroDivisionError else Ok (a / n).

(** ** N-dimensional arrays *)

Record ndarray (A : Type) : Type := mk_ndarray {
  shape : list nat;
  data : list A
}.

Definition size_of (s : list nat) : nat := fold_right Nat.mul 1 s.

Definition ndim {A} (a : ndarray A) : nat := length (shape a).

(** The invariant of every array: the shape accounts for the elements. *)
Definition wf {A} (a : ndarray A) : Prop := length (data a) = size_of (shape a).

(** Flat position of a multi-index in C order. *)
Fixpoint ravel (s idx : list nat) : nat :=
  match s, idx with
  | _ :: ds, i :: idx' => i * size_of ds + ravel ds idx'
  | _, _ => 0
  end.

Fixpoint in_bounds (s idx : list nat) : bool :=
  match s, idx with
  | [], [] => true
  | d :: ds, i :: idx' => (i <? d) && in_bounds ds idx'
  | _, _ => false
  end.

(** [a[i0, i1, ...]] with one non-negative index per axis. *)
Definition get {A} (a : ndarray A) (idx : list nat) : option A :=
  if in_bounds (shape a) idx then nth_error (data a) (ravel (shape a) idx) else None.

(** [l[start : start + len]] on the flat data. *)
Definition slice {A} (start len : nat) (l : list A) : list A :=
  firstn len (skipn start l).

(** *** reshape *)

Definition count_unknown (s : list Z) : nat :=
  length (filter (fun d => (d =? -1)%Z) s).

Definition known_size (s : list Z) : nat :=
  size_of (map Z.to_nat (filter (fun d => negb (d =? -1)%Z) s)).

(** The shape [arr.reshape(new_shape)] gives an array of [size] elements: at
    most one entry may be [-1], and it is inferred from the others.  The
    arrays that are reshaped are dask arrays, and the failures are those of
    dask's [reshape]: a shape of another size is a [ValueError]; the extent
    of a [-1] is the quotient [size / known], whose division fails with
    [ZeroDivisionError] when the known extents multiply to zero and which is
    refused as an index, with [IndexError], when it is not a whole number. *)
Definition resolve_shape (size : nat) (new_shape : list Z) : result (list nat) :=
  if existsb (fun d => (d <? -1)%Z) new_shape then Raise ValueError
  else match count_unknown new_shape with
       | 0 => if Nat.eqb (known_size new_shape) size
              then Ok (map Z.to_nat new_shape) else Raise ValueError
       | 1 => let known := known_size new_shape in
              if Nat.eqb known 0 then Raise ZeroDivisionError
              else if Nat.eqb (size mod known) 0
              then Ok (map (fun d => if (d =? -1)%Z then size / known else Z.to_nat d)
                           new_shape)
              else Raise IndexError
       | _ => Raise ValueError
       end.

Definition reshape {A} (a : ndarray A) (new_shape : list Z) : result (ndarray A) :=
  s <- resolve_shape (length (data a)) new_shape ;;
  Ok (mk_ndarray s (data a)).

(** *** np.take with one index *)

Definition norm_axis (nd : nat) (axis : Z) : result nat :=
  match norm_index nd axis with
  | Some k => Ok k
  | None => Raise AxisError
  end.

(** Elements of the sub-array at position [x] of an axis of extent [dim],
    with [outer] index combinations before the axis and [inner] elements
    behind each position of it. *)
Definition take_data {A} (outer dim inner x : nat) (d : list A) : list A :=
  flat_map (fun o => slice ((o * dim + x) * inner) inner d) (seq 0 outer).

(** [np.take(a, x, axis=axis)] for an integer [x]: the axis disappears. *)
Definition np_take {A} (a : ndarray A) (x : nat) (axis : Z) : result (ndarray A) :=
  k <- norm_axis (ndim a) axis ;;
  let dim := nth k (shape a) 0 in
  if x <? dim then
    let pre := firstn k (shape a) in
    let post := skipn (S k) (shape a) in
    Ok (mk_ndarray (pre ++ post)
                   (take_data (size_of pre) dim (size_of post) x (data a)))
  else Raise IndexError.

(** ** GridSplitter *)

Section Splitting.
Context {A : Type}.

(** [vsplit(arr, n)] *)
Definition vsplit (arr : ndarray A) (n : nat) : result (list (ndarray A)) :=
  res <- reshape arr ([Z.of_nat n; (-1)%Z] ++ map Z.of_nat (py_slice_from (shape arr) 1)) ;;
  mapM (fun x => np_take res x 0) (seq 0 n).

(** [hsplit(arr, n)] *)
Definition hsplit (arr : ndarray A) (n : nat) : result (list (ndarray A)) :=
  d0 <- py_index (shape arr) 0 ;;
  res <- reshape arr ([Z.of_nat d0; Z.of_nat n; (-1)%Z]
                        ++ map Z.of_nat (py_slice_from (shape arr) 2)) ;;
  mapM (fun x => np_take res x 1) (seq 0 n).

(** [split(arr, n, axis)] *)
Definition split (arr : ndarray A) (n : nat) (axis : Z) : result (list (ndarray A)) :=
  let shape := shape arr in
  ax_shape <- py_index shape axis ;;
  let rest_idx :=
    if (axis <? 0)%Z then (Z.of_nat (length shape) + axis + 1)%Z else (axis + 1)%Z in
  q <- py_int_div ax_shape n ;;
  let new_shape := map Z.of_nat (py_slice_to shape axis)
                     ++ [Z.of_nat n; Z.of_nat q]
                     ++ map Z.of_nat (py_slice_from shape rest_idx) in
  res <- reshape arr new_shape ;;
  mapM (fun x => np_take res x (rest_idx - 1)) (seq 0 n).

End Splitting.

(** ** ChunkStacker *)

Section Stacking.
Context {A : Type}.

Definition same_shape (l0 l : ndarray A) : bool :=
  if list_eq_dec Nat.eq_dec (shape l) (shape l0) then true else false.

(** Elements of the arrays [layers] joined along a new axis with [outer]
    index combinations before it and [inner] elements behind each of its
    positions. *)
Definition stack_data (outer inner : nat) (layers : list (ndarray A)) : list A :=
  flat_map (fun o => flat_map (fun l => slice (o * inner) inner (data l)) layers)
           (seq 0 outer).

(** [np.stack(layers, axis=axis)] *)
Definition np_stack (layers : list (ndarray A)) (axis : Z) : result (ndarray A) :=
  match layers with
  | [] => Raise ValueError
  | l0 :: _ =>
      if forallb (same_shape l0) layers then
        k <- norm_axis (S (ndim l0)) axis ;;
        let pre := firstn k (shape l0) in
        let post := skipn k (shape l0) in
        Ok (mk_ndarray (pre ++ [length layers] ++ post)
                       (stack_data (size_of pre) (size_of post) layers))
      else Raise ValueError
  end.

(** [reshape_arrays_in_stacked_chunks(arrays, chunks)]: [layers.extend]
    appends the row pieces of one column after those of the columns before
    it. *)
Definition reshape_arrays_in_stacked_chunks
           (arrays : list (ndarray A)) (chunks : list (list nat))
  : result (list (ndarray A)) :=
  c1 <- py_index chunks 1 ;;
  let h_fac := length c1 in
  c0 <- py_index chunks 0 ;;
  let v_fac := length c0 in
  mapM (fun array =>
          cols <- hsplit array h_fac ;;
          layers <- mapM (fun col => vsplit col v_fac) cols ;;
          np_stack (concat layers) 2)
       arrays.

(** A dask array: its values and the sizes of its chunks along every
    axis. *)
Record dask_array : Type := mk_dask {
  values : ndarray A;
  chunks : list (list nat)
}.

(** [reshape_to_stacked_3d(array)] *)
Definition reshape_to_stacked_3d (array : dask_array) : result (ndarray A) :=
  let chunks := chunks array in
  cx <- py_index chunks (-1) ;;
  let x_fac := length cx in
  cy <- py_index chunks (-2) ;;
  let y_fac := length cy in
  cols <- split (values array) x_fac (-1) ;;
  layers <- mapM (fun col => split col y_fac (-2)) cols ;;
  np_stack (concat layers) (-1).

(** [data[np.newaxis, :, :]] *)
Definition newaxis0 (array : dask_array) : dask_array :=
  mk_dask (mk_ndarray (1 :: shape (values array)) (data (values array)))
          ([1] :: chunks array).

Definition option_list (o : option A) : list A :=
  match o with Some v => [v] | None => [] end.

(** The inverse reconstruction of the round-trip property, written from
    the specification (the source has no such function): tile [c * R + r]
    of the stacked array goes back to row block [r] and column block [c] of
    an [R] by [C] grid of chunks. *)
Definition unstack_chunks (R C : nat) (st : ndarray A) : ndarray A :=
  let sr := nth 0 (shape st) 0 in
  let sc := nth 1 (shape st) 0 in
  let H := R * sr in
  let W := C * sc in
  mk_ndarray [H; W]
    (flat_map (fun p =>
                 let y := p / W in
                 let x := p mod W in
                 option_list (get st [y mod sr; x mod sc; (x / sc) * R + y / sr]))
              (seq 0 (H * W))).

(** The same for an array with a leading band axis. *)
Definition unstack_chunks_3d (R C : nat) (st : ndarray A) : ndarray A :=
  let B := nth 0 (shape st) 0 in
  let sr := nth 1 (shape st) 0 in
  let sc := nth 2 (shape st) 0 in
  let H := R * sr in
  let W := C * sc in
  mk_ndarray [B; H; W]
    (flat_map (fun p =>
                 let b := p / (H * W) in
                 let q := p mod (H * W) in
                 let y := q / W in
                 let x := q mod W in
                 option_list (get st [b; y mod sr; x mod sc; (x / sc) * R + y / sr]))
              (seq 0 (B * (H * W)))).

End Stacking.

Arguments dask_array A : clear implicits.

(** ** Floating-point values

    The code only tests coordinates for finiteness and only compares the
    resampled values with each other, so a double is represented by its
    class and, when finite, by its position [v] in the order of the finite
    doubles ([0] for zero, both signs of zero being one position). *)

Inductive f64 : Type :=
| NaN
| NegInf
| Finite (v : Z)
| PosInf.

Definition isnan (a : f64) : bool :=
  match a with NaN => true | _ => false end.

Definition isfinite (a : f64) : bool :=
  match a with Finite _ => true | _ => false end.

(** [a >= b]; a comparison with NaN is false. *)
Definition f64_geb (a b : f64) : bool :=
  match a, b with
  | NaN, _ | _, NaN => false
  | PosInf, _ => true
  | _, NegInf => true
  | Finite x, Finite y => (y <=? x)%Z
  | _, _ => false
  end.

(** [a == b] *)
Definition f64_eqb (a b : f64) : bool := f64_geb a b && f64_geb b a.

(** [np.fmax]: the larger argument, and the other one when one is NaN. *)
Definition fmax (a b : f64) : f64 :=
  if f64_geb a b || isnan b then a else b.

(** ** FootprintPolygonBuilder *)

Definition point : Type := (f64 * f64)%type.

(** [a[i, j]]: the sub-array at position [(i, j)] of the two leading axes. *)
Definition item2 {A} (a : ndarray A) (i j : Z) : result (list A) :=
  match shape a with
  | d0 :: d1 :: rest =>
      match norm_index d0 i, norm_index d1 j with
      | Some r, Some c =>
          let inner := size_of rest in
          Ok (slice ((r * d1 + c) * inner) inner (data a))
      | _, _ => Raise IndexError
      end
  | _ => Raise IndexError
  end.

(** [get_corners(x_coords, y_coords)]: the values at the four corners, in
    the order upper left, upper right, lower right, lower left. *)
Definition get_corners {A} (x_coords y_coords : ndarray A)
  : result (list (list A) * list (list A)) :=
  x1 <- item2 x_coords 0 0 ;;
  x2 <- item2 x_coords 0 (-1) ;;
  x3 <- item2 x_coords (-1) (-1) ;;
  x4 <- item2 x_coords (-1) 0 ;;
  y1 <- item2 y_coords 0 0 ;;
  y2 <- item2 y_coords 0 (-1) ;;
  y3 <- item2 y_coords (-1) (-1) ;;
  y4 <- item2 y_coords (-1) 0 ;;
  Ok ([x1; x2; x3; x4], [y1; y2; y3; y4]).

(** A corner is a scalar, or an array of one element when the grid carries
    a tile axis of length one; only such a value can be used as a condition
    and as a coordinate. *)
Definition scalar_of {A} (v : list A) : result A :=
  match v with
  | [x] => Ok x
  | _ => Raise ValueError
  end.

(** [get_boundary(x_coords, y_coords)]: the corners whose two coordinates
    are finite.  The test on [y] is only evaluated when the one on [x]
    holds. *)
Fixpoint finite_corners (corners : list (list f64 * list f64)) : result (list point) :=
  match corners with
  | [] => Ok []
  | (xv, yv) :: rest =>
      x <- scalar_of xv ;;
      if isfinite x then
        y <- scalar_of yv ;;
        tl <- finite_corners rest ;;
        Ok (if isfinite y then (x, y) :: tl else tl)
      else finite_corners rest
  end.

Definition get_boundary (x_coords y_coords : ndarray f64) : result (list point) :=
  b <- get_corners x_coords y_coords ;;
  finite_corners (combine (fst b) (snd b)).

(** Shapely's polygon, as far as the culling depends on it: its shell.  The
    constructor [Polygon(boundary)] accepts an empty shell (the empty
    polygon) and a shell of at least three points; a shell of one or two
    coordinate tuples is no linear ring and is refused with a
    [ValueError]. *)
Record polygon : Type := mk_polygon { exterior : list point }.

Definition Polygon (shell : list point) : result polygon :=
  match length shell with
  | 1 | 2 => Raise ValueError
  | _ => Ok (mk_polygon shell)
  end.

(** [get_polygon(x_coords, y_coords)] *)
Definition get_polygon (x_coords y_coords : ndarray f64) : result polygon :=
  boundary <- get_boundary x_coords y_coords ;;
  Polygon boundary.

(** ** TileCuller *)

(** [np.split(ary, sections, axis=axis)] into equal sections, which keep
    the axis. *)
Definition section_data {A} (outer dim inner w x : nat) (d : list A) : list A :=
  flat_map (fun o => slice ((o * dim + x * w) * inner) (w * inner) d) (seq 0 outer).

Definition np_split {A} (a : ndarray A) (sections : nat) (axis : Z)
  : result (list (ndarray A)) :=
  match norm_index (ndim a) axis with
  | None => Raise IndexError
  | Some k =>
      let dim := nth k (shape a) 0 in
      if Nat.eqb sections 0 then Raise ZeroDivisionError
      else if Nat.eqb (dim mod sections) 0 then
        let w := dim / sections in
        let pre := firstn k (shape a) in
        let post := skipn (S k) (shape a) in
        Ok (map (fun x => mk_ndarray (pre ++ [w] ++ post)
                            (section_data (size_of pre) dim (size_of post) w x (data a)))
                (seq 0 sections))
      else Raise ValueError
  end.

(** Positions of the [True] entries of a list of booleans. *)
Fixpoint nonzero_from (i : nat) (mask : list bool) : list nat :=
  match mask with
  | [] => []
  | b :: mask' => if b then i :: nonzero_from (S i) mask' else nonzero_from (S i) mask'
  end.

Definition nonzero (mask : list bool) : list nat := nonzero_from 0 mask.

(** Indexing one axis with a list of positions. *)
Definition pick_data {A} (outer dim inner : nat) (idx : list nat) (d : list A) : list A :=
  flat_map (fun o => flat_map (fun x => slice ((o * dim + x) * inner) inner d) idx)
           (seq 0 outer).

(** [np.take(arr, covers, axis=axis)] for the list of booleans [covers].
    The stacked arrays are dask arrays (they are built by [np.stack] from
    pieces of dask arrays and handed to [da.blockwise]), so the call is
    dispatched to dask's [take], which indexes the axis with the list,
    [arr[..., covers]]; dask reads an index list of booleans as a mask of
    the length of the axis and keeps the positions holding [True].  (On
    plain NumPy arrays the same call would read the booleans as the
    positions 0 and 1; the arrays of this pipeline never are plain NumPy
    arrays, they carry [chunks].) *)
Definition np_take_mask {A} (a : ndarray A) (covers : list bool) (axis : Z)
  : result (ndarray A) :=
  k <- norm_axis (ndim a) axis ;;
  let dim := nth k (shape a) 0 in
  if Nat.eqb (length covers) dim then
    let idx := nonzero covers in
    let pre := firstn k (shape a) in
    let post := skipn (S k) (shape a) in
    Ok (mk_ndarray (pre ++ [length idx] ++ post)
                   (pick_data (size_of pre) dim (size_of post) idx (data a)))
  else Raise IndexError.

Section Culling.
(** The geometry engine behind shapely: the area of a polygon and the
    intersection predicate, which may raise. *)
Variable area : polygon -> f64.
Variable intersects : polygon -> polygon -> result bool.

(** The body of the loop over the tile polygons: the [try] block and its
    handler. *)
Definition tile_covers (dst_polygon poly : polygon) : result bool :=
  let attempt :=
    if f64_eqb (area dst_polygon) (Finite 0) then Ok true
    else intersects dst_polygon poly in
  match attempt with
  | Raise TopologicalError => Ok true
  | r => r
  end.

(** [remove_extra_chunks(arrays, dst_x, dst_y)] *)
Definition remove_extra_chunks (arrays : list (ndarray f64)) (dst_x dst_y : ndarray f64)
  : result (list (ndarray f64)) :=
  dst_polygon <- get_polygon dst_x dst_y ;;
  a0 <- py_index arrays 0 ;;
  num_chunks <- py_index (shape a0) (-1) ;;
  a1 <- py_index arrays 1 ;;
  a2 <- py_index arrays 2 ;;
  src_x <- np_split a1 num_chunks (-1) ;;
  src_y <- np_split a2 num_chunks (-1) ;;
  src_polys <- mapM (fun xy => get_polygon (fst xy) (snd xy)) (combine src_x src_y) ;;
  covers <- mapM (tile_covers dst_polygon) src_polys ;;
  mapM (fun arr => np_take_mask arr covers (-1)) arrays.

End Culling.

(** ** ParallelResampleDispatcher *)

(** Block [z] of an array whose trailing axis holds one tile per chunk. *)
Definition tile_block {A} (a : ndarray A) (z : nat) : ndarray A :=
  let pre := removelast (shape a) in
  mk_ndarray (pre ++ [1])
             (section_data (size_of pre) (last (shape a) 0) 1 1 z (data a)).

(** [image[:, :, :, np.newaxis]] *)
Definition newaxis_last {A} (a : ndarray A) : ndarray A :=
  mk_ndarray (shape a ++ [1]) (data a).

Definition shape_eqb (s1 s2 : list nat) : bool :=
  if list_eq_dec Nat.eq_dec s1 s2 then true else false.

Section Dispatch.
(** The single-tile kernel of [pyresample.gradient._gradient_search]:
    data, source coordinates, the four gradients, destination
    coordinates and the method. *)
Variable one_step_gradient_search :
  ndarray f64 -> ndarray f64 -> ndarray f64 ->
  ndarray f64 -> ndarray f64 -> ndarray f64 -> ndarray f64 ->
  ndarray f64 -> ndarray f64 -> string -> result (ndarray f64).

(** [_gradient_resample_data]: the blocks carry a tile axis of length one,
    which [[..., 0]] removes. *)
Definition _gradient_resample_data
           (src_data src_x src_y
            src_gradient_xl src_gradient_xp src_gradient_yl src_gradient_yp
            dst_x dst_y : ndarray f64) (method : string) : result (ndarray f64) :=
  d <- np_take src_data 0 (-1) ;;
  x <- np_take src_x 0 (-1) ;;
  y <- np_take src_y 0 (-1) ;;
  xl <- np_take src_gradient_xl 0 (-1) ;;
  xp <- np_take src_gradient_xp 0 (-1) ;;
  yl <- np_take src_gradient_yl 0 (-1) ;;
  yp <- np_take src_gradient_yp 0 (-1) ;;
  image <- one_step_gradient_search d x y xl xp yl yp dst_x dst_y method ;;
  Ok (newaxis_last image).

(** [da.blockwise(_gradient_resample_data, 'bmnz', data, 'bijz', src_x,
    'ijz', ..., dst_x, 'mn', dst_y, 'mn')]: one call per tile, the images
    joined along the tile axis.  The arrays indexed by [z] must agree on
    its length, and every image must have the block shape the output
    indices announce.

    Scope of the model.  [da.blockwise] only builds a task graph: the
    kernel runs, and can fail, when the array that
    [parallel_gradient_search] returns is computed, not during the call.
    The definition below is the value of that computation, so a [Raise]
    that comes from the kernel stands for a failure of the later
    computation.  The destination grid is taken as a single block on the
    [m] and [n] axes, as it is for a grid that fits in one chunk of
    [CHUNK_SIZE]; for a larger grid dask calls the kernel once per
    destination block and tile and joins the images on those axes too,
    which this definition does not model.  The shape of the result is
    the same in both cases. *)
Definition blockwise_resample
           (data src_x src_y
            src_gradient_xl src_gradient_xp src_gradient_yl src_gradient_yp
            dst_x dst_y : ndarray f64) (method : string) : result (ndarray f64) :=
  let nz := last (shape data) 0 in
  let out := nth 0 (shape data) 0 :: shape dst_x in
  if forallb (fun a => Nat.eqb (last (shape a) 0) nz)
             [src_x; src_y; src_gradient_xl; src_gradient_xp;
              src_gradient_yl; src_gradient_yp]
  then
    images <- mapM (fun z =>
                      _gradient_resample_data
                        (tile_block data z) (tile_block src_x z) (tile_block src_y z)
                        (tile_block src_gradient_xl z) (tile_block src_gradient_xp z)
                        (tile_block src_gradient_yl z) (tile_block src_gradient_yp z)
                        dst_x dst_y method)
                   (seq 0 nz) ;;
    if forallb (fun im => shape_eqb (shape im) (out ++ [1])) images
    then Ok (mk_ndarray (out ++ [nz]) (stack_data (size_of out) 1 images))
    else Raise ValueError
  else Raise ValueError.

End Dispatch.

(** ** OverlapReducer *)

(** The NaN-ignoring maximum of the values along one line of the tile axis;
    an empty line has no maximum. *)
Definition nanmax_list (xs : list f64) : result f64 :=
  match xs with
  | [] => Raise ValueError
  | x :: rest => Ok (fold_left fmax rest x)
  end.

(** [da.nanmax(res, axis=-1)] *)
Definition da_nanmax {A} (line_max : list A -> result A) (res : ndarray A)
  : result (ndarray A) :=
  match shape res with
  | [] => Raise AxisError
  | _ =>
      let pre := removelast (shape res) in
      let nz := last (shape res) 0 in
      vals <- mapM (fun p => line_max (slice (p * nz) nz (data res)))
                   (seq 0 (size_of pre)) ;;
      Ok (mk_ndarray pre vals)
  end.

(** [a.squeeze()]: every axis of length one is removed. *)
Definition squeeze {A} (a : ndarray A) : ndarray A :=
  mk_ndarray (filter (fun d => negb (Nat.eqb d 1)) (shape a)) (data a).

(** The last statement of [parallel_gradient_search]. *)
Definition overlap_reduce (res : ndarray f64) : result (ndarray f64) :=
  r <- da_nanmax nanmax_list res ;;
  Ok (squeeze r).

(** ** The pipeline *)

(** The stages of the tiling work, recorded in the order they are entered. *)
Inductive stage : Type :=
| GradientStage
| StackStage
| CullStage
| DispatchStage
| ReduceStage.

(** A computation that may raise and that records the stages it enters. *)
Definition traced (A : Type) : Type := (list stage * result A)%type.

Definition bindT {A B} (c : traced A) (k : A -> traced B) : traced B :=
  match c with
  | (t, Ok a) => let (t', r) := k a in (t ++ t', r)
  | (t, Raise e) => (t, Raise e)
  end.

Definition raiseT {A} (e : exn) : traced A := ([], Raise e).

Definition enter {A} (s : stage) (c : result A) : traced A := ([s], c).

Declare Scope traced_scope.
Delimit Scope traced_scope with traced.
Notation "x <-- c ;; k" := (bindT c (fun x => k))
  (at level 61, c at next level, right associativity) : traced_scope.

Definition rank_message : string :=
  "Gradient search resampling only supports 2D or 3D arrays.".

Section Pipeline.
Variable area : polygon -> f64.
Variable intersects : polygon -> polygon -> result bool.
Variable one_step_gradient_search :
  ndarray f64 -> ndarray f64 -> ndarray f64 ->
  ndarray f64 -> ndarray f64 -> ndarray f64 -> ndarray f64 ->
  ndarray f64 -> ndarray f64 -> string -> result (ndarray f64).
(** [np.gradient(a, axis=[0, 1])]: the gradients along the lines and along
    the pixels. *)
Variable np_gradient : ndarray f64 -> result (ndarray f64 * ndarray f64).

(** Unpacking a sequence into six, respectively seven, names. *)
Definition unpack6 {A} (l : list A) : result (A * A * A * A * A * A) :=
  match l with
  | [a; b; c; d; e; f] => Ok (a, b, c, d, e, f)
  | _ => Raise ValueError
  end.

Definition unpack7 {A} (l : list A) : result (A * A * A * A * A * A * A) :=
  match l with
  | [a; b; c; d; e; f; g] => Ok (a, b, c, d, e, f, g)
  | _ => Raise ValueError
  end.

(** [kwargs.get('method', 'bilinear')] *)
Definition method_of (kwargs_method : option string) : string :=
  match kwargs_method with
  | Some m => m
  | None => "bilinear"%string
  end.

(** [parallel_gradient_search(data, src_x, src_y, dst_x, dst_y, **kwargs)] *)
Definition parallel_gradient_search
           (data src_x src_y : dask_array f64) (dst_x dst_y : ndarray f64)
           (kwargs_method : option string) : traced (ndarray f64) :=
  let nd := ndim (values data) in
  if negb (existsb (Nat.eqb nd) [2; 3]) then
    raiseT (NotImplementedError rank_message)
  else
    let data := if Nat.eqb nd 2 then newaxis0 data else data in
    (gx <-- enter GradientStage (np_gradient (values src_x)) ;;
     gy <-- enter GradientStage (np_gradient (values src_y)) ;;
     arrays <-- enter StackStage
                  (l <- reshape_arrays_in_stacked_chunks
                          [values src_x; values src_y; fst gx; snd gx; fst gy; snd gy]
                          (chunks src_x) ;;
                   unpack6 l) ;;
     let '(sx, sy, gxl, gxp, gyl, gyp) := arrays in
     data <-- enter StackStage (reshape_to_stacked_3d data) ;;
     arrays <-- enter CullStage
                  (l <- remove_extra_chunks area intersects
                          [data; sx; sy; gxl; gxp; gyl; gyp] dst_x dst_y ;;
                   unpack7 l) ;;
     let '(data, sx, sy, gxl, gxp, gyl, gyp) := arrays in
     res <-- enter DispatchStage
               (blockwise_resample one_step_gradient_search
                  data sx sy gxl gxp gyl gyp dst_x dst_y (method_of kwargs_method)) ;;
     enter ReduceStage (overlap_reduce res))%traced.

End Pipeline.

(** ** Concrete collaborators for the examples

    Stand-ins for the external geometry engine, the kernel and the gradient
    operator, precise enough on axis-aligned grids to run the pipeline. *)

Module Demo.

Definition coord (a : f64) : Z :=
  match a with Finite v => v | _ => 0%Z end.

Definition zmin (l : list Z) : Z := fold_right Z.min (hd 0%Z l) l.
Definition zmax (l : list Z) : Z := fold_right Z.max (hd 0%Z l) l.

Definition xs_of (p : polygon) : list Z := map (fun q => coord (fst q)) (exterior p).
Definition ys_of (p : polygon) : list Z := map (fun q => coord (snd q)) (exterior p).

(** Area of the bounding box. *)
Definition area (p : polygon) : f64 :=
  Finite ((zmax (xs_of p) - zmin (xs_of p)) * (zmax (ys_of p) - zmin (ys_of p))).

(** Overlap of the bounding boxes; the empty polygon meets nothing. *)
Definition intersects (p q : polygon) : result bool :=
  match exterior p, exterior q with
  | [], _ | _, [] => Ok false
  | _, _ =>
      Ok ((zmin (xs_of p) <=? zmax (xs_of q))%Z && (zmin (xs_of q) <=? zmax (xs_of p))%Z
          && (zmin (ys_of p) <=? zmax (ys_of q))%Z && (zmin (ys_of q) <=? zmax (ys_of p))%Z)
  end.

(** An intersection predicate that cannot decide about a tile with fewer
    than four finite corners. *)
Definition fragile_intersects (p q : polygon) : result bool :=
  if Nat.ltb (length (exterior q)) 4 then Raise TopologicalError else intersects p q.

Fixpoint lookup (x y : f64) (src : list (f64 * f64 * f64)) : f64 :=
  match src with
  | [] => NaN
  | (sx, sy, v) :: src' =>
      if f64_eqb sx x && f64_eqb sy y then v else lookup x y src'
  end.

(** A kernel that copies the source sample lying exactly on a destination
    pixel and leaves the other pixels at NaN. *)
Definition kernel (d x y xl xp yl yp dst_x dst_y : ndarray f64) (method : string)
  : result (ndarray f64) :=
  let npix := size_of (shape x) in
  Ok (mk_ndarray
        (nth 0 (shape d) 0 :: shape dst_x)
        (flat_map (fun b =>
                     map (fun q =>
                            lookup (fst q) (snd q)
                                   (combine (combine (data x) (data y))
                                            (slice (b * npix) npix (data d))))
                         (combine (data dst_x) (data dst_y)))
                  (seq 0 (nth 0 (shape d) 0)))).

(** A gradient operator that only keeps the shape. *)
Definition gradient (a : ndarray f64) : result (ndarray f64 * ndarray f64) :=
  Ok (a, a).

Definition run := parallel_gradient_search area intersects kernel gradient.

Definition grid (s : list nat) (f : nat -> Z) : ndarray f64 :=
  mk_ndarray s (map (fun p => Finite (f p)) (seq 0 (size_of s))).

(** A 4 by 4 source grid in 2 by 2 chunks: pixel [(r, c)] lies at
    [x = c], [y = r]. *)
Definition chunks44 : list (list nat) := [[2; 2]; [2; 2]].
Definition src_x44 : dask_array f64 :=
  mk_dask (grid [4; 4] (fun p => Z.of_nat (p mod 4))) chunks44.
Definition src_y44 : dask_array f64 :=
  mk_dask (grid [4; 4] (fun p => Z.of_nat (p / 4))) chunks44.
Definition data44 : dask_array f64 :=
  mk_dask (grid [4; 4] (fun p => Z.of_nat (100 + p))) chunks44.
Definition data144 : dask_array f64 :=
  mk_dask (grid [1; 4; 4] (fun p => Z.of_nat (100 + p))) ([1] :: chunks44).
Definition data244 : dask_array f64 :=
  mk_dask (grid [2; 4; 4] (fun p => Z.of_nat (100 + p))) ([2] :: chunks44).

(** A 2 by 2 destination on the top left quadrant. *)
Definition dst_x22 : ndarray f64 := grid [2; 2] (fun p => Z.of_nat (p mod 2)).
Definition dst_y22 : ndarray f64 := grid [2; 2] (fun p => Z.of_nat (p / 2)).

(** The stacked input set of the 4 by 4 example with one band: the data,
    the coordinates and the four gradients, four tiles each. *)
Definition stacked44 : list (ndarray f64) :=
  match reshape_to_stacked_3d data144,
        reshape_arrays_in_stacked_chunks
          [values src_x44; values src_y44;
           values src_x44; values src_x44; values src_y44; values src_y44] chunks44
  with
  | Ok d, Ok l => d :: l
  | _, _ => []
  end.

(** The square footprint with upper left corner [(x0, y0)] and side one. *)
Definition quad (x0 y0 : Z) : polygon :=
  mk_polygon [(Finite x0, Finite y0); (Finite (x0 + 1), Finite y0);
              (Finite (x0 + 1), Finite (y0 + 1)); (Finite x0, Finite (y0 + 1))].

(** The top left chunk of every array of the example, as its only tile. *)
Definition top_left44 : list (ndarray f64) :=
  let x := mk_ndarray [2; 2; 1] [Finite 0; Finite 1; Finite 0; Finite 1] in
  let y := mk_ndarray [2; 2; 1] [Finite 0; Finite 0; Finite 1; Finite 1] in
  [mk_ndarray [1; 2; 2; 1] [Finite 100; Finite 101; Finite 104; Finite 105];
   x; y; x; x; y; y].

(** A destination whose pixels all lie on one point. *)
Definition dst_point : ndarray f64 := grid [2; 2] (fun _ => 0%Z).

(** A destination with two corners in space: only the upper left and the
    lower right corner are finite. *)
Definition dst_x_two : ndarray f64 :=
  mk_ndarray [2; 2] [Finite 0; PosInf; PosInf; Finite 1].
Definition dst_y_two : ndarray f64 :=
  mk_ndarray [2; 2] [Finite 0; PosInf; PosInf; Finite 1].

End Demo.

(** ** Vocabulary of the statements *)

(** [axis] names axis [k] of an array of [nd] dimensions, counted from the
    front or, when negative, from the end. *)
Definition denotes_axis (nd : nat) (axis : Z) (k : nat) : Prop :=
  k < nd /\ (axis = Z.of_nat k \/ axis = (Z.of_nat k - Z.of_nat nd)%Z).

(** Chunk [(r, c)] of an array whose two last axes are divided into [R] row
    blocks of [sr] lines and [C] column blocks of [sc] pixels, behind the
    leading axes [bnd]: first the column block, then the row block inside
    it.  [stacked_chunks] holds the chunks along a trailing axis, those of
    one column block after those of the column blocks before it. *)
Section Chunks.
Context {A : Type}.
Variables (bnd : list nat) (R sr C sc : nat) (arr : ndarray A).

Definition column_piece (c : nat) : ndarray A :=
  mk_ndarray ((bnd ++ [R * sr]) ++ sc :: [])
             (take_data (size_of (bnd ++ [R * sr])) C (size_of (sc :: [])) c (data arr)).

Definition chunk_piece (c r : nat) : ndarray A :=
  mk_ndarray (bnd ++ sr :: [sc])
             (take_data (size_of bnd) R (size_of (sr :: [sc])) r (data (column_piece c))).

Definition chunk_layers : list (ndarray A) :=
  flat_map (fun c => map (chunk_piece c) (seq 0 R)) (seq 0 C).

Definition stacked_chunks : ndarray A :=
  mk_ndarray ((bnd ++ sr :: [sc]) ++ [length chunk_layers])
             (stack_data (size_of (bnd ++ sr :: [sc])) 1 chunk_layers).

End Chunks.

(** The chunk structure [chunks] divides the axes at positions [iy] and [ix]
    into [R] and [C] chunks. *)
Definition chunk_counts (chunks : list (list nat)) (iy ix : Z) (R C : nat) : Prop :=
  exists cy cx,
    py_index chunks iy = Ok cy /\ py_index chunks ix = Ok cx /\
    length cy = R /\ length cx = C.

(** The stack of per-tile results: the extent of its tile axis, the number
    of destination pixels (all bands), and the values the tiles hold at
    pixel [p], tile after tile. *)
Definition tile_axis {A} (res : ndarray A) : nat := last (shape res) 0.

Definition pixels {A} (res : ndarray A) : nat := size_of (removelast (shape res)).

Definition tile_values {A} (res : ndarray A) (p : nat) : list A :=
  slice (p * tile_axis res) (tile_axis res) (data res).

(** [m] is the NaN-ignoring maximum of [line]: NaN when every value is NaN,
    and otherwise one of the values, not NaN and at least as large as every
    value that is not NaN. *)
Definition is_nanmax (m : f64) (line : list f64) : Prop :=
  (Forall (fun v => v = NaN) line -> m = NaN) /\
  (Exists (fun v => v <> NaN) line ->
   m <> NaN /\ In m line /\ Forall (fun v => v = NaN \/ f64_geb m v = true) line).

(** The slices of a stack along its tile axis rearranged: position [k] of
    the result holds slice [nth k sigma]. *)
Definition permute_tiles {A} (sigma : list nat) (res : ndarray A) : ndarray A :=
  mk_ndarray (shape res)
             (pick_data (pixels res) (tile_axis res) 1 sigma (data res)).

(** The tiles at the positions [idx] of the tile axis, in that order. *)
Definition select_tiles {A} (idx : list nat) (arr : ndarray A) : ndarray A :=
  mk_ndarray (removelast (shape arr) ++ [length idx])
             (pick_data (pixels arr) (tile_axis arr) 1 idx (data arr)).

(** The footprint polygons of the tiles, the way [remove_extra_chunks]
    builds them from the second and third array before it looks at any of
    them. *)
Definition source_polygons (arrays : list (ndarray f64)) : result (list polygon) :=
  a0 <- py_index arrays 0 ;;
  num_chunks <- py_index (shape a0) (-1) ;;
  a1 <- py_index arrays 1 ;;
  a2 <- py_index arrays 2 ;;
  src_x <- np_split a1 num_chunks (-1) ;;
  src_y <- np_split a2 num_chunks (-1) ;;
  mapM (fun xy => get_polygon (fst xy) (snd xy)) (combine src_x src_y).

(** What the culling loop decides about a tile: it is kept unless the
    destination has an area and the intersection test answers [False]. *)
Definition keeps (area : polygon -> f64) (intersects : polygon -> polygon -> result bool)
           (dst_polygon poly : polygon) : bool :=
  if f64_eqb (area dst_polygon) (Finite 0) then true
  else match intersects dst_polygon poly with
       | Ok b => b
       | Raise _ => true
       end.

(** The arrays of one stacked input set: well formed, with a tile axis of
    [nz] tiles. *)
Definition stacked_set {A} (nz : nat) (arrays : list (ndarray A)) : Prop :=
  forall arr, In arr arrays -> wf arr /\ shape arr <> [] /\ tile_axis arr = nz.

(** The positions of the tiles the culling keeps, in increasing order. *)
Definition kept_tiles (area : polygon -> f64)
           (intersects : polygon -> polygon -> result bool)
           (dst_polygon : polygon) (src_polys : list polygon) : list nat :=
  filter (fun t => match nth_error src_polys t with
                   | Some poly => keeps area intersects dst_polygon poly
                   | None => false
                   end)
         (seq 0 (length src_polys)).

(** The intersection test on [poly] answers, or fails with a topological
    error. *)
Definition decided_or_topological (intersects : polygon -> polygon -> result bool)
           (dst_polygon poly : polygon) : Prop :=
  forall e, intersects dst_polygon poly = Raise e -> e = TopologicalError.

(** ** The border of a grid

    [get_border] is the alternative to [get_corners] that [get_boundary]
    holds in a comment; nothing in the module calls it.  Its slices follow
    NumPy. *)

(** The positions [range(len)[::step]] selects: every [step]-th position
    from the first one on for a positive step, from the last one down for a
    negative step; a step of zero is refused. *)
Definition strided (len : nat) (step : Z) : result (list nat) :=
  if (step =? 0)%Z then Raise ValueError
  else
    let s := Z.abs_nat step in
    let count := (len + s - 1) / s in
    if (0 <? step)%Z then Ok (map (fun k => k * s) (seq 0 count))
    else Ok (map (fun k => len - 1 - k * s) (seq 0 count)).

(** [a[i, ::step]]: the index is checked before the slice is resolved. *)
Definition row_slice {A} (a : ndarray A) (i step : Z) : result (ndarray A) :=
  match shape a with
  | d0 :: d1 :: rest =>
      match norm_index d0 i with
      | Some r =>
          cs <- strided d1 step ;;
          let inner := size_of rest in
          Ok (mk_ndarray (length cs :: rest)
                (flat_map (fun c => slice ((r * d1 + c) * inner) inner (data a)) cs))
      | None => Raise IndexError
      end
  | _ => Raise IndexError
  end.

(** [a[::step, j]] *)
Definition col_slice {A} (a : ndarray A) (step j : Z) : result (ndarray A) :=
  match shape a with
  | d0 :: d1 :: rest =>
      rs <- strided d0 step ;;
      match norm_index d1 j with
      | Some c =>
          let inner := size_of rest in
          Ok (mk_ndarray (length rs :: rest)
                (flat_map (fun r => slice ((r * d1 + c) * inner) inner (data a)) rs))
      | None => Raise IndexError
      end
  | _ => Raise IndexError
  end.

(** [np.concatenate(arrays)], along the first axis: the arrays must have an
    axis and agree on the other ones. *)
Definition np_concatenate {A} (arrays : list (ndarray A)) : result (ndarray A) :=
  match arrays with
  | [] => Raise ValueError
  | a0 :: _ =>
      if forallb (fun a => match shape a, shape a0 with
                           | _ :: r, _ :: r0 => shape_eqb r r0
                           | _, _ => false
                           end) arrays
      then Ok (mk_ndarray (list_sum (map (fun a => hd 0 (shape a)) arrays) :: tl (shape a0))
                          (concat (map (fun a => data a) arrays)))
      else Raise ValueError
  end.

(** [get_border(x_coords, y_coords, x_stride, y_stride)]; both strides
    default to one. *)
Definition get_border {A} (x_coords y_coords : ndarray A) (x_stride y_stride : Z)
  : result (ndarray A * ndarray A) :=
  up_x <- row_slice x_coords 0 x_stride ;;
  right_x <- col_slice x_coords y_stride (-1) ;;
  down_x <- row_slice x_coords (-1) (- x_stride) ;;
  left_x <- col_slice x_coords (- y_stride) 0 ;;
  up_y <- row_slice y_coords 0 x_stride ;;
  right_y <- col_slice y_coords y_stride (-1) ;;
  down_y <- row_slice y_coords (-1) (- x_stride) ;;
  left_y <- col_slice y_coords (- y_stride) 0 ;;
  x_s <- np_concatenate [up_x; right_x; down_x; left_x] ;;
  y_s <- np_concatenate [up_y; right_y; down_y; left_y] ;;
  Ok (x_s, y_s).

(** [b] is the border of the [h] by [w] grid [a] walked with the strides
    [sx] and [sy]: the first line from the left, the last column from the
    top, the last line from the right and the first column from the bottom,
    every side from its first point on in steps of the stride for as long as
    it stays on the grid. *)
Definition border_of {A} (a : ndarray A) (h w sx sy : nat) (b : ndarray A) : Prop :=
  exists nu nr,
    (forall k, k < nu <-> k * sx < w) /\ (forall k, k < nr <-> k * sy < h) /\
    shape b = [nu + nr + nu + nr] /\ wf b /\
    (forall k, k < nu -> nth_error (data b) k = get a [0; k * sx]) /\
    (forall k, k < nr -> nth_error (data b) (nu + k) = get a [k * sy; w - 1]) /\
    (forall k, k < nu ->
               nth_error (data b) (nu + nr + k) = get a [h - 1; w - 1 - k * sx]) /\
    (forall k, k < nr ->
               nth_error (data b) (nu + nr + nu + k) = get a [h - 1 - k * sy; 0]).

(** The border [b] with sides of [nu] and [nr] points passes every corner
    twice in a row and ends on its first point. *)
Definition sides_meet {A} (b : ndarray A) (nu nr : nat) : Prop :=
  shape b = [nu + nr + nu + nr] /\
  nth_error (data b) (nu - 1) = nth_error (data b) nu /\
  nth_error (data b) (nu + nr - 1) = nth_error (data b) (nu + nr) /\
  nth_error (data b) (nu + nr + nu - 1) = nth_error (data b) (nu + nr + nu) /\
  nth_error (data b) (nu + nr + nu + nr - 1) = nth_error (data b) 0.

(** ** GradientSearchResampler: the coordinate set-up of [compute]

    The first call of [compute] asks the two geometry definitions for their
    coordinates, keeps them on the resampler and brings one side into the
    projection of the other.  The model follows the statements of that
    block; the geometry definitions, the projections and the coordinate
    transform belong to other libraries and are parameters. *)

Module Resampler.

(** The exceptions the block distinguishes: [AttributeError], which its
    handlers catch, and all the others. *)
Inductive py_error : Type :=
| AttributeError
| OtherError (e : exn).

Inductive outcome (A : Type) : Type :=
| Returned (a : A)
| Raised (e : py_error).

Arguments Returned {A} a.
Arguments Raised {A} e.

Definition lonlat_message : string :=
  "Cannot resample lon/lat to lon/lat with gradient search.".

Section Setup.
Variables Coords Proj Chunks : Type.

(** A geometry definition as [compute] uses it: its projection coordinates,
    the projection [pyproj.Proj] builds from its [proj_dict] and its longitudes and
    latitudes.  A swath definition has no projection coordinates: asking for
    them raises [AttributeError]. *)
Record geo_def : Type := mk_geo_def {
  get_proj_coords : Chunks -> outcome (Coords * Coords);
  proj_of_dict : outcome Proj;
  get_lonlats : Chunks -> outcome (Coords * Coords)
}.

(** The attributes of the resampler.  [__init__] sets [use_input_coords]
    and the four coordinate arrays to [None] (and [transformer], which is
    never used); the two projections are attributes only once they are
    assigned. *)
Record resampler : Type := mk_resampler {
  source_geo_def : geo_def;
  target_geo_def : geo_def;
  use_input_coords : option bool;
  src_x : option Coords;
  src_y : option Coords;
  dst_x : option Coords;
  dst_y : option Coords;
  src_prj : option Proj;
  dst_prj : option Proj
}.

(** [GradientSearchResampler.__init__(source_geo_def, target_geo_def)] *)
Definition __init__ (source target : geo_def) : resampler :=
  mk_resampler source target None None None None None None None.

(** [pyproj.Proj("+proj=longlat")], [CHUNK_SIZE] and [transform]. *)
Variable longlat : Proj.
Variable CHUNK_SIZE : Chunks.
Variable transform :
  option Coords -> option Coords -> Proj -> Proj -> outcome (Coords * Coords).

(** A statement runs on the attributes, may assign some of them, and
    returns or raises. *)
Definition action (A : Type) : Type := resampler -> resampler * outcome A.

Definition ret {A} (a : A) : action A := fun self => (self, Returned a).

Definition raise {A} (e : py_error) : action A := fun self => (self, Raised e).

Definition bindA {A B} (c : action A) (k : A -> action B) : action B :=
  fun self =>
    match c self with
    | (self', Returned a) => k a self'
    | (self', Raised e) => (self', Raised e)
    end.

(** A call that does not assign. *)
Definition call {A} (f : resampler -> outcome A) : action A :=
  fun self => (self, f self).

(** Reading an attribute [__init__] has set. *)
Definition read {A} (f : resampler -> A) : action A :=
  fun self => (self, Returned (f self)).

(** Reading an attribute that exists only once it is assigned. *)
Definition attribute {A} (f : resampler -> option A) : action A :=
  fun self =>
    match f self with
    | Some a => (self, Returned a)
    | None => (self, Raised AttributeError)
    end.

Definition assign (update : resampler -> resampler) : action unit :=
  fun self => (update self, Returned tt).

(** [try: body except AttributeError: handler] *)
Definition try_except_AttributeError {A} (body handler : action A) : action A :=
  fun self =>
    match body self with
    | (self', Raised AttributeError) => handler self'
    | r => r
    end.

Declare Scope action_scope.
Notation "x <- c ;; k" := (bindA c (fun x => k))
  (at level 61, c at next level, right associativity) : action_scope.
Notation "c >> k" := (bindA c (fun _ => k))
  (at level 61, right associativity) : action_scope.
Local Open Scope action_scope.

(** The assignments. *)
Definition set_src (xy : Coords * Coords) (self : resampler) : resampler :=
  mk_resampler (source_geo_def self) (target_geo_def self) (use_input_coords self)
               (Some (fst xy)) (Some (snd xy)) (dst_x self) (dst_y self)
               (src_prj self) (dst_prj self).

Definition set_dst (xy : Coords * Coords) (self : resampler) : resampler :=
  mk_resampler (source_geo_def self) (target_geo_def self) (use_input_coords self)
               (src_x self) (src_y self) (Some (fst xy)) (Some (snd xy))
               (src_prj self) (dst_prj self).

Definition set_src_prj (p : Proj) (self : resampler) : resampler :=
  mk_resampler (source_geo_def self) (target_geo_def self) (use_input_coords self)
               (src_x self) (src_y self) (dst_x self) (dst_y self)
               (Some p) (dst_prj self).

Definition set_dst_prj (p : Proj) (self : resampler) : resampler :=
  mk_resampler (source_geo_def self) (target_geo_def self) (use_input_coords self)
               (src_x self) (src_y self) (dst_x self) (dst_y self)
               (src_prj self) (Some p).

Definition set_use_input_coords (b : bool) (self : resampler) : resampler :=
  mk_resampler (source_geo_def self) (target_geo_def self) (Some b)
               (src_x self) (src_y self) (dst_x self) (dst_y self)
               (src_prj self) (dst_prj self).

(** The first [try] statement: the source side. *)
Definition source_side (datachunks : Chunks) : action unit :=
  try_except_AttributeError
    (xy <- call (fun self => get_proj_coords (source_geo_def self) datachunks) ;;
     assign (set_src xy) >>
     p <- call (fun self => proj_of_dict (source_geo_def self)) ;;
     assign (set_src_prj p) >>
     assign (set_use_input_coords true))
    (xy <- call (fun self => get_lonlats (source_geo_def self) datachunks) ;;
     assign (set_src xy) >>
     assign (set_src_prj longlat) >>
     assign (set_use_input_coords false)).

(** The second [try] statement: the target side. *)
Definition target_side : action unit :=
  try_except_AttributeError
    (xy <- call (fun self => get_proj_coords (target_geo_def self) CHUNK_SIZE) ;;
     assign (set_dst xy) >>
     p <- call (fun self => proj_of_dict (target_geo_def self)) ;;
     assign (set_dst_prj p))
    (u <- read use_input_coords ;;
     match u with
     | Some false => raise (OtherError (NotImplementedError lonlat_message))
     | _ =>
         xy <- call (fun self => get_lonlats (target_geo_def self) CHUNK_SIZE) ;;
         assign (set_dst xy) >>
         assign (set_dst_prj longlat)
     end).

(** The last statement of the block: one side is brought into the
    projection of the other. *)
Definition reproject : action unit :=
  u <- read use_input_coords ;;
  match u with
  | Some true =>
      x <- read dst_x ;;
      y <- read dst_y ;;
      from <- attribute dst_prj ;;
      to <- attribute src_prj ;;
      xy <- call (fun _ => transform x y from to) ;;
      assign (set_dst xy)
  | _ =>
      x <- read src_x ;;
      y <- read src_y ;;
      from <- attribute src_prj ;;
      to <- attribute dst_prj ;;
      xy <- call (fun _ => transform x y from to) ;;
      assign (set_src xy)
  end.

(** The block [if self.use_input_coords is None: ...] of [compute]. *)
Definition compute_setup (datachunks : Chunks) : action unit :=
  u <- read use_input_coords ;;
  match u with
  | None => source_side datachunks >> target_side >> reproject
  | Some _ => ret tt
  end.

(** A geometry definition without projection: asking for its projection
    coordinates, or for its [proj_dict] after them, raises
    [AttributeError]. *)
Definition lacks_projection (g : geo_def) (c : Chunks) : Prop :=
  get_proj_coords g c = Raised AttributeError \/
  (exists xy, get_proj_coords g c = Returned xy) /\ proj_of_dict g = Raised AttributeError.

(** The coordinates the set-up takes from a geometry definition: its
    projection coordinates with its projection when it has them ([true]),
    its longitudes and latitudes otherwise ([false]). *)
Inductive located (g : geo_def) (c : Chunks) : bool -> Coords -> Coords -> Proj -> Prop :=
| located_projected (x y : Coords) (p : Proj) :
    get_proj_coords g c = Returned (x, y) -> proj_of_dict g = Returned p ->
    located g c true x y p
| located_lonlat (x y : Coords) :
    lacks_projection g c -> get_lonlats g c = Returned (x, y) ->
    located g c false x y longlat.

End Setup.

(** Geometries for the examples: coordinates, projections are numbers. *)
Definition area_def (x y p : nat) : geo_def nat nat unit :=
  mk_geo_def (fun _ : unit => Returned (x, y)) (Returned p)
             (fun _ : unit => Returned (x + 500, y + 500)).

Definition swath_def (lon lat : nat) : geo_def nat nat unit :=
  mk_geo_def (fun _ : unit => Raised AttributeError) (Raised AttributeError)
             (fun _ : unit => Returned (lon, lat)).

(** A transform that shifts by the difference of the projections. *)
Definition shift (x y : option nat) (from to : nat) : outcome (nat * nat) :=
  match x, y with
  | Some a, Some b => Returned (a + to - from, b + to - from)
  | _, _ => Raised (OtherError ValueError)
  end.

End Resampler.

(** The four corner points of tile [t] of the stacked coordinate arrays [x]
    and [y], whose tiles have [sr] lines of [sc] pixels, in the order of
    [get_corners], and the test [get_boundary] applies to a point. *)
Definition tile_corner_points (x y : ndarray f64) (sr sc t : nat)
  : list (option f64 * option f64) :=
  map (fun rc => (get x [fst rc; snd rc; t], get y [fst rc; snd rc; t]))
      [(0, 0); (0, sc - 1); (sr - 1, sc - 1); (sr - 1, 0)].

Definition finite_point (p : option f64 * option f64) : bool :=
  match p with
  | (Some a, Some b) => isfinite a && isfinite b
  | _ => false
  end.

(** * Properties *)

Arguments size_of : simpl never.

(** ** The code on small inputs *)

Example split_last_axis :
  split (mk_ndarray [2; 4] [0; 1; 2; 3; 4; 5; 6; 7]) 2 (-1)
  = Ok [mk_ndarray [2; 2] [0; 1; 4; 5]; mk_ndarray [2; 2] [2; 3; 6; 7]].
Proof. reflexivity. Qed.

Example split_uneven :
  split (mk_ndarray [2; 3] [0; 1; 2; 3; 4; 5]) 2 1 = Raise ValueError.
Proof. reflexivity. Qed.

Example vsplit_rows :
  vsplit (mk_ndarray [4; 2] [0; 1; 2; 3; 4; 5; 6; 7]) 2
  = Ok [mk_ndarray [2; 2] [0; 1; 2; 3]; mk_ndarray [2; 2] [4; 5; 6; 7]].
Proof. reflexivity. Qed.

Example hsplit_columns :
  hsplit (mk_ndarray [2; 4] [0; 1; 2; 3; 4; 5; 6; 7]) 2
  = Ok [mk_ndarray [2; 2] [0; 1; 4; 5]; mk_ndarray [2; 2] [2; 3; 6; 7]].
Proof. reflexivity. Qed.

(** A 4 by 4 array in 2 by 2 chunks: the tiles follow each other top left,
    bottom left, top right, bottom right. *)
Example stack_4_by_4 :
  reshape_arrays_in_stacked_chunks [mk_ndarray [4; 4] (seq 0 16)] [[2; 2]; [2; 2]]
  = Ok [mk_ndarray [2; 2; 4] [0; 8; 2; 10; 1; 9; 3; 11; 4; 12; 6; 14; 5; 13; 7; 15]].
Proof. reflexivity. Qed.

Example take_mask_keeps_marked_tiles :
  np_take_mask (mk_ndarray [2; 3] [10; 11; 12; 20; 21; 22]) [true; false; true] (-1)
  = Ok (mk_ndarray [2; 2] [10; 12; 20; 22]).
Proof. reflexivity. Qed.

Example nanmax_of_lines :
  nanmax_list [Finite 3; Finite 7] = Ok (Finite 7) /\
  nanmax_list [NaN; Finite 5; NaN] = Ok (Finite 5) /\
  nanmax_list [NaN; NaN] = Ok NaN /\
  nanmax_list [] = Raise ValueError.
Proof. repeat split; reflexivity. Qed.

(** The end-to-end scenario: a 4 by 4 source in 2 by 2 tiles and a 2 by 2
    destination on the top left tile.  Every stage is entered once (the
    gradient and the stacking for two inputs each) and the result holds the
    values of the top left tile. *)
Example end_to_end :
  Demo.run Demo.data44 Demo.src_x44 Demo.src_y44 Demo.dst_x22 Demo.dst_y22 None
  = ([GradientStage; GradientStage; StackStage; StackStage;
      CullStage; DispatchStage; ReduceStage],
     Ok (mk_ndarray [2; 2] [Finite 100; Finite 101; Finite 104; Finite 105])).
Proof. reflexivity. Qed.

(** ** The error monad *)

Lemma mapM_ok {A B} (f : A -> result B) (g : A -> B) (l : list A) :
  (forall x, In x l -> f x = Ok (g x)) -> mapM f l = Ok (map g l).
Proof.
  induction l as [|x l IH]; intros H; simpl.
  - reflexivity.
  - rewrite (H x (or_introl eq_refl)). simpl.
    rewrite IH by (intros y Hy; apply H; now right).
    reflexivity.
Qed.

Lemma mapM_inv {A B} (f : A -> result B) (l : list A) (r : list B) :
  mapM f l = Ok r -> Forall2 (fun x y => f x = Ok y) l r.
Proof.
  revert r. induction l as [|x l IH]; intros r H; simpl in H.
  - inversion H. constructor.
  - destruct (f x) as [y|e] eqn:Hx; simpl in H; [|discriminate].
    destruct (mapM f l) as [ys|e] eqn:Hl; simpl in H; [|discriminate].
    inversion H; subst. constructor; auto.
Qed.

Lemma mapM_length {A B} (f : A -> result B) (l : list A) (r : list B) :
  mapM f l = Ok r -> length r = length l.
Proof.
  intros H. apply mapM_inv in H. symmetry. eapply Forall2_length; eauto.
Qed.

(** ** Lists cut into blocks *)

Lemma length_slice {A} (start len : nat) (l : list A) :
  start + len <= length l -> length (slice start len l) = len.
Proof.
  intros H. unfold slice. rewrite length_firstn, length_skipn. lia.
Qed.

Lemma nth_error_slice {A} (start len r : nat) (l : list A) :
  r < len -> nth_error (slice start len l) r = nth_error l (start + r).
Proof.
  intros H. unfold slice.
  rewrite nth_error_firstn.
  destruct (Nat.ltb_spec r len); [|lia].
  now rewrite nth_error_skipn.
Qed.

Lemma length_flat_map_seq {A} (f : nat -> list A) (len s n : nat) :
  (forall o, s <= o < s + n -> length (f o) = len) ->
  length (flat_map f (seq s n)) = n * len.
Proof.
  revert s. induction n as [|n IH]; intros s H; simpl.
  - reflexivity.
  - rewrite length_app, IH, H; [lia | lia |].
    intros o Ho. apply H. lia.
Qed.

Lemma nth_error_flat_map_seq {A} (f : nat -> list A) (len s n o r : nat) :
  (forall o, s <= o < s + n -> length (f o) = len) ->
  o < n -> r < len ->
  nth_error (flat_map f (seq s n)) (o * len + r) = nth_error (f (s + o)) r.
Proof.
  revert s o. induction n as [|n IH]; intros s o H Ho Hr; [lia|].
  simpl. destruct o as [|o].
  - simpl. rewrite nth_error_app1 by (rewrite H; lia).
    now rewrite Nat.add_0_r.
  - rewrite nth_error_app2 by (rewrite H; [|lia]; simpl; lia).
    rewrite H by lia.
    replace (S o * len + r - len) with (o * len + r) by (simpl; lia).
    rewrite IH; [| intros; apply H; lia | lia | lia].
    f_equal. f_equal. lia.
Qed.

Lemma flat_map_ext_In {A B} (f g : A -> list B) (l : list A) :
  (forall x, In x l -> f x = g x) -> flat_map f l = flat_map g l.
Proof.
  induction l as [|x l IH]; intros H; simpl.
  - reflexivity.
  - rewrite (H x) by now left. rewrite IH; [reflexivity|].
    intros y Hy. apply H. now right.
Qed.

Lemma flat_map_nth_error_seq {A} (l : list A) :
  flat_map (fun p => match nth_error l p with Some v => [v] | None => [] end)
           (seq 0 (length l)) = l.
Proof.
  induction l as [|x l IH] using rev_ind.
  - reflexivity.
  - rewrite length_app. simpl. rewrite Nat.add_1_r, seq_S, flat_map_app. simpl.
    rewrite nth_error_app2, Nat.sub_diag by lia. simpl.
    f_equal.
    rewrite <- IH at 2.
    apply flat_map_ext_In. intros p Hp. apply in_seq in Hp.
    now rewrite nth_error_app1 by lia.
Qed.

(** ** Shapes and flat positions *)

Lemma size_of_cons (d : nat) (s : list nat) : size_of (d :: s) = d * size_of s.
Proof. reflexivity. Qed.

Lemma size_of_app (s1 s2 : list nat) :
  size_of (s1 ++ s2) = size_of s1 * size_of s2.
Proof.
  induction s1 as [|d s1 IH]; simpl.
  - unfold size_of. simpl. lia.
  - rewrite !size_of_cons, IH. lia.
Qed.

Lemma in_bounds_length (s idx : list nat) :
  in_bounds s idx = true -> length idx = length s.
Proof.
  revert idx. induction s as [|d s IH]; intros [|i idx] H; simpl in *;
    try discriminate; auto.
  apply andb_true_iff in H. destruct H as [_ H]. f_equal. auto.
Qed.

Lemma in_bounds_app (s1 s2 i1 i2 : list nat) :
  length i1 = length s1 ->
  in_bounds (s1 ++ s2) (i1 ++ i2) = in_bounds s1 i1 && in_bounds s2 i2.
Proof.
  revert i1. induction s1 as [|d s1 IH]; intros [|i i1] H; simpl in *;
    try discriminate; auto.
  rewrite IH by lia. now rewrite andb_assoc.
Qed.

Lemma ravel_lt (s idx : list nat) :
  in_bounds s idx = true -> ravel s idx < size_of s.
Proof.
  revert idx. induction s as [|d s IH]; intros [|i idx] H; simpl in *;
    try discriminate.
  - unfold size_of. simpl. lia.
  - apply andb_true_iff in H. destruct H as [Hi H].
    apply Nat.ltb_lt in Hi. apply IH in H.
    rewrite size_of_cons. nia.
Qed.

Lemma ravel_app (s1 s2 i1 i2 : list nat) :
  length i1 = length s1 ->
  ravel (s1 ++ s2) (i1 ++ i2) = ravel s1 i1 * size_of s2 + ravel s2 i2.
Proof.
  revert i1. induction s1 as [|d s1 IH]; intros [|i i1] H; simpl in *;
    try discriminate; auto.
  rewrite IH by lia. rewrite size_of_app. lia.
Qed.

(** ** Python indices *)

Lemma norm_index_denotes (nd : nat) (axis : Z) (k : nat) :
  denotes_axis nd axis k -> norm_index nd axis = Some k.
Proof.
  intros [Hk [-> | ->]]; unfold norm_index.
  - destruct (Z.leb_spec 0 (Z.of_nat k)); [|lia].
    destruct (Z.ltb_spec (Z.of_nat k) (Z.of_nat nd)); [|lia].
    now rewrite Nat2Z.id.
  - destruct (Z.leb_spec 0 (Z.of_nat k - Z.of_nat nd)); [lia|].
    destruct (Z.leb_spec (- Z.of_nat nd) (Z.of_nat k - Z.of_nat nd)); [|lia].
    f_equal. lia.
Qed.

Lemma slice_bound_denotes (nd : nat) (axis : Z) (k : nat) :
  denotes_axis nd axis k -> slice_bound nd axis = k.
Proof.
  intros [Hk [-> | ->]]; unfold slice_bound.
  - destruct (Z.leb_spec 0 (Z.of_nat k)); lia.
  - destruct (Z.leb_spec 0 (Z.of_nat k - Z.of_nat nd)); lia.
Qed.

Lemma slice_bound_nat (nd k : nat) :
  k <= nd -> slice_bound nd (Z.of_nat k) = k.
Proof.
  intros H. unfold slice_bound.
  destruct (Z.leb_spec 0 (Z.of_nat k)); lia.
Qed.

Lemma py_index_denotes {A} (pre post : list A) (d : A) (axis : Z) :
  denotes_axis (length (pre ++ d :: post)) axis (length pre) ->
  py_index (pre ++ d :: post) axis = Ok d.
Proof.
  intros H. unfold py_index. rewrite (norm_index_denotes H).
  rewrite nth_error_app2, Nat.sub_diag by lia. reflexivity.
Qed.

Lemma firstn_app_exact {A} (pre post : list A) : firstn (length pre) (pre ++ post) = pre.
Proof.
  rewrite firstn_app, Nat.sub_diag, firstn_all. simpl. apply app_nil_r.
Qed.

Lemma skipn_app_exact {A} (pre post : list A) : skipn (length pre) (pre ++ post) = post.
Proof.
  rewrite skipn_app, Nat.sub_diag, skipn_all. reflexivity.
Qed.

Lemma skipn_S_app_exact {A} (pre post : list A) (d : A) :
  skipn (S (length pre)) (pre ++ d :: post) = post.
Proof.
  replace (S (length pre)) with (length (pre ++ [d])) by (rewrite length_app; simpl; lia).
  replace (pre ++ d :: post) with ((pre ++ [d]) ++ post) by (now rewrite <- app_assoc).
  apply skipn_app_exact.
Qed.

Lemma nth_app_exact (pre post : list nat) (d : nat) :
  nth (length pre) (pre ++ d :: post) 0 = d.
Proof.
  rewrite app_nth2, Nat.sub_diag by lia. reflexivity.
Qed.

(** ** reshape *)

Lemma map_to_nat_of_nat (s : list nat) : map Z.to_nat (map Z.of_nat s) = s.
Proof.
  induction s as [|d s IH]; simpl; [reflexivity|].
  now rewrite Nat2Z.id, IH.
Qed.

Lemma filter_known_of_nat (s : list nat) :
  filter (fun d => negb (d =? -1)%Z) (map Z.of_nat s) = map Z.of_nat s.
Proof.
  induction s as [|d s IH]; simpl; [reflexivity|].
  destruct (Z.eqb_spec (Z.of_nat d) (-1)); [lia|]. simpl. now rewrite IH.
Qed.

Lemma filter_unknown_of_nat (s : list nat) :
  filter (fun d => (d =? -1)%Z) (map Z.of_nat s) = [].
Proof.
  induction s as [|d s IH]; simpl; [reflexivity|].
  destruct (Z.eqb_spec (Z.of_nat d) (-1)); [lia|]. exact IH.
Qed.

Lemma existsb_negative_of_nat (s : list nat) :
  existsb (fun d => (d <? -1)%Z) (map Z.of_nat s) = false.
Proof.
  induction s as [|d s IH]; simpl; [reflexivity|].
  destruct (Z.ltb_spec (Z.of_nat d) (-1)); [lia|]. exact IH.
Qed.

Lemma resolve_shape_exact (size : nat) (s : list nat) :
  size_of s = size -> resolve_shape size (map Z.of_nat s) = Ok s.
Proof.
  intros H. unfold resolve_shape, count_unknown, known_size.
  rewrite existsb_negative_of_nat, filter_unknown_of_nat, filter_known_of_nat.
  simpl. rewrite map_to_nat_of_nat, H, Nat.eqb_refl. reflexivity.
Qed.

Lemma reshape_exact {A} (a : ndarray A) (s : list nat) :
  size_of s = length (data a) ->
  reshape a (map Z.of_nat s) = Ok (mk_ndarray s (data a)).
Proof.
  intros H. unfold reshape. now rewrite resolve_shape_exact.
Qed.

(** A single [-1] is replaced by the extent the other entries leave. *)
Lemma resolve_shape_infer (size q : nat) (s1 s2 : list nat) :
  0 < size_of s1 * size_of s2 ->
  size = size_of s1 * q * size_of s2 ->
  resolve_shape size (map Z.of_nat s1 ++ (-1)%Z :: map Z.of_nat s2) = Ok (s1 ++ q :: s2).
Proof.
  intros Hpos Hsize. unfold resolve_shape, count_unknown, known_size.
  rewrite existsb_app. simpl. rewrite !existsb_negative_of_nat. simpl.
  rewrite !filter_app. simpl.
  rewrite !filter_unknown_of_nat, !filter_known_of_nat. simpl.
  rewrite <- map_app, map_to_nat_of_nat, size_of_app.
  destruct (Nat.eqb_spec (size_of s1 * size_of s2) 0); [lia|].
  assert (Hq : size = q * (size_of s1 * size_of s2)) by lia.
  rewrite Hq, Nat.Div0.mod_mul, Nat.div_mul by lia. simpl.
  f_equal. rewrite map_app. simpl.
  rewrite !map_map. f_equal.
  - rewrite <- (map_id s1) at 2. apply map_ext. intros d.
    destruct (Z.eqb_spec (Z.of_nat d) (-1)); [lia|]. apply Nat2Z.id.
  - f_equal. rewrite <- (map_id s2) at 2. apply map_ext. intros d.
    destruct (Z.eqb_spec (Z.of_nat d) (-1)); [lia|]. apply Nat2Z.id.
Qed.

(** ** np.take *)

Lemma np_take_ok {A} (a : ndarray A) (pre post : list nat) (dim x : nat) (axis : Z) :
  shape a = pre ++ dim :: post ->
  denotes_axis (ndim a) axis (length pre) ->
  x < dim ->
  np_take a x axis
  = Ok (mk_ndarray (pre ++ post)
                   (take_data (size_of pre) dim (size_of post) x (data a))).
Proof.
  intros Hs Hax Hx. unfold np_take, norm_axis.
  rewrite (norm_index_denotes Hax). cbn [bind].
  rewrite Hs, nth_app_exact, firstn_app_exact, skipn_S_app_exact.
  destruct (Nat.ltb_spec x dim); [reflexivity | lia].
Qed.

Lemma block_fits (outer dim inner x o len : nat) :
  len = outer * dim * inner -> x < dim -> o < outer ->
  (o * dim + x) * inner + inner <= len.
Proof.
  intros -> Hx Ho.
  assert (H : o * dim + x + 1 <= outer * dim) by nia.
  replace ((o * dim + x) * inner + inner) with ((o * dim + x + 1) * inner) by lia.
  apply Nat.mul_le_mono_r. exact H.
Qed.

Lemma length_take_data {A} (outer dim inner x : nat) (d : list A) :
  length d = outer * dim * inner -> x < dim ->
  length (take_data outer dim inner x d) = outer * inner.
Proof.
  intros Hd Hx. unfold take_data.
  apply length_flat_map_seq. intros o Ho.
  apply length_slice. eapply block_fits; eauto. lia.
Qed.

Lemma nth_error_take_data {A} (outer dim inner x o r : nat) (d : list A) :
  length d = outer * dim * inner -> x < dim -> o < outer -> r < inner ->
  nth_error (take_data outer dim inner x d) (o * inner + r)
  = nth_error d ((o * dim + x) * inner + r).
Proof.
  intros Hd Hx Ho Hr. unfold take_data.
  rewrite nth_error_flat_map_seq with (len := inner); try lia.
  - simpl. now apply nth_error_slice.
  - intros o' Ho'. apply length_slice. eapply block_fits; eauto. lia.
Qed.

(** The element at [(I, J)] of the sub-array is the element at [(I, x, J)]
    of the array. *)
Lemma get_take {A} (a : ndarray A) (pre post : list nat) (dim x : nat) (I J : list nat) :
  wf a -> shape a = pre ++ dim :: post -> x < dim -> length I = length pre ->
  get (mk_ndarray (pre ++ post) (take_data (size_of pre) dim (size_of post) x (data a)))
      (I ++ J)
  = get a (I ++ x :: J).
Proof.
  intros Hwf Hs Hx HI. unfold get. simpl. rewrite Hs.
  rewrite !in_bounds_app by assumption. simpl.
  destruct (Nat.ltb_spec x dim); [|lia]. simpl.
  destruct (in_bounds pre I) eqn:HbI; [|reflexivity].
  destruct (in_bounds post J) eqn:HbJ; [|reflexivity]. simpl.
  rewrite !ravel_app by assumption. simpl.
  apply ravel_lt in HbI. apply ravel_lt in HbJ.
  rewrite nth_error_take_data; try assumption.
  - f_equal. rewrite size_of_cons. lia.
  - unfold wf in Hwf. rewrite Hwf, Hs, size_of_app, size_of_cons. lia.
Qed.

Lemma wf_take {A} (a : ndarray A) (pre post : list nat) (dim x : nat) :
  wf a -> shape a = pre ++ dim :: post -> x < dim ->
  wf (mk_ndarray (pre ++ post) (take_data (size_of pre) dim (size_of post) x (data a))).
Proof.
  intros Hwf Hs Hx. unfold wf in *. simpl.
  rewrite length_take_data, size_of_app; try assumption; try reflexivity.
  rewrite Hwf, Hs, size_of_app, size_of_cons. lia.
Qed.

(** ** GridSplitter *)

Lemma py_int_div_exact (n s : nat) : 0 < n -> py_int_div (n * s) n = Ok s.
Proof.
  intros H. unfold py_int_div.
  destruct (Nat.eqb_spec n 0); [lia|].
  now rewrite Nat.mul_comm, Nat.div_mul by lia.
Qed.

(** Splitting an axis of extent [n * s] into the axes [n] and [s] keeps
    every element where it is: position [(x, i)] of the pair is position
    [x * s + i] of the axis. *)
Lemma get_reshape_merge {A} (d : list A) (pre post I J : list nat) (n s x i : nat) :
  length I = length pre -> x < n -> i < s ->
  get (mk_ndarray (pre ++ n :: s :: post) d) (I ++ x :: i :: J)
  = get (mk_ndarray (pre ++ (n * s) :: post) d) (I ++ (x * s + i) :: J).
Proof.
  intros HI Hx Hi. unfold get. simpl.
  rewrite !in_bounds_app by assumption. simpl.
  destruct (Nat.ltb_spec x n); [|lia].
  destruct (Nat.ltb_spec i s); [|lia].
  destruct (Nat.ltb_spec (x * s + i) (n * s)); [|nia]. simpl.
  destruct (in_bounds pre I && in_bounds post J); [|reflexivity].
  rewrite !ravel_app by assumption. simpl.
  rewrite !size_of_cons. f_equal. lia.
Qed.

Lemma split_ok {A} (arr : ndarray A) (n s : nat) (axis : Z) (pre post : list nat) :
  wf arr -> 0 < n ->
  shape arr = pre ++ (n * s) :: post ->
  denotes_axis (ndim arr) axis (length pre) ->
  split arr n axis
  = Ok (map (fun x => mk_ndarray (pre ++ s :: post)
                        (take_data (size_of pre) n (size_of (s :: post)) x (data arr)))
            (seq 0 n)).
Proof.
  intros Hwf Hn Hs Hax. unfold split, ndim in *.
  rewrite Hs in *. rewrite (py_index_denotes _ _ _ Hax). cbn [bind].
  rewrite py_int_div_exact by assumption. cbn [bind].
  unfold py_slice_to, py_slice_from.
  rewrite (slice_bound_denotes Hax), firstn_app_exact.
  set (rest_idx := if (axis <? 0)%Z then _ else _).
  assert (Hrest : rest_idx = Z.of_nat (S (length pre))).
  { subst rest_idx. destruct Hax as [Hk [-> | ->]].
    - destruct (Z.ltb_spec (Z.of_nat (length pre)) 0); lia.
    - destruct (Z.ltb_spec
                  (Z.of_nat (length pre) - Z.of_nat (length (pre ++ n * s :: post))) 0); lia. }
  rewrite Hrest, slice_bound_nat by (rewrite length_app; simpl; lia).
  rewrite skipn_S_app_exact.
  replace (map Z.of_nat pre ++ [Z.of_nat n; Z.of_nat s] ++ map Z.of_nat post)
    with (map Z.of_nat (pre ++ n :: s :: post))
    by (rewrite map_app; reflexivity).
  rewrite reshape_exact.
  2:{ simpl. unfold wf in Hwf. rewrite Hwf, Hs, !size_of_app, !size_of_cons. lia. }
  cbn [bind]. apply mapM_ok. intros x Hx. apply in_seq in Hx.
  rewrite np_take_ok with (pre := pre) (post := s :: post) (dim := n).
  - reflexivity.
  - reflexivity.
  - unfold ndim, denotes_axis. cbn [shape]. rewrite length_app. cbn [length].
    split; [lia|]. left. lia.
  - lia.
Qed.

Lemma split_piece_spec {A} (arr : ndarray A) (n s x : nat) (pre post : list nat) :
  wf arr -> shape arr = pre ++ (n * s) :: post -> x < n ->
  let piece := mk_ndarray (pre ++ s :: post)
                 (take_data (size_of pre) n (size_of (s :: post)) x (data arr)) in
  wf piece /\
  forall I i J, length I = length pre -> i < s ->
    get piece (I ++ i :: J) = get arr (I ++ (x * s + i) :: J).
Proof.
  intros Hwf Hs Hx piece.
  set (arr' := mk_ndarray (pre ++ n :: s :: post) (data arr)).
  assert (Hwf' : wf arr').
  { unfold wf in *. simpl. rewrite Hwf, Hs, !size_of_app, !size_of_cons. lia. }
  split.
  - apply (wf_take (a := arr') pre (s :: post) Hwf' eq_refl Hx).
  - intros I i J HI Hi.
    etransitivity;
      [exact (get_take (a := arr') pre (s :: post) I (i :: J) Hwf' eq_refl Hx HI)|].
    unfold arr'. rewrite get_reshape_merge by assumption.
    unfold get. simpl. now rewrite Hs.
Qed.

(** C8. [split(arr, n, axis)] on an array whose axis [axis] (counted from
    the front or, when negative, from the end) has extent [n * s], with
    [n >= 1] pieces requested: the call returns exactly [n] arrays; piece
    [k] has extent [s] along that axis and the other extents unchanged, and
    its element at position [i] of the axis is the element at position
    [k * s + i] of the original, all other indices being equal: piece [k] is
    the [k]-th contiguous run. *)
Theorem split_contiguous_runs {A} (arr : ndarray A) (n s : nat) (axis : Z)
        (pre post : list nat) :
  wf arr -> 0 < n ->
  shape arr = pre ++ (n * s) :: post ->
  denotes_axis (ndim arr) axis (length pre) ->
  exists pieces,
    split arr n axis = Ok pieces /\
    length pieces = n /\
    forall k, k < n ->
      exists piece,
        nth_error pieces k = Some piece /\
        shape piece = pre ++ s :: post /\
        wf piece /\
        forall I i J, length I = length pre -> i < s ->
          get piece (I ++ i :: J) = get arr (I ++ (k * s + i) :: J).
Proof.
  intros Hwf Hn Hs Hax.
  eexists. split; [apply split_ok; eassumption|].
  split; [now rewrite length_map, length_seq|].
  intros k Hk. eexists. split.
  - rewrite nth_error_map, nth_error_seq.
    destruct (Nat.ltb_spec k n); [|lia]. reflexivity.
  - split; [reflexivity|].
    apply split_piece_spec; assumption.
Qed.

Lemma split_contiguous_runs_witness :
  exists pieces,
    split (mk_ndarray [2; 4] [10; 11; 12; 13; 14; 15; 16; 17]) 2 (-1) = Ok pieces /\
    length pieces = 2 /\
    forall k, k < 2 ->
      exists piece,
        nth_error pieces k = Some piece /\
        shape piece = [2] ++ 2 :: [] /\
        wf piece /\
        forall I i J, length I = length [2] -> i < 2 ->
          get piece (I ++ i :: J)
          = get (mk_ndarray [2; 4] [10; 11; 12; 13; 14; 15; 16; 17])
                (I ++ (k * 2 + i) :: J).
Proof.
  apply (@split_contiguous_runs nat (mk_ndarray [2; 4] [10; 11; 12; 13; 14; 15; 16; 17])
                                2 2 (-1) [2] []).
  - reflexivity.
  - lia.
  - reflexivity.
  - unfold denotes_axis, ndim. simpl. split; [lia | right; reflexivity].
Defined.

Lemma py_index_0 {A} (x : A) (l : list A) : py_index (x :: l) 0 = Ok x.
Proof.
  unfold py_index, norm_index. cbn [Z.leb Z.compare].
  destruct (Z.ltb_spec 0 (Z.of_nat (length (x :: l)))); [reflexivity|].
  cbn [length] in *. lia.
Qed.

Lemma hsplit_ok {A} (arr : ndarray A) (n s d0 : nat) (post : list nat) :
  wf arr -> shape arr = d0 :: (n * s) :: post ->
  0 < d0 -> 0 < n -> 0 < size_of post ->
  hsplit arr n
  = Ok (map (fun x => mk_ndarray ([d0] ++ s :: post)
                        (take_data (size_of [d0]) n (size_of (s :: post)) x (data arr)))
            (seq 0 n)).
Proof.
  intros Hwf Hs Hd0 Hn Hpost. unfold hsplit. rewrite Hs, py_index_0.
  cbn [bind].
  change (py_slice_from (d0 :: n * s :: post) 2) with post.
  unfold reshape.
  change ([Z.of_nat d0; Z.of_nat n; (-1)%Z] ++ map Z.of_nat post)
    with (map Z.of_nat [d0; n] ++ (-1)%Z :: map Z.of_nat post).
  rewrite (@resolve_shape_infer _ s).
  2:{ rewrite !size_of_cons. change (size_of []) with 1. nia. }
  2:{ unfold wf in Hwf. rewrite Hwf, Hs, !size_of_cons. change (size_of []) with 1. lia. }
  cbn [bind]. apply mapM_ok. intros x Hx. apply in_seq in Hx.
  rewrite np_take_ok with (pre := [d0]) (post := s :: post) (dim := n).
  - reflexivity.
  - reflexivity.
  - unfold ndim, denotes_axis. cbn [shape app length]. split; [lia|]. left. reflexivity.
  - lia.
Qed.

Lemma vsplit_ok {A} (arr : ndarray A) (n s : nat) (post : list nat) :
  wf arr -> shape arr = (n * s) :: post ->
  0 < n -> 0 < size_of post ->
  vsplit arr n
  = Ok (map (fun x => mk_ndarray ([] ++ s :: post)
                        (take_data (size_of []) n (size_of (s :: post)) x (data arr)))
            (seq 0 n)).
Proof.
  intros Hwf Hs Hn Hpost. unfold vsplit. rewrite Hs.
  change (py_slice_from (n * s :: post) 1) with post.
  unfold reshape.
  change ([Z.of_nat n; (-1)%Z] ++ map Z.of_nat post)
    with (map Z.of_nat [n] ++ (-1)%Z :: map Z.of_nat post).
  rewrite (@resolve_shape_infer _ s).
  2:{ rewrite !size_of_cons. change (size_of []) with 1. nia. }
  2:{ unfold wf in Hwf. rewrite Hwf, Hs, !size_of_cons. change (size_of []) with 1. lia. }
  cbn [bind]. apply mapM_ok. intros x Hx. apply in_seq in Hx.
  rewrite np_take_ok with (pre := []) (post := s :: post) (dim := n).
  - reflexivity.
  - reflexivity.
  - unfold ndim, denotes_axis. cbn [shape app length]. split; [lia|]. left. reflexivity.
  - lia.
Qed.

(** ** ChunkStacker *)

Lemma nth_error_flat_map_const {A B} (g : A -> list B) (len : nat) (l : list A)
      (t r : nat) (x : A) :
  (forall y, In y l -> length (g y) = len) ->
  nth_error l t = Some x -> r < len ->
  nth_error (flat_map g l) (t * len + r) = nth_error (g x) r.
Proof.
  revert t. induction l as [|y l IH]; intros t Hlen Ht Hr.
  - destruct t; discriminate.
  - simpl. destruct t as [|t]; simpl in Ht.
    + inversion Ht; subst. simpl.
      now rewrite nth_error_app1 by (rewrite Hlen; [lia | now left]).
    + rewrite nth_error_app2 by (rewrite Hlen; [simpl; lia | now left]).
      rewrite Hlen by now left.
      replace (S t * len + r - len) with (t * len + r) by (simpl; lia).
      apply IH; auto. intros z Hz. apply Hlen. now right.
Qed.

Lemma length_stack_data {A} (outer inner : nat) (layers : list (ndarray A)) :
  (forall y, In y layers -> length (data y) = outer * inner) ->
  length (stack_data outer inner layers) = outer * (length layers * inner).
Proof.
  intros H. unfold stack_data.
  apply length_flat_map_seq. intros o Ho.
  apply flat_map_constant_length. intros y Hy.
  apply length_slice. rewrite (H y Hy). nia.
Qed.

Lemma nth_error_stack_data {A} (outer inner : nat) (layers : list (ndarray A))
      (o t r : nat) (l : ndarray A) :
  (forall y, In y layers -> length (data y) = outer * inner) ->
  nth_error layers t = Some l -> o < outer -> r < inner ->
  nth_error (stack_data outer inner layers) ((o * length layers + t) * inner + r)
  = nth_error (data l) (o * inner + r).
Proof.
  intros H Ht Ho Hr. unfold stack_data.
  assert (HT : t < length layers) by (apply nth_error_Some; congruence).
  replace ((o * length layers + t) * inner + r)
    with (o * (length layers * inner) + (t * inner + r)) by lia.
  rewrite nth_error_flat_map_seq with (len := length layers * inner); try lia.
  - simpl.
    rewrite nth_error_flat_map_const with (len := inner) (x := l); try assumption.
    + now apply nth_error_slice.
    + intros y Hy. apply length_slice. rewrite (H y Hy). nia.
  - intros o' Ho'. apply flat_map_constant_length. intros y Hy.
    apply length_slice. rewrite (H y Hy). nia.
  - nia.
Qed.

Lemma np_stack_last_ok {A} (sh : list nat) (layers : list (ndarray A)) (axis : Z) :
  layers <> [] ->
  (forall y, In y layers -> shape y = sh) ->
  denotes_axis (S (length sh)) axis (length sh) ->
  np_stack layers axis
  = Ok (mk_ndarray (sh ++ [length layers]) (stack_data (size_of sh) 1 layers)).
Proof.
  intros Hne Hsh Hax. destruct layers as [|l0 layers]; [congruence|].
  unfold np_stack.
  assert (Hall : forallb (same_shape l0) (l0 :: layers) = true).
  { apply forallb_forall. intros y Hy. unfold same_shape.
    destruct (list_eq_dec Nat.eq_dec (shape y) (shape l0)) as [|Hn]; [reflexivity|].
    exfalso. apply Hn. rewrite (Hsh y Hy). symmetry. apply Hsh. now left. }
  rewrite Hall. unfold norm_axis, ndim.
  rewrite (Hsh l0 (or_introl eq_refl)).
  rewrite (norm_index_denotes Hax). cbn [bind].
  rewrite firstn_all, skipn_all. rewrite app_nil_r. reflexivity.
Qed.

(** The element at [(I, t)] of the stacked array is the element at [I] of
    layer [t]. *)
Lemma get_stack_last {A} (sh : list nat) (layers : list (ndarray A)) (t : nat)
      (l : ndarray A) (I : list nat) :
  (forall y, In y layers -> shape y = sh /\ wf y) ->
  nth_error layers t = Some l -> length I = length sh ->
  get (mk_ndarray (sh ++ [length layers]) (stack_data (size_of sh) 1 layers)) (I ++ [t])
  = get l I.
Proof.
  intros H Ht HI.
  assert (HT : t < length layers) by (apply nth_error_Some; congruence).
  assert (Hl : shape l = sh /\ wf l) by (apply H; eapply nth_error_In; eauto).
  destruct Hl as [Hsl Hwl].
  unfold get. cbn [shape data]. rewrite Hsl.
  rewrite in_bounds_app by assumption. cbn [in_bounds].
  destruct (Nat.ltb_spec t (length layers)); [|lia].
  rewrite andb_true_r.
  destruct (in_bounds sh I) eqn:HbI; [|reflexivity].
  rewrite ravel_app by assumption. cbn [ravel].
  rewrite size_of_cons. change (size_of []) with 1.
  apply ravel_lt in HbI.
  replace (ravel sh I * (length layers * 1) + (t * 1 + 0))
    with ((ravel sh I * length layers + t) * 1 + 0) by lia.
  rewrite nth_error_stack_data with (l := l); try assumption; try lia.
  - f_equal. lia.
  - intros y Hy. destruct (H y Hy) as [Hsy Hwy]. unfold wf in Hwy.
    rewrite Hwy, Hsy. lia.
Qed.

Lemma wf_stack_last {A} (sh : list nat) (layers : list (ndarray A)) :
  (forall y, In y layers -> shape y = sh /\ wf y) ->
  wf (mk_ndarray (sh ++ [length layers]) (stack_data (size_of sh) 1 layers)).
Proof.
  intros H. unfold wf. cbn [shape data].
  rewrite length_stack_data.
  - rewrite size_of_app, size_of_cons. change (size_of []) with 1. lia.
  - intros y Hy. destruct (H y Hy) as [Hsy Hwy]. unfold wf in Hwy.
    rewrite Hwy, Hsy. lia.
Qed.

Section ChunkFacts.
Context {A : Type}.
Variables (bnd : list nat) (R sr C sc : nat) (arr : ndarray A).
Hypothesis Hwf : wf arr.
Hypothesis Hshape : shape arr = bnd ++ [R * sr; C * sc].

Lemma shape_as_columns : shape arr = (bnd ++ [R * sr]) ++ (C * sc) :: [].
Proof. rewrite Hshape, <- app_assoc. reflexivity. Qed.

Lemma column_piece_spec (c : nat) :
  c < C ->
  wf (column_piece bnd R sr C sc arr c) /\
  forall I j, length I = S (length bnd) -> j < sc ->
    get (column_piece bnd R sr C sc arr c) (I ++ [j]) = get arr (I ++ [c * sc + j]).
Proof.
  intros Hc.
  destruct (@split_piece_spec A arr C sc c (bnd ++ [R * sr]) [] Hwf shape_as_columns Hc)
    as [Hw Hg].
  split; [exact Hw|].
  intros I j HI Hj. apply Hg; [|assumption].
  rewrite length_app. simpl. lia.
Qed.

Lemma chunk_piece_spec (c r : nat) :
  c < C -> r < R ->
  wf (chunk_piece bnd R sr C sc arr c r) /\
  forall Ib i j, length Ib = length bnd -> i < sr -> j < sc ->
    get (chunk_piece bnd R sr C sc arr c r) (Ib ++ [i; j])
    = get arr (Ib ++ [r * sr + i; c * sc + j]).
Proof.
  intros Hc Hr.
  destruct (column_piece_spec Hc) as [Hwc Hgc].
  assert (Hsc : shape (column_piece bnd R sr C sc arr c) = bnd ++ (R * sr) :: [sc]).
  { unfold column_piece. cbn [shape]. now rewrite <- app_assoc. }
  destruct (@split_piece_spec A _ R sr r bnd [sc] Hwc Hsc Hr) as [Hw Hg].
  split; [exact Hw|].
  intros Ib i j HIb Hi Hj.
  etransitivity; [apply Hg; assumption|].
  replace (Ib ++ [r * sr + i; j]) with ((Ib ++ [r * sr + i]) ++ [j])
    by (now rewrite <- app_assoc).
  rewrite Hgc; [| rewrite length_app; simpl; lia | assumption].
  now rewrite <- app_assoc.
Qed.

Lemma length_chunk_layers : length (chunk_layers bnd R sr C sc arr) = C * R.
Proof.
  unfold chunk_layers. apply length_flat_map_seq.
  intros c _. now rewrite length_map, length_seq.
Qed.

Lemma nth_error_chunk_layers (c r : nat) :
  c < C -> r < R ->
  nth_error (chunk_layers bnd R sr C sc arr) (c * R + r)
  = Some (chunk_piece bnd R sr C sc arr c r).
Proof.
  intros Hc Hr. unfold chunk_layers.
  rewrite nth_error_flat_map_seq with (len := R); try assumption.
  - simpl. rewrite nth_error_map, nth_error_seq.
    destruct (Nat.ltb_spec r R); [reflexivity | lia].
  - intros o _. now rewrite length_map, length_seq.
Qed.

Lemma chunk_layers_uniform (y : ndarray A) :
  In y (chunk_layers bnd R sr C sc arr) -> shape y = bnd ++ sr :: [sc] /\ wf y.
Proof.
  unfold chunk_layers. intros Hy.
  apply in_flat_map in Hy. destruct Hy as [c [Hc Hy]].
  apply in_map_iff in Hy. destruct Hy as [r [<- Hr]].
  apply in_seq in Hc. apply in_seq in Hr.
  split; [reflexivity|].
  apply chunk_piece_spec; lia.
Qed.

(** The stacked array has one tile per chunk, [R * C] in all, each of the
    chunk shape, and tile [c * R + r] is chunk [(r, c)]. *)
Lemma stacked_chunks_spec :
  shape (stacked_chunks bnd R sr C sc arr) = bnd ++ [sr; sc; R * C] /\
  wf (stacked_chunks bnd R sr C sc arr) /\
  forall Ib i j c r, length Ib = length bnd -> i < sr -> j < sc -> c < C -> r < R ->
    get (stacked_chunks bnd R sr C sc arr) (Ib ++ [i; j; c * R + r])
    = get arr (Ib ++ [r * sr + i; c * sc + j]).
Proof.
  split; [|split].
  - unfold stacked_chunks. cbn [shape].
    now rewrite length_chunk_layers, <- app_assoc, (Nat.mul_comm C R).
  - apply wf_stack_last. apply chunk_layers_uniform.
  - intros Ib i j c r HIb Hi Hj Hc Hr.
    replace (Ib ++ [i; j; c * R + r]) with ((Ib ++ [i; j]) ++ [c * R + r])
      by (now rewrite <- app_assoc).
    unfold stacked_chunks.
    rewrite get_stack_last with (l := chunk_piece bnd R sr C sc arr c r).
    + now apply chunk_piece_spec.
    + apply chunk_layers_uniform.
    + now apply nth_error_chunk_layers.
    + rewrite !length_app. simpl. lia.
Qed.

End ChunkFacts.

Lemma chunk_layers_nonempty {A} (bnd : list nat) (R sr C sc : nat) (arr : ndarray A) :
  0 < R -> 0 < C -> chunk_layers bnd R sr C sc arr <> [].
Proof.
  intros HR HC Hnil.
  pose proof (length_chunk_layers bnd R sr C sc arr) as Hlen.
  rewrite Hnil in Hlen. simpl in Hlen. nia.
Qed.

Lemma reshape_to_stacked_3d_ok {A} (array : dask_array A) (bnd : list nat)
      (R sr C sc : nat) :
  wf (values array) ->
  shape (values array) = bnd ++ [R * sr; C * sc] ->
  chunk_counts (chunks array) (-2) (-1) R C ->
  0 < R -> 0 < C ->
  reshape_to_stacked_3d array = Ok (stacked_chunks bnd R sr C sc (values array)).
Proof.
  intros Hwf Hs (cy & cx & Hcy & Hcx & <- & <-) HR HC.
  unfold reshape_to_stacked_3d. rewrite Hcx, Hcy. cbn [bind].
  set (R := length cy) in *. set (C := length cx) in *.
  rewrite split_ok with (s := sc) (pre := bnd ++ [R * sr]) (post := []);
    [| assumption | assumption | now apply shape_as_columns |].
  2:{ unfold denotes_axis, ndim. rewrite Hs, !length_app. cbn [length].
      split; [lia | right; lia]. }
  cbn [bind].
  rewrite mapM_ok
    with (g := fun col => map (fun r => mk_ndarray (bnd ++ sr :: [sc])
                                          (take_data (size_of bnd) R (size_of (sr :: [sc]))
                                                     r (data col)))
                              (seq 0 R)).
  2:{ intros col Hcol. apply in_map_iff in Hcol. destruct Hcol as [c [<- Hc]].
      apply in_seq in Hc.
      apply split_ok.
      - apply (@column_piece_spec A bnd R sr C sc (values array) Hwf Hs c). lia.
      - assumption.
      - cbn [shape]. now rewrite <- app_assoc.
      - unfold denotes_axis, ndim. cbn [shape]. rewrite !length_app. cbn [length].
        split; [lia | right; lia]. }
  cbn [bind]. rewrite map_map, <- flat_map_concat_map.
  change (flat_map _ (seq 0 C)) with (chunk_layers bnd R sr C sc (values array)).
  rewrite np_stack_last_ok with (sh := bnd ++ sr :: [sc]).
  - reflexivity.
  - now apply chunk_layers_nonempty.
  - intros y Hy. now apply (@chunk_layers_uniform A bnd R sr C sc (values array) Hwf Hs).
  - unfold denotes_axis. split; [lia | right; lia].
Qed.

Lemma stack_2d_ok {A} (array : ndarray A) (R sr C sc : nat) :
  wf array -> shape array = [R * sr; C * sc] ->
  0 < R -> 0 < C -> 0 < sr -> 0 < sc ->
  (cols <- hsplit array C ;;
   layers <- mapM (fun col => vsplit col R) cols ;;
   np_stack (concat layers) 2)
  = Ok (stacked_chunks [] R sr C sc array).
Proof.
  intros Hwf Hs HR HC Hsr Hsc.
  rewrite hsplit_ok with (s := sc) (d0 := R * sr) (post := []);
    [| assumption | assumption | nia | assumption | unfold size_of; simpl; lia].
  cbn [bind].
  rewrite mapM_ok
    with (g := fun col => map (fun r => mk_ndarray ([] ++ sr :: [sc])
                                          (take_data (size_of []) R (size_of (sr :: [sc]))
                                                     r (data col)))
                              (seq 0 R)).
  2:{ intros col Hcol. apply in_map_iff in Hcol. destruct Hcol as [c [<- Hc]].
      apply in_seq in Hc.
      apply vsplit_ok.
      - apply (@column_piece_spec A [] R sr C sc array Hwf Hs c). lia.
      - reflexivity.
      - assumption.
      - rewrite size_of_cons. change (size_of []) with 1. lia. }
  cbn [bind]. rewrite map_map, <- flat_map_concat_map.
  change (flat_map _ (seq 0 C)) with (chunk_layers [] R sr C sc array).
  rewrite np_stack_last_ok with (sh := [sr; sc]).
  - reflexivity.
  - now apply chunk_layers_nonempty.
  - intros y Hy. now apply (@chunk_layers_uniform A [] R sr C sc array Hwf Hs).
  - unfold denotes_axis. simpl. split; [lia | left; reflexivity].
Qed.

Lemma reshape_arrays_in_stacked_chunks_ok {A} (arrays : list (ndarray A))
      (chunks : list (list nat)) (R sr C sc : nat) :
  chunk_counts chunks 0 1 R C ->
  0 < R -> 0 < C -> 0 < sr -> 0 < sc ->
  (forall a, In a arrays -> wf a /\ shape a = [R * sr; C * sc]) ->
  reshape_arrays_in_stacked_chunks arrays chunks
  = Ok (map (stacked_chunks [] R sr C sc) arrays).
Proof.
  intros (cy & cx & Hcy & Hcx & <- & <-) HR HC Hsr Hsc Hall.
  unfold reshape_arrays_in_stacked_chunks. rewrite Hcx. cbn [bind].
  rewrite Hcy. cbn [bind].
  apply mapM_ok. intros a Ha. destruct (Hall a Ha) as [Hwf Hs].
  now apply stack_2d_ok.
Qed.


(** ** Round trip *)

Lemma divmod_block (p w h : nat) :
  0 < w -> p < h * w ->
  p / w < h /\ p mod w < w /\ p / w * w + p mod w = p.
Proof.
  intros Hw Hp. split; [|split].
  - apply Nat.Div0.div_lt_upper_bound. lia.
  - apply Nat.mod_upper_bound. lia.
  - pose proof (Nat.div_mod_eq p w). lia.
Qed.

Lemma get_2d {A} (a : ndarray A) (h w y x : nat) :
  shape a = [h; w] -> y < h -> x < w ->
  get a [y; x] = nth_error (data a) (y * w + x).
Proof.
  intros Hs Hy Hx. unfold get. rewrite Hs. cbn [in_bounds ravel].
  destruct (Nat.ltb_spec y h); [|lia].
  destruct (Nat.ltb_spec x w); [|lia]. simpl.
  rewrite !size_of_cons. change (size_of []) with 1. f_equal. lia.
Qed.

Lemma get_3d {A} (a : ndarray A) (n h w b y x : nat) :
  shape a = [n; h; w] -> b < n -> y < h -> x < w ->
  get a [b; y; x] = nth_error (data a) (b * (h * w) + (y * w + x)).
Proof.
  intros Hs Hb Hy Hx. unfold get. rewrite Hs. cbn [in_bounds ravel].
  destruct (Nat.ltb_spec b n); [|lia].
  destruct (Nat.ltb_spec y h); [|lia].
  destruct (Nat.ltb_spec x w); [|lia]. simpl.
  rewrite !size_of_cons. change (size_of []) with 1. f_equal. lia.
Qed.

Lemma unstack_stacked_2d {A} (a : ndarray A) (R sr C sc : nat) :
  wf a -> shape a = [R * sr; C * sc] -> 0 < C -> 0 < sr -> 0 < sc ->
  unstack_chunks R C (stacked_chunks [] R sr C sc a) = a.
Proof.
  intros Hwf Hs HC Hsr Hsc.
  destruct (@stacked_chunks_spec A [] R sr C sc a Hwf Hs) as (Hsh & _ & Hget).
  unfold unstack_chunks. rewrite Hsh. cbn [app nth].
  destruct a as [sh d]. cbn [shape data] in *. subst sh. f_equal.
  unfold wf in Hwf. cbn [shape data] in Hwf.
  rewrite !size_of_cons in Hwf. change (size_of []) with 1 in Hwf.
  etransitivity; [|apply flat_map_nth_error_seq].
  replace (length d) with (R * sr * (C * sc)) by lia.
  apply flat_map_ext_In. intros p Hp. apply in_seq in Hp. cbv zeta.
  destruct (@divmod_block p (C * sc) (R * sr)) as (Hy & Hx & Hyx); [nia | lia |].
  set (y := p / (C * sc)) in *. set (x := p mod (C * sc)) in *.
  destruct (@divmod_block y sr R) as (Hr & Hi & Hri); [lia | lia |].
  destruct (@divmod_block x sc C) as (Hc & Hj & Hcj); [lia | lia |].
  unfold option_list.
  pose proof (Hget [] (y mod sr) (x mod sc) (x / sc) (y / sr) eq_refl Hi Hj Hc Hr) as Hg.
  cbn [app] in Hg. rewrite Hg, Hri, Hcj.
  rewrite get_2d with (h := R * sr) (w := C * sc); try assumption; try reflexivity.
  cbn [data]. now rewrite Hyx.
Qed.

Lemma unstack_stacked_3d {A} (a : ndarray A) (B R sr C sc : nat) :
  wf a -> shape a = [B; R * sr; C * sc] -> 0 < R -> 0 < C -> 0 < sr -> 0 < sc ->
  unstack_chunks_3d R C (stacked_chunks [B] R sr C sc a) = a.
Proof.
  intros Hwf Hs HR HC Hsr Hsc.
  destruct (@stacked_chunks_spec A [B] R sr C sc a Hwf Hs) as (Hsh & _ & Hget).
  unfold unstack_chunks_3d. rewrite Hsh. cbn [app nth].
  destruct a as [sh d]. cbn [shape data] in *. subst sh. f_equal.
  unfold wf in Hwf. cbn [shape data] in Hwf.
  rewrite !size_of_cons in Hwf. change (size_of []) with 1 in Hwf.
  etransitivity; [|apply flat_map_nth_error_seq].
  replace (length d) with (B * (R * sr * (C * sc))) by lia.
  apply flat_map_ext_In. intros p Hp. apply in_seq in Hp. cbv zeta.
  destruct (@divmod_block p (R * sr * (C * sc)) B) as (Hb & Hq & Hbq); [nia | lia |].
  set (b := p / (R * sr * (C * sc))) in *. set (q := p mod (R * sr * (C * sc))) in *.
  destruct (@divmod_block q (C * sc) (R * sr)) as (Hy & Hx & Hyx); [nia | lia |].
  set (y := q / (C * sc)) in *. set (x := q mod (C * sc)) in *.
  destruct (@divmod_block y sr R) as (Hr & Hi & Hri); [lia | lia |].
  destruct (@divmod_block x sc C) as (Hc & Hj & Hcj); [lia | lia |].
  unfold option_list.
  pose proof (Hget [b] (y mod sr) (x mod sc) (x / sc) (y / sr) eq_refl Hi Hj Hc Hr) as Hg.
  cbn [app] in Hg. rewrite Hg, Hri, Hcj.
  rewrite get_3d with (n := B) (h := R * sr) (w := C * sc);
    try assumption; try reflexivity.
  cbn [data]. now rewrite Hyx, Hbq.
Qed.

Lemma Forall2_map_self {A B} (P : A -> B -> Prop) (f : A -> B) (l : list A) :
  (forall a, In a l -> P a (f a)) -> Forall2 P l (map f l).
Proof.
  induction l as [|a l IH]; intros H; simpl; constructor.
  - apply H. now left.
  - apply IH. intros b Hb. apply H. now right.
Qed.

Lemma map_id_on {A} (f : A -> A) (l : list A) :
  (forall a, In a l -> f a = a) -> map f l = l.
Proof.
  induction l as [|a l IH]; intros H; simpl; [reflexivity|].
  rewrite H by now left. rewrite IH; [reflexivity|].
  intros b Hb. apply H. now right.
Qed.

(** C7. Split/stack round trip.  Coordinate arrays of [R * sr] lines and
    [C * sc] pixels in [R] by [C] chunks are stacked by
    [reshape_arrays_in_stacked_chunks], data with a leading band axis by
    [reshape_to_stacked_3d]; putting every tile back at its place in the
    [R] by [C] grid gives the original arrays again, element for element. *)
Theorem stack_unstack_round_trip {A} (arrays : list (ndarray A))
        (src_chunks : list (list nat)) (array : dask_array A) (B R sr C sc : nat) :
  0 < R -> 0 < C -> 0 < sr -> 0 < sc ->
  chunk_counts src_chunks 0 1 R C ->
  (forall a, In a arrays -> wf a /\ shape a = [R * sr; C * sc]) ->
  wf (values array) ->
  shape (values array) = [B; R * sr; C * sc] ->
  chunk_counts (chunks array) (-2) (-1) R C ->
  exists sts std,
    reshape_arrays_in_stacked_chunks arrays src_chunks = Ok sts /\
    map (unstack_chunks R C) sts = arrays /\
    reshape_to_stacked_3d array = Ok std /\
    unstack_chunks_3d R C std = values array.
Proof.
  intros HR HC Hsr Hsc Hgrid Hall Hwf Hs Hgrid3.
  exists (map (stacked_chunks [] R sr C sc) arrays),
         (stacked_chunks [B] R sr C sc (values array)).
  split; [now apply reshape_arrays_in_stacked_chunks_ok|].
  split.
  - rewrite map_map. apply map_id_on. intros a Ha.
    destruct (Hall a Ha) as [Hwa Hsa]. now apply unstack_stacked_2d.
  - split.
    + now apply reshape_to_stacked_3d_ok.
    + now apply unstack_stacked_3d.
Qed.

Lemma stack_unstack_round_trip_witness :
  exists sts std,
    reshape_arrays_in_stacked_chunks
      [values Demo.src_x44; values Demo.src_y44] Demo.chunks44 = Ok sts /\
    map (unstack_chunks 2 2) sts = [values Demo.src_x44; values Demo.src_y44] /\
    reshape_to_stacked_3d Demo.data244 = Ok std /\
    unstack_chunks_3d 2 2 std = values Demo.data244.
Proof.
  apply (@stack_unstack_round_trip f64 [values Demo.src_x44; values Demo.src_y44]
                                   Demo.chunks44 Demo.data244 2 2 2 2 2);
    try lia; try reflexivity.
  - exists [2; 2], [2; 2]. repeat split; reflexivity.
  - intros a [<- | [<- | []]]; split; reflexivity.
  - exists [2; 2], [2; 2]. repeat split; reflexivity.
Defined.

(** C9. Tile-count invariant.  For coordinate and gradient arrays of
    [R * sr] lines and [C * sc] pixels chunked [R] by [C], and data of the
    same spatial extent and chunking behind a band axis: every stacked array
    has exactly [R * C] tiles along its trailing axis and the per-tile
    spatial shape [(sr, sc)], and in every one of them tile [c * R + r]
    (columns outer, rows inner) is the chunk in row block [r] and column
    block [c] of its array. *)
Theorem stacking_tile_invariant {A} (arrays : list (ndarray A))
        (src_chunks : list (list nat)) (array : dask_array A) (B R sr C sc : nat) :
  0 < R -> 0 < C -> 0 < sr -> 0 < sc ->
  chunk_counts src_chunks 0 1 R C ->
  (forall a, In a arrays -> wf a /\ shape a = [R * sr; C * sc]) ->
  wf (values array) ->
  shape (values array) = [B; R * sr; C * sc] ->
  chunk_counts (chunks array) (-2) (-1) R C ->
  exists sts std,
    reshape_arrays_in_stacked_chunks arrays src_chunks = Ok sts /\
    reshape_to_stacked_3d array = Ok std /\
    Forall2 (fun a st =>
               shape st = [sr; sc; R * C] /\ wf st /\
               forall i j c r, i < sr -> j < sc -> c < C -> r < R ->
                 get st [i; j; c * R + r] = get a [r * sr + i; c * sc + j])
            arrays sts /\
    shape std = [B; sr; sc; R * C] /\ wf std /\
    forall b i j c r, i < sr -> j < sc -> c < C -> r < R ->
      get std [b; i; j; c * R + r] = get (values array) [b; r * sr + i; c * sc + j].
Proof.
  intros HR HC Hsr Hsc Hgrid Hall Hwf Hs Hgrid3.
  exists (map (stacked_chunks [] R sr C sc) arrays),
         (stacked_chunks [B] R sr C sc (values array)).
  split; [now apply reshape_arrays_in_stacked_chunks_ok|].
  split; [now apply reshape_to_stacked_3d_ok|].
  split.
  - apply Forall2_map_self. intros a Ha.
    destruct (Hall a Ha) as [Hwa Hsa].
    destruct (@stacked_chunks_spec A [] R sr C sc a Hwa Hsa) as (H1 & H2 & H3).
    split; [exact H1|]. split; [exact H2|].
    intros i j c r Hi Hj Hc Hr. now apply (H3 []).
  - destruct (@stacked_chunks_spec A [B] R sr C sc (values array) Hwf Hs)
      as (H1 & H2 & H3).
    split; [exact H1|]. split; [exact H2|].
    intros b i j c r Hi Hj Hc Hr. now apply (H3 [b]).
Qed.

Lemma stacking_tile_invariant_witness :
  exists sts std,
    reshape_arrays_in_stacked_chunks
      [values Demo.src_x44; values Demo.src_y44] Demo.chunks44 = Ok sts /\
    reshape_to_stacked_3d Demo.data244 = Ok std /\
    Forall2 (fun a st =>
               shape st = [2; 2; 2 * 2] /\ wf st /\
               forall i j c r, i < 2 -> j < 2 -> c < 2 -> r < 2 ->
                 get st [i; j; c * 2 + r] = get a [r * 2 + i; c * 2 + j])
            [values Demo.src_x44; values Demo.src_y44] sts /\
    shape std = [2; 2; 2; 2 * 2] /\ wf std /\
    forall b i j c r, i < 2 -> j < 2 -> c < 2 -> r < 2 ->
      get std [b; i; j; c * 2 + r]
      = get (values Demo.data244) [b; r * 2 + i; c * 2 + j].
Proof.
  apply (@stacking_tile_invariant f64 [values Demo.src_x44; values Demo.src_y44]
                                  Demo.chunks44 Demo.data244 2 2 2 2 2);
    try lia; try reflexivity.
  - exists [2; 2], [2; 2]. repeat split; reflexivity.
  - intros a [<- | [<- | []]]; split; reflexivity.
  - exists [2; 2], [2; 2]. repeat split; reflexivity.
Defined.

(** ** OverlapReducer *)

Ltac f64_cases :=
  unfold fmax, f64_eqb, f64_geb, isnan in *; simpl in *;
  repeat (match goal with
          | |- context [(?x <=? ?y)%Z] => destruct (Z.leb_spec x y)
          | H : context [(?x <=? ?y)%Z] |- _ => destruct (Z.leb_spec x y)
          end; simpl in *);
  try reflexivity; try congruence; try lia; try (f_equal; lia).

Lemma fmax_nan_l (a : f64) : fmax NaN a = a.
Proof. destruct a; reflexivity. Qed.

Lemma fmax_nan_r (a : f64) : fmax a NaN = a.
Proof. destruct a; reflexivity. Qed.

Lemma fmax_comm (a b : f64) : fmax a b = fmax b a.
Proof. destruct a, b; f64_cases. Qed.

Lemma fmax_assoc (a b c : f64) : fmax a (fmax b c) = fmax (fmax a b) c.
Proof. destruct a, b, c; f64_cases. Qed.

Lemma fmax_choice (a b : f64) : fmax a b = a \/ fmax a b = b.
Proof. unfold fmax. destruct (f64_geb a b || isnan b); auto. Qed.

Lemma fmax_not_nan (a b : f64) : fmax a b = NaN -> a = NaN /\ b = NaN.
Proof. destruct a, b; f64_cases; split; congruence. Qed.

Lemma fmax_geb_l (a b : f64) : a <> NaN -> f64_geb (fmax a b) a = true.
Proof. intros H. destruct a, b; f64_cases. Qed.

Lemma fmax_geb_r (a b : f64) : b <> NaN -> f64_geb (fmax a b) b = true.
Proof. intros H. destruct a, b; f64_cases. Qed.

Lemma f64_geb_trans (a b c : f64) :
  f64_geb a b = true -> f64_geb b c = true -> f64_geb a c = true.
Proof. intros H1 H2. destruct a, b, c; f64_cases. Qed.

Lemma fmax_finite (x y : Z) : fmax (Finite x) (Finite y) = Finite (Z.max x y).
Proof. f64_cases. Qed.

Lemma not_nan_dec (v : f64) : {v <> NaN} + {~ v <> NaN}.
Proof. destruct v; [right; congruence | left | left | left]; discriminate. Qed.

Lemma all_nan_or_not (line : list f64) :
  Forall (fun v => v = NaN) line \/ Exists (fun v => v <> NaN) line.
Proof.
  induction line as [|x line [IH | IH]].
  - left. constructor.
  - destruct x; [left; now constructor | right | right | right];
      apply Exists_cons_hd; discriminate.
  - right. now apply Exists_cons_tl.
Qed.

(** The reduction of a line, with NaN as the value of the empty line. *)
Lemma fold_left_fmax (rest : list f64) (x : f64) :
  fold_left fmax rest x = fmax x (fold_right fmax NaN rest).
Proof.
  revert x. induction rest as [|y rest IH]; intros x; simpl.
  - now rewrite fmax_nan_r.
  - now rewrite IH, fmax_assoc.
Qed.

Lemma nanmax_list_fold (xs : list f64) :
  xs <> [] -> nanmax_list xs = Ok (fold_right fmax NaN xs).
Proof.
  destruct xs as [|x rest]; [congruence|]. intros _. simpl.
  now rewrite fold_left_fmax.
Qed.

Lemma fold_fmax_all_nan (line : list f64) :
  Forall (fun v => v = NaN) line -> fold_right fmax NaN line = NaN.
Proof.
  induction 1 as [|x line Hx _ IH]; simpl; [reflexivity|].
  now rewrite Hx, IH.
Qed.

Lemma fold_fmax_some (line : list f64) :
  Exists (fun v => v <> NaN) line ->
  let m := fold_right fmax NaN line in
  m <> NaN /\ In m line /\ Forall (fun v => v = NaN \/ f64_geb m v = true) line.
Proof.
  induction line as [|x line IH]; intros Hex; [inversion Hex|].
  cbn [fold_right]. set (m := fold_right fmax NaN line) in *.
  assert (Hf : fmax x m <> NaN).
  { intros Hf. apply fmax_not_nan in Hf. destruct Hf as [-> Hm].
    inversion Hex as [? ? Hx | ? ? Hl]; subst; [congruence|].
    destruct (IH Hl) as [Hm' _]. contradiction. }
  split; [exact Hf|].
  destruct (all_nan_or_not line) as [Hall | Hsome].
  - assert (Hm : m = NaN) by now apply fold_fmax_all_nan.
    rewrite Hm, fmax_nan_r in *. split; [now left|].
    constructor.
    + right. destruct x; [congruence | | |]; f64_cases.
    + eapply Forall_impl; [|exact Hall]. intros v ->. now left.
  - destruct (IH Hsome) as (Hm & Hin & Hge). split.
    + destruct (fmax_choice x m) as [-> | ->]; [now left | now right].
    + constructor.
      * destruct x; [now left | right | right | right];
          apply fmax_geb_l; discriminate.
      * rewrite Forall_forall in *. intros v Hv.
        destruct (Hge v Hv) as [-> | Hv']; [now left | right].
        apply f64_geb_trans with m; [now apply fmax_geb_r | exact Hv'].
Qed.

Lemma fold_fmax_is_nanmax (line : list f64) :
  is_nanmax (fold_right fmax NaN line) line.
Proof.
  split; [apply fold_fmax_all_nan | apply fold_fmax_some].
Qed.

Lemma fold_fmax_perm (l l' : list f64) :
  Permutation l l' -> fold_right fmax NaN l = fold_right fmax NaN l'.
Proof.
  induction 1 as [| x l l' _ IH | x y l | l l' l'' _ IH1 _ IH2]; simpl.
  - reflexivity.
  - now rewrite IH.
  - now rewrite !fmax_assoc, (fmax_comm y x).
  - now rewrite IH1.
Qed.

Lemma nanmax_list_perm (l l' : list f64) :
  Permutation l l' -> nanmax_list l = nanmax_list l'.
Proof.
  intros H. destruct l as [|x l].
  - apply Permutation_nil in H. now subst.
  - destruct l' as [|y l'].
    + apply Permutation_sym, Permutation_nil in H. discriminate.
    + rewrite !nanmax_list_fold by discriminate.
      f_equal. now apply fold_fmax_perm.
Qed.

Lemma mapM_ext_in {A B} (f g : A -> result B) (l : list A) :
  (forall x, In x l -> f x = g x) -> mapM f l = mapM g l.
Proof.
  induction l as [|x l IH]; intros H; simpl; [reflexivity|].
  rewrite (H x) by now left. rewrite IH; [reflexivity|].
  intros y Hy. apply H. now right.
Qed.

(** A block of a list made of blocks of one length. *)
Lemma slice_flat_map_seq {A} (f : nat -> list A) (len n p : nat) :
  (forall o, o < n -> length (f o) = len) -> p < n ->
  slice (p * len) len (flat_map f (seq 0 n)) = f p.
Proof.
  intros Hlen Hp. apply nth_error_ext. intros r.
  destruct (Nat.lt_ge_cases r len) as [Hr | Hr].
  - rewrite nth_error_slice by assumption.
    rewrite nth_error_flat_map_seq with (len := len); try assumption.
    + reflexivity.
    + intros o Ho. apply Hlen. lia.
  - assert (H1 : nth_error (f p) r = None).
    { apply nth_error_None. rewrite Hlen by assumption. exact Hr. }
    rewrite H1. apply nth_error_None. unfold slice.
    rewrite length_firstn. lia.
Qed.

Lemma slice_succ {A} (s n : nat) (d : list A) :
  slice s (S n) d = slice s n d ++ slice (s + n) 1 d.
Proof.
  unfold slice.
  replace (skipn (s + n) d) with (skipn n (skipn s d))
    by (rewrite skipn_skipn; f_equal; lia).
  generalize (skipn s d). intros l. revert l.
  induction n as [|n IH]; intros l.
  - destruct l; reflexivity.
  - destruct l as [|x l]; [reflexivity|].
    change (firstn (S (S n)) (x :: l)) with (x :: firstn (S n) l).
    rewrite IH. reflexivity.
Qed.

(** A run of a list is the concatenation of its runs of length one. *)
Lemma slice_units {A} (s n : nat) (d : list A) :
  slice s n d = flat_map (fun x => slice (s + x) 1 d) (seq 0 n).
Proof.
  induction n as [|n IH].
  - reflexivity.
  - rewrite slice_succ, IH, seq_S, flat_map_app. simpl.
    now rewrite app_nil_r.
Qed.

Lemma shape_split_last {A} (res : ndarray A) :
  shape res <> [] -> shape res = removelast (shape res) ++ [tile_axis res].
Proof. intros H. now apply app_removelast_last. Qed.

Lemma length_stack {A} (res : ndarray A) :
  wf res -> shape res <> [] -> length (data res) = pixels res * tile_axis res.
Proof.
  intros Hwf Hs. unfold wf in Hwf. rewrite Hwf.
  rewrite (@shape_split_last A res Hs) at 1.
  rewrite size_of_app, size_of_cons. change (size_of []) with 1.
  unfold pixels. lia.
Qed.

Lemma length_tile_values {A} (res : ndarray A) (p : nat) :
  wf res -> shape res <> [] -> p < pixels res ->
  length (tile_values res p) = tile_axis res.
Proof.
  intros Hwf Hs Hp. unfold tile_values. apply length_slice.
  rewrite length_stack by assumption. nia.
Qed.

Lemma da_nanmax_ok (res : ndarray f64) :
  wf res -> shape res <> [] -> 0 < tile_axis res ->
  da_nanmax nanmax_list res
  = Ok (mk_ndarray (removelast (shape res))
                   (map (fun p => fold_right fmax NaN (tile_values res p))
                        (seq 0 (pixels res)))).
Proof.
  intros Hwf Hs Hnz. unfold da_nanmax.
  destruct (shape res) as [|d0 sh] eqn:Hshape; [congruence|].
  rewrite <- Hshape.
  rewrite mapM_ok with (g := fun p => fold_right fmax NaN (tile_values res p)).
  - reflexivity.
  - intros p Hp. apply in_seq in Hp.
    apply nanmax_list_fold. change (tile_values res p <> []). intros Hnil.
    assert (Hlen : length (tile_values res p) = tile_axis res).
    { apply length_tile_values; try assumption; [congruence | unfold pixels; lia]. }
    rewrite Hnil in Hlen. simpl in Hlen. lia.
Qed.

Lemma fold_fmax_single_tile (d : list f64) (p : nat) :
  p < length d -> fold_right fmax NaN (slice (p * 1) 1 d) = nth p d NaN.
Proof.
  intros Hp. unfold slice. rewrite Nat.mul_1_r.
  destruct (skipn p d) as [|x l] eqn:Hsk.
  - assert (Hl : length (skipn p d) = 0) by now rewrite Hsk.
    rewrite length_skipn in Hl. lia.
  - simpl. rewrite fmax_nan_r.
    rewrite <- (firstn_skipn p d) at 1. rewrite Hsk.
    rewrite app_nth2; rewrite length_firstn; [|lia].
    replace (p - Nat.min p (length d)) with 0 by lia. reflexivity.
Qed.

Lemma map_nth_self {A} (d : list A) (def : A) :
  map (fun p => nth p d def) (seq 0 (length d)) = d.
Proof.
  apply nth_error_ext. intros n.
  rewrite nth_error_map, nth_error_seq.
  destruct (Nat.ltb_spec n (length d)) as [Hn | Hn]; simpl.
  - symmetry. now apply nth_error_nth'.
  - symmetry. now apply nth_error_None.
Qed.

(** C5. The output of the reducer at every destination pixel is the
    NaN-ignoring maximum of the values the tiles hold there: NaN when no
    tile contributes a value, otherwise the largest contributed value; the
    value of the only contributing tile when there is exactly one; the
    larger of two finite contributions (3.0 and 7.0 give 7.0); and over a
    single tile the output holds that tile's values unchanged. *)
Theorem overlap_reducer_nanmax (res : ndarray f64) :
  wf res -> shape res <> [] -> 0 < tile_axis res ->
  exists out,
    overlap_reduce res = Ok out /\
    shape out = filter (fun d => negb (Nat.eqb d 1)) (removelast (shape res)) /\
    length (data out) = pixels res /\
    (forall p, p < pixels res ->
       exists m,
         nth_error (data out) p = Some m /\
         is_nanmax m (tile_values res p) /\
         (forall t v,
             nth_error (tile_values res p) t = Some v -> v <> NaN ->
             (forall t' v', t' <> t ->
                            nth_error (tile_values res p) t' = Some v' -> v' = NaN) ->
             m = v) /\
         (forall x y, tile_values res p = [Finite x; Finite y] ->
                      m = Finite (Z.max x y))) /\
    (tile_axis res = 1 -> data out = data res).
Proof.
  intros Hwf Hs Hnz. unfold overlap_reduce.
  rewrite da_nanmax_ok by assumption. cbn [bind].
  eexists. split; [reflexivity|]. cbn [squeeze shape data].
  split; [reflexivity|].
  split; [now rewrite length_map, length_seq|].
  split.
  - intros p Hp. exists (fold_right fmax NaN (tile_values res p)).
    split.
    { rewrite nth_error_map, nth_error_seq.
      destruct (Nat.ltb_spec p (pixels res)); [reflexivity | lia]. }
    pose proof (fold_fmax_is_nanmax (tile_values res p)) as Hmax.
    split; [exact Hmax|]. split.
    + intros t v Ht Hv Hothers.
      destruct Hmax as [_ Hsome].
      destruct Hsome as (Hm & Hin & _).
      { apply Exists_exists. exists v. split; [|exact Hv].
        eapply nth_error_In; eauto. }
      apply In_nth_error in Hin. destruct Hin as [t' Ht'].
      destruct (Nat.eq_dec t' t) as [-> | Hne]; [congruence|].
      exfalso. apply Hm. eapply Hothers; eauto.
    + intros x y Hline. rewrite Hline. simpl.
      now rewrite fmax_nan_r, fmax_finite.
  - intros H1.
    pose proof (length_stack Hwf Hs) as Hlen. rewrite H1, Nat.mul_1_r in Hlen.
    rewrite <- Hlen.
    rewrite <- (map_nth_self (data res) NaN) at 2.
    apply map_ext_in. intros p Hp. apply in_seq in Hp.
    unfold tile_values. rewrite H1. apply fold_fmax_single_tile. lia.
Qed.

Lemma overlap_reducer_nanmax_witness :
  exists out,
    overlap_reduce
      (mk_ndarray [2; 2; 2]
                  [Finite 3; Finite 7; NaN; Finite 5; NaN; NaN; Finite 4; NaN])
    = Ok out /\
    data out = [Finite 7; Finite 5; NaN; Finite 4].
Proof.
  destruct (@overlap_reducer_nanmax
              (mk_ndarray [2; 2; 2]
                          [Finite 3; Finite 7; NaN; Finite 5; NaN; NaN; Finite 4; NaN]))
    as (out & Hrun & _).
  - reflexivity.
  - discriminate.
  - unfold tile_axis. simpl. lia.
  - exists out. split; [exact Hrun|].
    injection Hrun as <-. reflexivity.
Defined.

(** ** Order of the tiles *)

Lemma tile_values_permuted {A} (res : ndarray A) (sigma : list nat) (p : nat) :
  wf res -> shape res <> [] ->
  Permutation sigma (seq 0 (tile_axis res)) -> p < pixels res ->
  Permutation (tile_values (permute_tiles sigma res) p) (tile_values res p).
Proof.
  intros Hwf Hs Hperm Hp.
  pose proof (length_stack Hwf Hs) as Hlen.
  assert (Hsig : length sigma = tile_axis res).
  { rewrite (Permutation_length Hperm). apply length_seq. }
  assert (Hin : forall x, In x sigma -> x < tile_axis res).
  { intros x Hx. apply (Permutation_in _ Hperm) in Hx. apply in_seq in Hx. lia. }
  change (tile_values (permute_tiles sigma res) p)
    with (slice (p * tile_axis res) (tile_axis res)
                (pick_data (pixels res) (tile_axis res) 1 sigma (data res))).
  unfold pick_data.
  rewrite slice_flat_map_seq; [| | exact Hp].
  - unfold tile_values. rewrite slice_units.
    rewrite (flat_map_ext (fun x => slice ((p * tile_axis res + x) * 1) 1 (data res))
                          (fun x => slice (p * tile_axis res + x) 1 (data res)))
      by (intros x; now rewrite Nat.mul_1_r).
    now apply Permutation_flat_map.
  - intros o Ho. transitivity (length sigma * 1); [|lia].
    apply flat_map_constant_length. intros x Hx.
    apply length_slice. apply Hin in Hx. rewrite Hlen. nia.
Qed.

(** C10. The final reduction does not depend on the order of the tiles:
    rearranging the slices of a stack of per-tile results along the tile
    axis by any permutation leaves the reduced array unchanged. *)
Theorem reduction_permutation_invariant (res : ndarray f64) (sigma : list nat) :
  wf res -> shape res <> [] ->
  Permutation sigma (seq 0 (tile_axis res)) ->
  overlap_reduce (permute_tiles sigma res) = overlap_reduce res.
Proof.
  intros Hwf Hs Hperm. unfold overlap_reduce. f_equal.
  unfold da_nanmax. cbn [shape permute_tiles].
  destruct (shape res) as [|d0 sh] eqn:Hshape; [congruence|].
  rewrite <- Hshape. f_equal.
  apply mapM_ext_in. intros p Hp. apply in_seq in Hp.
  apply nanmax_list_perm.
  change (Permutation (tile_values (permute_tiles sigma res) p) (tile_values res p)).
  apply tile_values_permuted; try assumption.
  - congruence.
  - unfold pixels. lia.
Qed.

Lemma reduction_permutation_invariant_witness :
  overlap_reduce
    (permute_tiles [2; 0; 1]
       (mk_ndarray [2; 3] [Finite 3; NaN; Finite 7; NaN; NaN; Finite 1]))
  = overlap_reduce (mk_ndarray [2; 3] [Finite 3; NaN; Finite 7; NaN; NaN; Finite 1]).
Proof.
  apply reduction_permutation_invariant.
  - reflexivity.
  - discriminate.
  - unfold tile_axis. simpl.
    eapply perm_trans; [apply perm_swap | apply perm_skip, perm_swap].
Defined.

(** ** TileCuller *)

Lemma firstn_add {A} (n m : nat) (l : list A) :
  firstn (n + m) l = firstn n l ++ firstn m (skipn n l).
Proof.
  revert l. induction n as [|n IH]; intros l; simpl.
  - reflexivity.
  - destruct l as [|x l]; simpl.
    + now rewrite firstn_nil.
    + now rewrite IH.
Qed.

Lemma flat_map_blocks {A} (d : list A) (len n : nat) :
  flat_map (fun o => slice (o * len) len d) (seq 0 n) = firstn (n * len) d.
Proof.
  induction n as [|n IH].
  - reflexivity.
  - rewrite seq_S, flat_map_app, IH. simpl. rewrite app_nil_r.
    unfold slice. rewrite (Nat.add_comm len (n * len)). symmetry. apply firstn_add.
Qed.

Lemma pick_all {A} (d : list A) (outer dim : nat) :
  length d = outer * dim ->
  pick_data outer dim 1 (seq 0 dim) d = d.
Proof.
  intros Hlen. unfold pick_data.
  rewrite flat_map_ext with (g := fun o => slice (o * dim) dim d).
  - rewrite flat_map_blocks, <- Hlen. apply firstn_all.
  - intros o. rewrite slice_units. apply flat_map_ext. intros x.
    now rewrite Nat.mul_1_r.
Qed.

Lemma select_all {A} (arr : ndarray A) :
  wf arr -> shape arr <> [] -> select_tiles (seq 0 (tile_axis arr)) arr = arr.
Proof.
  intros Hwf Hs. unfold select_tiles.
  rewrite length_seq, <- (@shape_split_last A arr Hs).
  rewrite pick_all by now apply length_stack.
  now destruct arr.
Qed.

Lemma nonzero_from_spec (mask : list bool) (i : nat) :
  nonzero_from i mask
  = map (Nat.add i) (filter (fun t => nth t mask false) (seq 0 (length mask))).
Proof.
  revert i. induction mask as [|b mask IH]; intros i.
  - reflexivity.
  - cbn [nonzero_from length]. rewrite <- cons_seq, <- seq_shift.
    cbn [filter nth]. rewrite IH.
    assert (Hshift :
              map (Nat.add (S i)) (filter (fun t => nth t mask false) (seq 0 (length mask)))
              = map (Nat.add i)
                    (filter (fun t => nth t (b :: mask) false)
                            (map S (seq 0 (length mask))))).
    { generalize (seq 0 (length mask)). intros l.
      induction l as [|t l IHl]; [reflexivity|].
      cbn [map filter nth]. destruct (nth t mask false); cbn [map].
      - rewrite IHl. f_equal. lia.
      - exact IHl. }
    rewrite Hshift. destruct b; cbn [map]; [|reflexivity].
    f_equal. lia.
Qed.

(** The kept positions are the positions holding [True], in increasing
    order. *)
Lemma nonzero_spec (mask : list bool) :
  nonzero mask = filter (fun t => nth t mask false) (seq 0 (length mask)).
Proof.
  unfold nonzero. rewrite nonzero_from_spec.
  rewrite map_ext with (g := fun t => t) by reflexivity. apply map_id.
Qed.


Lemma nonzero_all_true (n : nat) : nonzero (repeat true n) = seq 0 n.
Proof.
  rewrite nonzero_spec, repeat_length.
  rewrite forallb_filter_id; [reflexivity|].
  apply forallb_forall. intros t Ht. apply in_seq in Ht.
  rewrite nth_repeat_lt; [reflexivity | lia].
Qed.

Lemma py_index_last {A} (l : list A) (d : A) :
  l <> [] -> py_index l (-1) = Ok (last l d).
Proof.
  intros Hl. rewrite (app_removelast_last d Hl) at 1.
  apply py_index_denotes. rewrite length_app. cbn [length].
  split; [lia | right; lia].
Qed.

Lemma py_index_In {A} (l : list A) (i : Z) (x : A) :
  py_index l i = Ok x -> In x l.
Proof.
  unfold py_index. destruct (norm_index (length l) i) as [k|]; [|discriminate].
  destruct (nth_error l k) as [y|] eqn:Hk; [|discriminate].
  intros H. inversion H; subst. eapply nth_error_In; eauto.
Qed.

Lemma py_index_nonempty {A} (l : list A) (i : Z) (x : A) :
  py_index l i = Ok x -> l <> [].
Proof. intros H Hl. apply py_index_In in H. subst. contradiction. Qed.

Lemma np_split_length {A} (a : ndarray A) (n : nat) (axis : Z) (l : list (ndarray A)) :
  np_split a n axis = Ok l -> length l = n.
Proof.
  unfold np_split. destruct (norm_index (ndim a) axis); [|discriminate].
  destruct (Nat.eqb n 0); [discriminate|].
  destruct (Nat.eqb _ 0); [|discriminate].
  intros H. inversion H. now rewrite length_map, length_seq.
Qed.

Lemma denotes_last {A} (arr : ndarray A) :
  shape arr <> [] ->
  denotes_axis (ndim arr) (-1) (length (removelast (shape arr))).
Proof.
  intros Hs. unfold ndim. rewrite (@shape_split_last A arr Hs) at 1.
  rewrite length_app. cbn [length]. split; [lia | right; lia].
Qed.

Lemma np_take_mask_ok {A} (arr : ndarray A) (covers : list bool) :
  shape arr <> [] -> length covers = tile_axis arr ->
  np_take_mask arr covers (-1) = Ok (select_tiles (nonzero covers) arr).
Proof.
  intros Hs Hlen. unfold np_take_mask, norm_axis.
  rewrite (norm_index_denotes (@denotes_last A arr Hs)). cbn [bind].
  pose proof (@shape_split_last A arr Hs) as Hsh.
  set (pre := removelast (shape arr)) in *.
  rewrite Hsh, nth_app_exact, firstn_app_exact, skipn_S_app_exact.
  rewrite Hlen, Nat.eqb_refl. reflexivity.
Qed.

(** Tile [k] of the selection is tile [nth k idx] of the array. *)
Lemma get_select_tiles {A} (arr : ndarray A) (idx I : list nat) (k : nat) :
  wf arr -> shape arr <> [] ->
  (forall x, In x idx -> x < tile_axis arr) ->
  k < length idx -> length I = length (removelast (shape arr)) ->
  get (select_tiles idx arr) (I ++ [k]) = get arr (I ++ [nth k idx 0]).
Proof.
  intros Hwf Hs Hidx Hk HI.
  pose proof (length_stack Hwf Hs) as Hlen.
  assert (Hx : nth k idx 0 < tile_axis arr) by (apply Hidx, nth_In, Hk).
  unfold get at 2. rewrite (@shape_split_last A arr Hs).
  unfold get, select_tiles. cbn [shape data].
  set (pre := removelast (shape arr)) in *.
  rewrite !in_bounds_app by assumption. cbn [in_bounds].
  destruct (Nat.ltb_spec k (length idx)); [|lia].
  destruct (Nat.ltb_spec (nth k idx 0) (tile_axis arr)); [|lia].
  destruct (in_bounds pre I) eqn:HbI; [|reflexivity]. cbn [andb].
  rewrite !ravel_app by assumption. cbn [ravel].
  rewrite !size_of_cons. change (size_of []) with 1.
  apply ravel_lt in HbI.
  assert (HP : pixels arr = size_of pre) by reflexivity.
  unfold pick_data.
  replace (ravel pre I * (length idx * 1) + (k * 1 + 0))
    with (ravel pre I * (length idx * 1) + k) by lia.
  rewrite nth_error_flat_map_seq with (len := length idx * 1); try lia.
  - cbn [Nat.add].
    replace k with (k * 1 + 0) at 1 by lia.
    rewrite nth_error_flat_map_const with (len := 1) (x := nth k idx 0); try lia.
    + rewrite nth_error_slice by lia. f_equal. lia.
    + intros y Hy. apply length_slice. apply Hidx in Hy.
      apply block_fits with (outer := pixels arr); [rewrite Hlen; lia | exact Hy | lia].
    + now apply nth_error_nth'.
  - intros o Ho. apply flat_map_constant_length. intros y Hy.
    apply length_slice. apply Hidx in Hy.
    apply block_fits with (outer := pixels arr); [rewrite Hlen; lia | exact Hy | lia].
Qed.

Lemma source_polygons_length (arrays : list (ndarray f64)) (nz : nat)
      (sps : list polygon) :
  stacked_set nz arrays -> source_polygons arrays = Ok sps -> length sps = nz.
Proof.
  intros Hset. unfold source_polygons.
  destruct (py_index arrays 0) as [a0|] eqn:H0; cbn [bind]; [|discriminate].
  destruct (Hset a0 (py_index_In _ _ H0)) as (_ & Hs0 & Hnz0).
  rewrite (py_index_last 0 Hs0). cbn [bind]. fold (tile_axis a0). rewrite Hnz0.
  destruct (py_index arrays 1) as [a1|]; cbn [bind]; [|discriminate].
  destruct (py_index arrays 2) as [a2|]; cbn [bind]; [|discriminate].
  destruct (np_split a1 nz (-1)) as [xs|] eqn:Hx; cbn [bind]; [|discriminate].
  destruct (np_split a2 nz (-1)) as [ys|] eqn:Hy; cbn [bind]; [|discriminate].
  intros H. apply mapM_length in H.
  rewrite H, length_combine, (np_split_length _ _ _ Hx), (np_split_length _ _ _ Hy).
  lia.
Qed.

Lemma remove_extra_chunks_factor
      (area : polygon -> f64) (intersects : polygon -> polygon -> result bool)
      (arrays : list (ndarray f64)) (dst_x dst_y : ndarray f64) :
  remove_extra_chunks area intersects arrays dst_x dst_y
  = (dst_polygon <- get_polygon dst_x dst_y ;;
     src_polys <- source_polygons arrays ;;
     covers <- mapM (tile_covers area intersects dst_polygon) src_polys ;;
     mapM (fun arr => np_take_mask arr covers (-1)) arrays).
Proof.
  unfold remove_extra_chunks, source_polygons.
  destruct (get_polygon dst_x dst_y); cbn [bind]; [|reflexivity].
  destruct (py_index arrays 0) as [b0|]; cbn [bind]; [|reflexivity].
  destruct (py_index (shape b0) (-1)); cbn [bind]; [|reflexivity].
  destruct (py_index arrays 1) as [b1|]; cbn [bind]; [|reflexivity].
  destruct (py_index arrays 2) as [b2|]; cbn [bind]; [|reflexivity].
  destruct (np_split b1 _ (-1)); cbn [bind]; [|reflexivity].
  destruct (np_split b2 _ (-1)); cbn [bind]; reflexivity.
Qed.

Lemma tile_covers_keeps
      (area : polygon -> f64) (intersects : polygon -> polygon -> result bool)
      (dp sp : polygon) :
  (f64_eqb (area dp) (Finite 0) = true \/
   forall e, intersects dp sp = Raise e -> e = TopologicalError) ->
  tile_covers area intersects dp sp = Ok (keeps area intersects dp sp).
Proof.
  intros H. unfold tile_covers, keeps.
  destruct (f64_eqb (area dp) (Finite 0)) eqn:Harea; [reflexivity|].
  destruct H as [H | H]; [discriminate|].
  destruct (intersects dp sp) as [b|e]; [reflexivity|].
  now rewrite (H e eq_refl).
Qed.

(** The culling, once the polygons are built and no test fails with
    anything but a topological error. *)
Lemma remove_extra_chunks_ok
      (area : polygon -> f64) (intersects : polygon -> polygon -> result bool)
      (arrays : list (ndarray f64)) (dst_x dst_y : ndarray f64)
      (nz : nat) (dp : polygon) (sps : list polygon) :
  stacked_set nz arrays ->
  get_polygon dst_x dst_y = Ok dp ->
  source_polygons arrays = Ok sps ->
  (f64_eqb (area dp) (Finite 0) = true \/
   Forall (fun sp => forall e, intersects dp sp = Raise e -> e = TopologicalError) sps) ->
  remove_extra_chunks area intersects arrays dst_x dst_y
  = Ok (map (select_tiles (nonzero (map (keeps area intersects dp) sps))) arrays).
Proof.
  intros Hset Hdp Hsps Hsafe.
  rewrite remove_extra_chunks_factor, Hdp. cbn [bind]. rewrite Hsps. cbn [bind].
  rewrite mapM_ok with (g := keeps area intersects dp).
  - cbn [bind]. apply mapM_ok. intros arr Harr.
    destruct (Hset arr Harr) as (_ & Hs & Hnz).
    apply np_take_mask_ok; [exact Hs|].
    rewrite length_map, Hnz. now apply source_polygons_length with (arrays := arrays).
  - intros sp Hsp. apply tile_covers_keeps.
    destruct Hsafe as [Hz | Hall]; [now left | right].
    rewrite Forall_forall in Hall. now apply Hall.
Qed.

Example stacked44_value :
  firstn 3 Demo.stacked44
  = [mk_ndarray [1; 2; 2; 4]
       [Finite 100; Finite 108; Finite 102; Finite 110;
        Finite 101; Finite 109; Finite 103; Finite 111;
        Finite 104; Finite 112; Finite 106; Finite 114;
        Finite 105; Finite 113; Finite 107; Finite 115];
     mk_ndarray [2; 2; 4]
       [Finite 0; Finite 0; Finite 2; Finite 2; Finite 1; Finite 1; Finite 3; Finite 3;
        Finite 0; Finite 0; Finite 2; Finite 2; Finite 1; Finite 1; Finite 3; Finite 3];
     mk_ndarray [2; 2; 4]
       [Finite 0; Finite 2; Finite 0; Finite 2; Finite 0; Finite 2; Finite 0; Finite 2;
        Finite 1; Finite 3; Finite 1; Finite 3; Finite 1; Finite 3; Finite 1; Finite 3]].
Proof. reflexivity. Qed.

Example source_polygons44 :
  source_polygons Demo.stacked44
  = Ok [Demo.quad 0 0; Demo.quad 0 2; Demo.quad 2 0; Demo.quad 2 2].
Proof. reflexivity. Qed.

Lemma stacked_set44 : stacked_set 4 Demo.stacked44.
Proof.
  intros arr Harr. simpl in Harr.
  repeat (destruct Harr as [<- | Harr];
          [split; [reflexivity | split; [discriminate | reflexivity]]|]).
  contradiction.
Qed.

Lemma nonzero_keeps (area : polygon -> f64)
      (intersects : polygon -> polygon -> result bool)
      (dp : polygon) (sps : list polygon) :
  nonzero (map (keeps area intersects dp) sps) = kept_tiles area intersects dp sps.
Proof.
  rewrite nonzero_spec, length_map. unfold kept_tiles.
  apply filter_ext_in. intros t Ht. apply in_seq in Ht.
  destruct (nth_error sps t) as [sp|] eqn:Hsp.
  - apply nth_error_nth. now rewrite nth_error_map, Hsp.
  - apply nth_error_None in Hsp. lia.
Qed.

Lemma kept_tiles_In (area : polygon -> f64)
      (intersects : polygon -> polygon -> result bool)
      (dp : polygon) (sps : list polygon) (t : nat) :
  In t (kept_tiles area intersects dp sps)
  <-> exists sp, nth_error sps t = Some sp /\ keeps area intersects dp sp = true.
Proof.
  unfold kept_tiles. rewrite filter_In, in_seq. split.
  - intros [_ H]. destruct (nth_error sps t) as [sp|]; [|discriminate].
    now exists sp.
  - intros (sp & Hsp & Hk). rewrite Hsp. split; [|exact Hk].
    assert (t < length sps) by (apply nth_error_Some; congruence). lia.
Qed.

Lemma kept_tiles_answers (area : polygon -> f64)
      (intersects : polygon -> polygon -> result bool)
      (dp : polygon) (sps : list polygon) (bs : list bool) :
  f64_eqb (area dp) (Finite 0) = false ->
  Forall2 (fun sp b => intersects dp sp = Ok b) sps bs ->
  kept_tiles area intersects dp sps
  = filter (fun t => nth t bs false) (seq 0 (length sps)).
Proof.
  intros Harea Hbs. unfold kept_tiles.
  apply filter_ext_in. intros t Ht. apply in_seq in Ht.
  revert t Ht. induction Hbs as [|sp b sps bs Hsp _ IH]; intros t Ht.
  - simpl in Ht. lia.
  - destruct t as [|t]; cbn [nth_error nth].
    + unfold keeps. now rewrite Harea, Hsp.
    + apply IH. simpl in Ht. lia.
Qed.

Lemma kept_tiles_zero_area (area : polygon -> f64)
      (intersects : polygon -> polygon -> result bool)
      (dp : polygon) (sps : list polygon) :
  f64_eqb (area dp) (Finite 0) = true ->
  kept_tiles area intersects dp sps = seq 0 (length sps).
Proof.
  intros Harea. unfold kept_tiles. apply forallb_filter_id.
  apply forallb_forall. intros t Ht. apply in_seq in Ht.
  destruct (nth_error sps t) as [sp|] eqn:Hsp.
  - unfold keeps. now rewrite Harea.
  - apply nth_error_None in Hsp. lia.
Qed.

Lemma select_tiles_spec {A} (arr : ndarray A) (idx : list nat) :
  wf arr -> shape arr <> [] ->
  (forall x, In x idx -> x < tile_axis arr) ->
  tile_axis (select_tiles idx arr) = length idx /\
  forall k I, k < length idx -> length I = length (removelast (shape arr)) ->
    get (select_tiles idx arr) (I ++ [k]) = get arr (I ++ [nth k idx 0]).
Proof.
  intros Hwf Hs Hidx. split.
  - unfold tile_axis, select_tiles. cbn [shape]. apply last_last.
  - intros k I Hk HI. now apply get_select_tiles.
Qed.

(** The culling as a whole: every array is cut down to the kept tiles, the
    same in every array, and tile [k] of a result is tile [nth k kept] of
    the array it comes from. *)
Lemma culling_spec (area : polygon -> f64)
      (intersects : polygon -> polygon -> result bool)
      (arrays : list (ndarray f64)) (dst_x dst_y : ndarray f64)
      (nz : nat) (dp : polygon) (sps : list polygon) :
  stacked_set nz arrays ->
  get_polygon dst_x dst_y = Ok dp ->
  source_polygons arrays = Ok sps ->
  (f64_eqb (area dp) (Finite 0) = true \/
   Forall (decided_or_topological intersects dp) sps) ->
  let kept := kept_tiles area intersects dp sps in
  remove_extra_chunks area intersects arrays dst_x dst_y
  = Ok (map (select_tiles kept) arrays) /\
  forall arr, In arr arrays ->
    tile_axis (select_tiles kept arr) = length kept /\
    forall k I, k < length kept -> length I = length (removelast (shape arr)) ->
      get (select_tiles kept arr) (I ++ [k]) = get arr (I ++ [nth k kept 0]).
Proof.
  intros Hset Hdp Hsps Hsafe kept.
  pose proof (source_polygons_length Hset Hsps) as Hlen.
  split.
  - unfold kept. rewrite <- nonzero_keeps.
    now apply remove_extra_chunks_ok with (nz := nz).
  - intros arr Harr. destruct (Hset arr Harr) as (Hwf & Hs & Hnz).
    apply select_tiles_spec; try assumption.
    intros x Hx. unfold kept, kept_tiles in Hx. apply filter_In in Hx.
    destruct Hx as [Hx _]. apply in_seq in Hx. lia.
Qed.

(** C1. Culling against a destination footprint of non-zero area, every
    intersection test answering or failing with a topological error: every
    array of the stacked input set (data, coordinates, gradients) is cut
    down to the same tiles, in their original order; a tile whose footprint
    does not intersect the destination footprint is dropped, a tile whose
    footprint intersects it survives, and when no test fails the survivors
    are exactly the intersecting tiles.  In particular, on the 4 by 4 grid
    in 2 by 2 chunks with the destination on the top left quadrant, where
    the test holds for the top left tile only, every array is left with the
    top left tile alone. *)
Theorem culling_keeps_intersecting_tiles
        (area : polygon -> f64) (intersects : polygon -> polygon -> result bool) :
  (forall (arrays : list (ndarray f64)) (dst_x dst_y : ndarray f64) (nz : nat)
          (dp : polygon) (sps : list polygon),
      stacked_set nz arrays ->
      get_polygon dst_x dst_y = Ok dp ->
      f64_eqb (area dp) (Finite 0) = false ->
      source_polygons arrays = Ok sps ->
      Forall (decided_or_topological intersects dp) sps ->
      let kept := kept_tiles area intersects dp sps in
      remove_extra_chunks area intersects arrays dst_x dst_y
      = Ok (map (select_tiles kept) arrays) /\
      (forall arr, In arr arrays ->
         tile_axis (select_tiles kept arr) = length kept /\
         forall k I, k < length kept -> length I = length (removelast (shape arr)) ->
           get (select_tiles kept arr) (I ++ [k]) = get arr (I ++ [nth k kept 0])) /\
      (forall t sp, nth_error sps t = Some sp ->
                    intersects dp sp = Ok false -> ~ In t kept) /\
      (forall t sp, nth_error sps t = Some sp ->
                    intersects dp sp = Ok true -> In t kept) /\
      (forall bs, Forall2 (fun sp b => intersects dp sp = Ok b) sps bs ->
                  kept = filter (fun t => nth t bs false) (seq 0 nz))) /\
  (f64_eqb (area (Demo.quad 0 0)) (Finite 0) = false ->
   intersects (Demo.quad 0 0) (Demo.quad 0 0) = Ok true ->
   intersects (Demo.quad 0 0) (Demo.quad 0 2) = Ok false ->
   intersects (Demo.quad 0 0) (Demo.quad 2 0) = Ok false ->
   intersects (Demo.quad 0 0) (Demo.quad 2 2) = Ok false ->
   remove_extra_chunks area intersects Demo.stacked44 Demo.dst_x22 Demo.dst_y22
   = Ok Demo.top_left44).
Proof.
  split.
  - intros arrays dst_x dst_y nz dp sps Hset Hdp Harea Hsps Hsafe kept.
    destruct (@culling_spec area intersects arrays dst_x dst_y nz dp sps
                            Hset Hdp Hsps (or_intror Hsafe)) as [Hrun Hget].
    split; [exact Hrun|]. split; [exact Hget|]. split; [|split].
    + intros t sp Ht Hno Hin. apply kept_tiles_In in Hin.
      destruct Hin as (sp' & Ht' & Hk). rewrite Ht in Ht'. inversion Ht'; subst sp'.
      unfold keeps in Hk. rewrite Harea, Hno in Hk. discriminate.
    + intros t sp Ht Hyes. apply kept_tiles_In. exists sp. split; [exact Ht|].
      unfold keeps. now rewrite Harea, Hyes.
    + intros bs Hbs. unfold kept.
      rewrite (@kept_tiles_answers area intersects dp sps bs Harea Hbs).
      now rewrite (source_polygons_length Hset Hsps).
  - intros Harea H00 H02 H20 H22.
    rewrite remove_extra_chunks_ok
      with (nz := 4) (dp := Demo.quad 0 0)
           (sps := [Demo.quad 0 0; Demo.quad 0 2; Demo.quad 2 0; Demo.quad 2 2]).
    + cbn [map]. unfold keeps. rewrite Harea, H00, H02, H20, H22. reflexivity.
    + exact stacked_set44.
    + reflexivity.
    + reflexivity.
    + right. repeat constructor; intros e He; congruence.
Qed.

Lemma culling_keeps_intersecting_tiles_witness :
  remove_extra_chunks Demo.area Demo.intersects Demo.stacked44 Demo.dst_x22 Demo.dst_y22
  = Ok (map (select_tiles [0]) Demo.stacked44) /\
  remove_extra_chunks Demo.area Demo.intersects Demo.stacked44 Demo.dst_x22 Demo.dst_y22
  = Ok Demo.top_left44.
Proof.
  split.
  - apply (proj1 (culling_keeps_intersecting_tiles Demo.area Demo.intersects)
                 Demo.stacked44 Demo.dst_x22 Demo.dst_y22 4 (Demo.quad 0 0)
                 [Demo.quad 0 0; Demo.quad 0 2; Demo.quad 2 0; Demo.quad 2 2]).
    + exact stacked_set44.
    + reflexivity.
    + reflexivity.
    + reflexivity.
    + repeat constructor; intros e He; discriminate He.
  - apply (proj2 (culling_keeps_intersecting_tiles Demo.area Demo.intersects));
      reflexivity.
Defined.

Lemma keeps_on_topological_error (area : polygon -> f64)
      (intersects : polygon -> polygon -> result bool) (dp sp : polygon) :
  intersects dp sp = Raise TopologicalError -> keeps area intersects dp sp = true.
Proof.
  intros H. unfold keeps. rewrite H. now destruct (f64_eqb (area dp) (Finite 0)).
Qed.

(** A source set whose upper right tile has a corner in space, so that the
    fragile test cannot decide about it: the tile is kept. *)
Example culling_keeps_undecided_tile :
  let spoil (a : ndarray f64) :=
      mk_ndarray (shape a) (firstn 6 (data a) ++ PosInf :: skipn 7 (data a)) in
  let arrays := match Demo.stacked44 with
                | d :: x :: rest => d :: spoil x :: rest
                | l => l
                end in
  source_polygons arrays
  = Ok [Demo.quad 0 0; Demo.quad 0 2;
        mk_polygon [(Finite 2, Finite 0); (Finite 3, Finite 1); (Finite 2, Finite 1)];
        Demo.quad 2 2] /\
  remove_extra_chunks Demo.area Demo.fragile_intersects arrays Demo.dst_x22 Demo.dst_y22
  = Ok (map (select_tiles [0; 2]) arrays).
Proof. split; reflexivity. Qed.

(** ** Degenerate footprints *)

Lemma get_polygon_boundary (x_coords y_coords : ndarray f64) (boundary : list point) :
  get_boundary x_coords y_coords = Ok boundary ->
  get_polygon x_coords y_coords = Polygon boundary.
Proof. intros H. unfold get_polygon. now rewrite H. Qed.

(** With no finite corner the footprint is the empty polygon. *)
Lemma get_polygon_no_corner (x_coords y_coords : ndarray f64) :
  get_boundary x_coords y_coords = Ok [] ->
  get_polygon x_coords y_coords = Ok (mk_polygon []).
Proof. intros H. now rewrite (get_polygon_boundary _ _ H). Qed.

(** C4 (what the code does). A grid with one or two finite corners has no
    footprint polygon: building it raises [ValueError], and the culling of
    any input set against such a destination raises it too, before a single
    tile is looked at. *)
Theorem footprint_of_two_corners_raises
        (x_coords y_coords : ndarray f64) (boundary : list point) :
  get_boundary x_coords y_coords = Ok boundary ->
  0 < length boundary < 3 ->
  get_polygon x_coords y_coords = Raise ValueError /\
  forall area intersects arrays,
    remove_extra_chunks area intersects arrays x_coords y_coords = Raise ValueError.
Proof.
  intros Hb Hlen.
  assert (Hp : get_polygon x_coords y_coords = Raise ValueError).
  { rewrite (get_polygon_boundary _ _ Hb). unfold Polygon.
    destruct (length boundary) as [|[|[|n]]]; try lia; reflexivity. }
  split; [exact Hp|].
  intros area intersects arrays. unfold remove_extra_chunks. now rewrite Hp.
Qed.

Lemma footprint_of_two_corners_raises_witness :
  get_boundary Demo.dst_x_two Demo.dst_y_two = Ok [(Finite 0, Finite 0); (Finite 1, Finite 1)] /\
  get_polygon Demo.dst_x_two Demo.dst_y_two = Raise ValueError /\
  remove_extra_chunks Demo.area Demo.intersects Demo.stacked44 Demo.dst_x_two Demo.dst_y_two
  = Raise ValueError.
Proof.
  split; [reflexivity|].
  destruct (@footprint_of_two_corners_raises
              Demo.dst_x_two Demo.dst_y_two [(Finite 0, Finite 0); (Finite 1, Finite 1)])
    as [Hp Hr].
  - reflexivity.
  - simpl. lia.
  - split; [exact Hp | apply Hr].
Defined.

(** ** The pipeline *)

Section PipelineFacts.
Variable area : polygon -> f64.
Variable intersects : polygon -> polygon -> result bool.
Variable one_step_gradient_search :
  ndarray f64 -> ndarray f64 -> ndarray f64 ->
  ndarray f64 -> ndarray f64 -> ndarray f64 -> ndarray f64 ->
  ndarray f64 -> ndarray f64 -> string -> result (ndarray f64).
Variable np_gradient : ndarray f64 -> result (ndarray f64 * ndarray f64).

Lemma bindT_enter_head {A B} (s : stage) (c : result A) (k : A -> traced B) :
  exists rest outcome, bindT (enter s c) k = (s :: rest, outcome).
Proof.
  unfold bindT, enter. destruct c as [a|e].
  - destruct (k a) as [t r]. now exists t, r.
  - now exists [], (Raise e).
Qed.

(** C6. Data whose rank is neither 2 nor 3 is rejected with the
    [NotImplementedError] of the rank check and nothing else has happened:
    no stage of the tiling work has been entered and there is no output.
    Data of rank 2 or 3 passes the check: the run goes on to its first
    stage, the gradient computation. *)
Theorem rank_is_checked_first
        (data src_x src_y : dask_array f64) (dst_x dst_y : ndarray f64)
        (kwargs_method : option string) :
  (ndim (values data) <> 2 /\ ndim (values data) <> 3 ->
   parallel_gradient_search area intersects one_step_gradient_search np_gradient
                            data src_x src_y dst_x dst_y kwargs_method
   = ([], Raise (NotImplementedError rank_message))) /\
  (ndim (values data) = 2 \/ ndim (values data) = 3 ->
   exists rest outcome,
     parallel_gradient_search area intersects one_step_gradient_search np_gradient
                              data src_x src_y dst_x dst_y kwargs_method
     = (GradientStage :: rest, outcome)).
Proof.
  unfold parallel_gradient_search. split.
  - intros [H2 H3]. cbn [existsb].
    destruct (Nat.eqb_spec (ndim (values data)) 2); [contradiction|].
    destruct (Nat.eqb_spec (ndim (values data)) 3); [contradiction|].
    reflexivity.
  - intros H.
    assert (Hin : existsb (Nat.eqb (ndim (values data))) [2; 3] = true).
    { cbn [existsb]. destruct H as [-> | ->]; reflexivity. }
    rewrite Hin. cbn [negb]. apply bindT_enter_head.
Qed.

End PipelineFacts.

Lemma rank_is_checked_first_witness :
  Demo.run (mk_dask (mk_ndarray [16] (data (values Demo.data44))) [[16]])
           Demo.src_x44 Demo.src_y44 Demo.dst_x22 Demo.dst_y22 None
  = ([], Raise (NotImplementedError rank_message)) /\
  exists rest outcome,
    Demo.run Demo.data44 Demo.src_x44 Demo.src_y44 Demo.dst_x22 Demo.dst_y22 None
    = (GradientStage :: rest, outcome).
Proof.
  split.
  - apply (proj1 (rank_is_checked_first
                    Demo.area Demo.intersects Demo.kernel Demo.gradient
                    (mk_dask (mk_ndarray [16] (data (values Demo.data44))) [[16]])
                    Demo.src_x44 Demo.src_y44 Demo.dst_x22 Demo.dst_y22 None)).
    split; discriminate.
  - apply (proj2 (rank_is_checked_first
                    Demo.area Demo.intersects Demo.kernel Demo.gradient
                    Demo.data44
                    Demo.src_x44 Demo.src_y44 Demo.dst_x22 Demo.dst_y22 None)).
    left. reflexivity.
Defined.

(** ** Shape of the result *)

Lemma blockwise_resample_shape
      (kernel : ndarray f64 -> ndarray f64 -> ndarray f64 ->
                ndarray f64 -> ndarray f64 -> ndarray f64 -> ndarray f64 ->
                ndarray f64 -> ndarray f64 -> string -> result (ndarray f64))
      (data sx sy gxl gxp gyl gyp dst_x dst_y res : ndarray f64) (method : string) :
  blockwise_resample kernel data sx sy gxl gxp gyl gyp dst_x dst_y method = Ok res ->
  shape res = (nth 0 (shape data) 0 :: shape dst_x) ++ [tile_axis data].
Proof.
  unfold blockwise_resample.
  destruct (forallb _ [sx; sy; gxl; gxp; gyl; gyp]); [|discriminate].
  destruct (mapM _ _) as [images|]; cbn [bind]; [|discriminate].
  destruct (forallb _ images); [|discriminate].
  intros H. inversion H. reflexivity.
Qed.

Lemma overlap_reduce_shape (res out : ndarray f64) :
  overlap_reduce res = Ok out ->
  shape out = filter (fun d => negb (Nat.eqb d 1)) (removelast (shape res)).
Proof.
  unfold overlap_reduce, da_nanmax.
  destruct (shape res) as [|d0 sh] eqn:Hs; [discriminate|].
  destruct (mapM _ _) as [vals|]; cbn [bind]; [|discriminate].
  intros H. inversion H. reflexivity.
Qed.

(** The two last statements of the pipeline: the result has the band count
    of the stacked data followed by the destination shape, with every axis of
    length one removed. *)
Lemma dispatch_reduce_shape
      (kernel : ndarray f64 -> ndarray f64 -> ndarray f64 ->
                ndarray f64 -> ndarray f64 -> ndarray f64 -> ndarray f64 ->
                ndarray f64 -> ndarray f64 -> string -> result (ndarray f64))
      (data sx sy gxl gxp gyl gyp dst_x dst_y res out : ndarray f64) (method : string) :
  blockwise_resample kernel data sx sy gxl gxp gyl gyp dst_x dst_y method = Ok res ->
  overlap_reduce res = Ok out ->
  shape out = filter (fun d => negb (Nat.eqb d 1)) (nth 0 (shape data) 0 :: shape dst_x).
Proof.
  intros Hres Hout.
  rewrite (@overlap_reduce_shape _ _ Hout), (@blockwise_resample_shape _ _ _ _ _ _ _ _ _ _ _ _ Hres).
  now rewrite removelast_last.
Qed.

Lemma bindT_ok_inv {A B} (c : traced A) (k : A -> traced B)
      (t : list stage) (out : B) :
  bindT c k = (t, Ok out) ->
  exists a t1 t2, c = (t1, Ok a) /\ k a = (t2, Ok out).
Proof.
  unfold bindT. destruct c as [t1 [a|e]]; [|discriminate].
  destruct (k a) as [t2 r] eqn:Hk. intros H. inversion H; subst.
  now exists a, t1, t2.
Qed.

Lemma enter_ok_inv {A} (s : stage) (c : result A) (t : list stage) (a : A) :
  enter s c = (t, Ok a) -> c = Ok a.
Proof. unfold enter. intros H. now inversion H. Qed.

Lemma bind_ok_inv {A B} (c : result A) (k : A -> result B) (b : B) :
  bind c k = Ok b -> exists a, c = Ok a /\ k a = Ok b.
Proof. destruct c as [a|e]; [|discriminate]. intros H. now exists a. Qed.

Lemma np_take_mask_shape {A} (arr r : ndarray A) (covers : list bool) :
  shape arr <> [] ->
  np_take_mask arr covers (-1) = Ok r ->
  shape r = removelast (shape arr) ++ [length (nonzero covers)].
Proof.
  intros Hs H.
  destruct (Nat.eq_dec (length covers) (tile_axis arr)) as [Hlen | Hlen].
  - rewrite (@np_take_mask_ok A arr covers Hs Hlen) in H. now inversion H.
  - exfalso. unfold np_take_mask, norm_axis in H.
    rewrite (norm_index_denotes (@denotes_last A arr Hs)) in H. cbn [bind] in H.
    pose proof (@shape_split_last A arr Hs) as Hsh.
    set (pre := removelast (shape arr)) in *.
    rewrite Hsh, nth_app_exact in H.
    destruct (Nat.eqb_spec (length covers) (tile_axis arr)); [contradiction|discriminate].
Qed.

(** The culled data keep the leading axes of the stacked data. *)
Lemma remove_extra_chunks_head_shape
      (area : polygon -> f64) (intersects : polygon -> polygon -> result bool)
      (d d' : ndarray f64) (rest rest' : list (ndarray f64)) (dst_x dst_y : ndarray f64) :
  shape d <> [] ->
  remove_extra_chunks area intersects (d :: rest) dst_x dst_y = Ok (d' :: rest') ->
  removelast (shape d') = removelast (shape d).
Proof.
  intros Hs. rewrite remove_extra_chunks_factor. intros H.
  apply bind_ok_inv in H. destruct H as (dp & _ & H).
  apply bind_ok_inv in H. destruct H as (sps & _ & H).
  apply bind_ok_inv in H. destruct H as (covers & _ & H).
  apply mapM_inv in H. inversion H as [|? ? ? ? Hd _]; subst.
  rewrite (@np_take_mask_shape _ _ _ _ Hs Hd). apply removelast_last.
Qed.

(** Three-dimensional data: the shape of a successful run. *)
Lemma result_shape_3d
        (area : polygon -> f64) (intersects : polygon -> polygon -> result bool)
        (kernel : ndarray f64 -> ndarray f64 -> ndarray f64 ->
                  ndarray f64 -> ndarray f64 -> ndarray f64 -> ndarray f64 ->
                  ndarray f64 -> ndarray f64 -> string -> result (ndarray f64))
        (np_gradient : ndarray f64 -> result (ndarray f64 * ndarray f64))
        (data src_x src_y : dask_array f64) (dst_x dst_y : ndarray f64)
        (kwargs_method : option string)
        (B R sr C sc : nat) (trace : list stage) (out : ndarray f64) :
  wf (values data) ->
  shape (values data) = [B; R * sr; C * sc] ->
  chunk_counts (chunks data) (-2) (-1) R C ->
  0 < R -> 0 < C ->
  parallel_gradient_search area intersects kernel np_gradient
                           data src_x src_y dst_x dst_y kwargs_method
  = (trace, Ok out) ->
  shape out = filter (fun d => negb (Nat.eqb d 1)) (B :: shape dst_x).
Proof.
  intros Hwf Hs Hcc HR HC Hrun.
  unfold parallel_gradient_search, ndim in Hrun. rewrite Hs in Hrun.
  cbn [length existsb Nat.eqb orb negb] in Hrun.
  apply bindT_ok_inv in Hrun. destruct Hrun as (gx & ? & ? & _ & Hrun).
  apply bindT_ok_inv in Hrun. destruct Hrun as (gy & ? & ? & _ & Hrun).
  apply bindT_ok_inv in Hrun. destruct Hrun as (arrays & ? & ? & _ & Hrun).
  destruct arrays as [[[[[sx sy] gxl] gxp] gyl] gyp].
  apply bindT_ok_inv in Hrun. destruct Hrun as (d & ? & ? & Hd & Hrun).
  apply enter_ok_inv in Hd.
  rewrite (@reshape_to_stacked_3d_ok f64 data [B] R sr C sc Hwf Hs Hcc HR HC) in Hd.
  inversion Hd; subst d. clear Hd.
  apply bindT_ok_inv in Hrun. destruct Hrun as (culled & ? & ? & Hcull & Hrun).
  apply enter_ok_inv in Hcull.
  apply bind_ok_inv in Hcull. destruct Hcull as (l & Hl & Hunpack).
  destruct culled as [[[[[[d7 sx7] sy7] gxl7] gxp7] gyl7] gyp7].
  apply bindT_ok_inv in Hrun. destruct Hrun as (res & ? & ? & Hres & Hrun).
  apply enter_ok_inv in Hres. apply enter_ok_inv in Hrun.
  rewrite (@dispatch_reduce_shape _ _ _ _ _ _ _ _ _ _ _ _ _ Hres Hrun).
  destruct l as [|d7' l]; [discriminate|].
  assert (Hd7 : d7' = d7).
  { unfold unpack7 in Hunpack.
    repeat (destruct l as [|? l]; [discriminate|]).
    destruct l; [|discriminate]. now inversion Hunpack. }
  subst d7'.
  destruct (@stacked_chunks_spec f64 [B] R sr C sc (values data) Hwf Hs)
    as (Hsh & _ & _).
  assert (Hne : shape (stacked_chunks [B] R sr C sc (values data)) <> [])
    by (rewrite Hsh; discriminate).
  pose proof (@remove_extra_chunks_head_shape _ _ _ _ _ _ _ _ Hne Hl) as Hhead.
  rewrite Hsh in Hhead. cbn [app removelast] in Hhead.
  destruct (shape d7) as [|b0 sh7] eqn:Hs7; [discriminate|].
  destruct sh7 as [|b1 sh7]; [discriminate|].
  cbn [removelast] in Hhead. inversion Hhead. reflexivity.
Qed.

Lemma py_index_cons_negative {A} (x v : A) (l : list A) (i : Z) :
  (i < 0)%Z -> py_index l i = Ok v -> py_index (x :: l) i = Ok v.
Proof.
  intros Hi. unfold py_index, norm_index. cbn [length].
  destruct (Z.leb_spec 0 i); [lia|].
  destruct (Z.leb_spec (- Z.of_nat (length l)) i); [|discriminate].
  destruct (Z.leb_spec (- Z.of_nat (S (length l))) i); [|lia].
  replace (Z.to_nat (Z.of_nat (S (length l)) + i))
    with (S (Z.to_nat (Z.of_nat (length l) + i))) by lia.
  auto.
Qed.

(** Two-dimensional data run as data of one band. *)
Lemma rank2_as_single_band
      (area : polygon -> f64) (intersects : polygon -> polygon -> result bool)
      (kernel : ndarray f64 -> ndarray f64 -> ndarray f64 ->
                ndarray f64 -> ndarray f64 -> ndarray f64 -> ndarray f64 ->
                ndarray f64 -> ndarray f64 -> string -> result (ndarray f64))
      (np_gradient : ndarray f64 -> result (ndarray f64 * ndarray f64))
      (data src_x src_y : dask_array f64) (dst_x dst_y : ndarray f64)
      (kwargs_method : option string) :
  ndim (values data) = 2 ->
  parallel_gradient_search area intersects kernel np_gradient
                           data src_x src_y dst_x dst_y kwargs_method
  = parallel_gradient_search area intersects kernel np_gradient
                             (newaxis0 data) src_x src_y dst_x dst_y kwargs_method.
Proof.
  intros H. unfold parallel_gradient_search.
  change (ndim (values (newaxis0 data))) with (S (ndim (values data))).
  rewrite H. reflexivity.
Qed.

(** C2 (what the code does). Data of [B] bands, or two-dimensional data
    ([B = 1]), on a grid in [R] by [C] chunks: whenever the run succeeds,
    the shape of its result is the band count followed by the destination
    shape with every axis of length one removed.  With a single band, the
    result therefore never has the shape [(1, rows, cols)]: the band axis of
    a three-dimensional input with one band is gone. *)
Theorem result_shape_is_squeezed
        (area : polygon -> f64) (intersects : polygon -> polygon -> result bool)
        (kernel : ndarray f64 -> ndarray f64 -> ndarray f64 ->
                  ndarray f64 -> ndarray f64 -> ndarray f64 -> ndarray f64 ->
                  ndarray f64 -> ndarray f64 -> string -> result (ndarray f64))
        (np_gradient : ndarray f64 -> result (ndarray f64 * ndarray f64))
        (data src_x src_y : dask_array f64) (dst_x dst_y : ndarray f64)
        (kwargs_method : option string)
        (B R sr C sc : nat) (trace : list stage) (out : ndarray f64) :
  wf (values data) ->
  shape (values data) = [B; R * sr; C * sc] \/
  (shape (values data) = [R * sr; C * sc] /\ B = 1) ->
  chunk_counts (chunks data) (-2) (-1) R C ->
  0 < R -> 0 < C ->
  parallel_gradient_search area intersects kernel np_gradient
                           data src_x src_y dst_x dst_y kwargs_method
  = (trace, Ok out) ->
  shape out = filter (fun d => negb (Nat.eqb d 1)) (B :: shape dst_x) /\
  (B = 1 -> shape out <> 1 :: shape dst_x).
Proof.
  intros Hwf Hs Hcc HR HC Hrun.
  assert (Hshape : shape out = filter (fun d => negb (Nat.eqb d 1)) (B :: shape dst_x)).
  { destruct Hs as [Hs | [Hs ->]].
    - eapply result_shape_3d; eauto.
    - rewrite rank2_as_single_band in Hrun by (unfold ndim; now rewrite Hs).
      eapply result_shape_3d with (data := newaxis0 data) (R := R) (C := C); eauto.
      + unfold wf in *. simpl. rewrite size_of_cons, <- Hwf. lia.
      + simpl. now rewrite Hs.
      + destruct Hcc as (cy & cx & Hcy & Hcx & Hly & Hlx).
        exists cy, cx. cbn [newaxis0 chunks].
        repeat split; try assumption; apply py_index_cons_negative; auto; lia. }
  split; [exact Hshape|].
  intros -> Heq. rewrite Heq in Hshape. cbn [filter Nat.eqb negb] in Hshape.
  pose proof (filter_length_le (fun d => negb (Nat.eqb d 1)) (shape dst_x)) as Hle.
  rewrite <- Hshape in Hle. simpl in Hle. lia.
Qed.

Lemma result_shape_is_squeezed_witness :
  shape (values Demo.data144) = [1; 4; 4] /\
  shape Demo.dst_x22 = [2; 2] /\
  exists trace out,
    Demo.run Demo.data144 Demo.src_x44 Demo.src_y44 Demo.dst_x22 Demo.dst_y22 None
    = (trace, Ok out) /\
    shape out = [2; 2] /\ shape out <> [1; 2; 2].
Proof.
  split; [reflexivity|]. split; [reflexivity|].
  destruct (Demo.run Demo.data144 Demo.src_x44 Demo.src_y44 Demo.dst_x22 Demo.dst_y22 None)
    as [trace [out|e]] eqn:Hrun; [|vm_compute in Hrun; discriminate Hrun].
  exists trace, out. split; [reflexivity|].
  destruct (@result_shape_is_squeezed
              Demo.area Demo.intersects Demo.kernel Demo.gradient
              Demo.data144 Demo.src_x44 Demo.src_y44 Demo.dst_x22 Demo.dst_y22 None
              1 2 2 2 2 trace out) as [Hshape Hband].
  - reflexivity.
  - left. reflexivity.
  - exists [2; 2], [2; 2]. repeat split; reflexivity.
  - lia.
  - lia.
  - exact Hrun.
  - split; [exact Hshape | exact (Hband eq_refl)].
Defined.

(** The same run with two bands, and with two-dimensional data. *)
Example result_shapes_of_other_ranks :
  (exists trace out,
      Demo.run Demo.data244 Demo.src_x44 Demo.src_y44 Demo.dst_x22 Demo.dst_y22 None
      = (trace, Ok out) /\
      shape out = [2; 2; 2]) /\
  (exists trace out,
      Demo.run Demo.data44 Demo.src_x44 Demo.src_y44 Demo.dst_x22 Demo.dst_y22 None
      = (trace, Ok out) /\
      shape out = [2; 2]).
Proof.
  split; eexists; eexists; (split; [vm_compute; reflexivity | reflexivity]).
Qed.

(** ** Reading a stack of per-tile results *)

(** The values of the tiles at a pixel are the elements of the stack along
    its tile axis. *)
Lemma tile_values_get {A} (res : ndarray A) (I : list nat) (t : nat) :
  wf res -> shape res <> [] ->
  in_bounds (removelast (shape res)) I = true ->
  t < tile_axis res ->
  nth_error (tile_values res (ravel (removelast (shape res)) I)) t = get res (I ++ [t]).
Proof.
  intros Hwf Hs HbI Ht.
  pose proof (in_bounds_length _ _ HbI) as HI.
  unfold get. rewrite (@shape_split_last A res Hs).
  set (pre := removelast (shape res)) in *.
  rewrite in_bounds_app by assumption. rewrite HbI. cbn [in_bounds andb].
  destruct (Nat.ltb_spec t (tile_axis res)); [|lia]. cbn [andb].
  rewrite ravel_app by assumption. cbn [ravel].
  rewrite size_of_cons. change (size_of []) with 1.
  unfold tile_values. rewrite nth_error_slice by assumption.
  now rewrite !Nat.mul_1_r, Nat.add_0_r, removelast_last.
Qed.

(** Rearranging the tiles of a stack is selecting them in the new order. *)
Lemma permute_tiles_select {A} (res : ndarray A) (sigma : list nat) :
  shape res <> [] -> length sigma = tile_axis res ->
  permute_tiles sigma res = select_tiles sigma res.
Proof.
  intros Hs Hlen. unfold permute_tiles, select_tiles.
  now rewrite Hlen, <- (@shape_split_last A res Hs).
Qed.

Lemma get_permute_tiles {A} (res : ndarray A) (sigma I : list nat) (k : nat) :
  wf res -> shape res <> [] ->
  Permutation sigma (seq 0 (tile_axis res)) ->
  k < tile_axis res -> length I = length (removelast (shape res)) ->
  get (permute_tiles sigma res) (I ++ [k]) = get res (I ++ [nth k sigma 0]).
Proof.
  intros Hwf Hs Hperm Hk HI.
  assert (Hlen : length sigma = tile_axis res).
  { rewrite (Permutation_length Hperm). apply length_seq. }
  rewrite permute_tiles_select by assumption.
  apply get_select_tiles; try assumption; [|lia].
  intros x Hx. apply (Permutation_in _ Hperm) in Hx. apply in_seq in Hx. lia.
Qed.

(** * Further properties of the code *)

Unset Implicit Arguments.

(** ** The splitters: when they succeed and how they fail *)

Lemma norm_index_inv (nd : nat) (axis : Z) (k : nat) :
  norm_index nd axis = Some k -> denotes_axis nd axis k.
Proof.
  unfold norm_index, denotes_axis.
  destruct (Z.leb_spec 0 axis).
  - destruct (Z.ltb_spec axis (Z.of_nat nd)); [|discriminate].
    intros Heq. inversion Heq; subst. split; [lia | left; lia].
  - destruct (Z.leb_spec (- Z.of_nat nd) axis); [|discriminate].
    intros Heq. inversion Heq; subst. split; [lia | right; lia].
Qed.

Lemma norm_index_none (nd : nat) (axis : Z) :
  norm_index nd axis = None <-> (Z.of_nat nd <= axis \/ axis < - Z.of_nat nd)%Z.
Proof.
  unfold norm_index.
  destruct (Z.leb_spec 0 axis).
  - destruct (Z.ltb_spec axis (Z.of_nat nd)); split; intros; try discriminate;
      try reflexivity; lia.
  - destruct (Z.leb_spec (- Z.of_nat nd) axis); split; intros; try discriminate;
      try reflexivity; lia.
Qed.

Lemma py_index_inv {A} (l : list A) (i : Z) (x : A) :
  py_index l i = Ok x ->
  exists pre post,
    l = pre ++ x :: post /\ denotes_axis (length l) i (length pre).
Proof.
  unfold py_index. destruct (norm_index (length l) i) as [k|] eqn:Hk; [|discriminate].
  destruct (nth_error l k) as [y|] eqn:Hy; [|discriminate].
  intros H. inversion H; subst y.
  apply nth_error_split in Hy. destruct Hy as (pre & post & Hl & Hlen).
  exists pre, post. split; [exact Hl|]. rewrite Hlen. now apply norm_index_inv.
Qed.

Lemma py_index_out_of_range {A} (l : list A) (i : Z) :
  (Z.of_nat (length l) <= i \/ i < - Z.of_nat (length l))%Z ->
  py_index l i = Raise IndexError.
Proof.
  intros H. unfold py_index. now rewrite (proj2 (norm_index_none (length l) i) H).
Qed.

(** [split] with the axis located: the quotient, the reshape and the
    [n] takes. *)
Lemma split_unfold {A} (arr : ndarray A) (n L : nat) (axis : Z) (pre post : list nat) :
  shape arr = pre ++ L :: post ->
  denotes_axis (ndim arr) axis (length pre) ->
  split arr n axis
  = (q <- py_int_div L n ;;
     res <- reshape arr (map Z.of_nat (pre ++ n :: q :: post)) ;;
     mapM (fun x => np_take res x (Z.of_nat (length pre))) (seq 0 n)).
Proof.
  intros Hs Hax. unfold split, ndim in *.
  rewrite Hs in *. rewrite (py_index_denotes _ _ _ Hax). cbn [bind].
  destruct (py_int_div L n) as [q|e]; cbn [bind]; [|reflexivity].
  unfold py_slice_to, py_slice_from.
  rewrite (slice_bound_denotes Hax), firstn_app_exact.
  set (rest_idx := if (axis <? 0)%Z then _ else _).
  assert (Hrest : rest_idx = Z.of_nat (S (length pre))).
  { subst rest_idx. destruct Hax as [Hk [-> | ->]].
    - destruct (Z.ltb_spec (Z.of_nat (length pre)) 0); lia.
    - destruct (Z.ltb_spec
                  (Z.of_nat (length pre) - Z.of_nat (length (pre ++ L :: post))) 0); lia. }
  rewrite Hrest, slice_bound_nat by (rewrite length_app; simpl; lia).
  rewrite skipn_S_app_exact.
  replace (map Z.of_nat pre ++ [Z.of_nat n; Z.of_nat q] ++ map Z.of_nat post)
    with (map Z.of_nat (pre ++ n :: q :: post))
    by (rewrite map_app; reflexivity).
  replace (Z.of_nat (S (length pre)) - 1)%Z with (Z.of_nat (length pre)) by lia.
  reflexivity.
Qed.

Lemma resolve_shape_nat (size : nat) (s : list nat) :
  resolve_shape size (map Z.of_nat s)
  = if Nat.eqb (size_of s) size then Ok s else Raise ValueError.
Proof.
  unfold resolve_shape, count_unknown, known_size.
  rewrite existsb_negative_of_nat, filter_unknown_of_nat, filter_known_of_nat.
  simpl. now rewrite map_to_nat_of_nat.
Qed.

Lemma size_of_pos_app (pre post : list nat) (d : nat) :
  0 < size_of (pre ++ d :: post) -> 0 < size_of pre /\ 0 < d /\ 0 < size_of post.
Proof.
  rewrite size_of_app, size_of_cons. intros H.
  destruct (size_of pre), d, (size_of post); lia.
Qed.

(** X1. [split] never drops a remainder: on an array that holds at least one
    element it returns pieces only when the number of pieces is positive and
    divides the extent of the axis, and then it returns that many. *)
Theorem split_needs_even_division {A} (arr : ndarray A) (n : nat) (axis : Z)
        (pieces : list (ndarray A)) :
  wf arr -> 0 < size_of (shape arr) ->
  split arr n axis = Ok pieces ->
  0 < n /\ length pieces = n /\
  exists pre L post,
    shape arr = pre ++ L :: post /\
    denotes_axis (ndim arr) axis (length pre) /\
    L mod n = 0.
Proof.
  intros Hwf Hpos Hrun.
  assert (Hax : exists L, py_index (shape arr) axis = Ok L).
  { unfold split in Hrun. destruct (py_index (shape arr) axis) as [L|]; [|discriminate].
    now exists L. }
  destruct Hax as [L HL].
  destruct (py_index_inv _ _ _ HL) as (pre & post & Hs & Hax).
  rewrite (split_unfold arr n L axis pre post Hs Hax) in Hrun.
  unfold py_int_div in Hrun.
  destruct (Nat.eqb_spec n 0) as [|Hn]; [discriminate|]. cbn [bind] in Hrun.
  unfold reshape in Hrun. rewrite resolve_shape_nat in Hrun.
  destruct (Nat.eqb_spec (size_of (pre ++ n :: L / n :: post)) (length (data arr)))
    as [Hsize|]; [|discriminate].
  cbn [bind] in Hrun.
  split; [lia|]. split.
  - apply mapM_length in Hrun. now rewrite Hrun, length_seq.
  - exists pre, L, post. split; [exact Hs|]. split; [exact Hax|].
    unfold wf in Hwf. rewrite Hwf, Hs in Hsize. rewrite Hs in Hpos.
    destruct (size_of_pos_app _ _ _ Hpos) as (HP & HL0 & HQ).
    rewrite !size_of_app, !size_of_cons in Hsize.
    assert (Heq : n * (L / n) = L) by nia.
    apply Nat.Div0.div_exact. lia.
Qed.

Lemma split_needs_even_division_witness :
  0 < 2 /\ length [mk_ndarray [2; 2] [0; 1; 4; 5]; mk_ndarray [2; 2] [2; 3; 6; 7]] = 2 /\
  exists pre L post,
    [2; 4] = pre ++ L :: post /\
    denotes_axis 2 (-1) (length pre) /\
    L mod 2 = 0.
Proof.
  apply (split_needs_even_division (mk_ndarray [2; 4] [0; 1; 2; 3; 4; 5; 6; 7]) 2 (-1)).
  - reflexivity.
  - unfold size_of. simpl. lia.
  - reflexivity.
Defined.

(** X2. How [split] fails: an axis the array does not have is an [IndexError],
    whatever the number of pieces; zero pieces along an existing axis are a
    [ZeroDivisionError]; and a number of pieces that does not divide the
    extent of the axis of an array holding elements is the [ValueError] of
    the reshape. *)
Theorem split_failures {A} (arr : ndarray A) (n : nat) (axis : Z) :
  ((Z.of_nat (ndim arr) <= axis \/ axis < - Z.of_nat (ndim arr))%Z ->
   split arr n axis = Raise IndexError) /\
  (forall k, denotes_axis (ndim arr) axis k -> n = 0 ->
             split arr n axis = Raise ZeroDivisionError) /\
  (forall pre L post,
      wf arr -> 0 < size_of (shape arr) ->
      shape arr = pre ++ L :: post ->
      denotes_axis (ndim arr) axis (length pre) ->
      0 < n -> L mod n <> 0 ->
      split arr n axis = Raise ValueError).
Proof.
  split; [|split].
  - intros H. unfold split. now rewrite py_index_out_of_range.
  - intros k Hax ->. unfold split, py_index. unfold ndim in Hax.
    rewrite (norm_index_denotes Hax).
    destruct (nth_error (shape arr) k) as [L|] eqn:HL.
    + reflexivity.
    + exfalso. apply nth_error_None in HL. destruct Hax as [Hk _]. lia.
  - intros pre L post Hwf Hpos Hs Hax Hn Hrem.
    rewrite (split_unfold arr n L axis pre post Hs Hax).
    unfold py_int_div. destruct (Nat.eqb_spec n 0); [lia|]. cbn [bind].
    unfold reshape. rewrite resolve_shape_nat.
    destruct (Nat.eqb_spec (size_of (pre ++ n :: L / n :: post)) (length (data arr)))
      as [Hsize|]; [|reflexivity].
    exfalso. apply Hrem.
    unfold wf in Hwf. rewrite Hwf, Hs in Hsize. rewrite Hs in Hpos.
    destruct (size_of_pos_app _ _ _ Hpos) as (HP & HL0 & HQ).
    rewrite !size_of_app, !size_of_cons in Hsize.
    assert (Heq : n * (L / n) = L) by nia.
    apply Nat.Div0.div_exact. lia.
Qed.

Lemma split_failures_witness :
  split (mk_ndarray [2; 3] [0; 1; 2; 3; 4; 5]) 2 5 = Raise IndexError /\
  split (mk_ndarray [2; 3] [0; 1; 2; 3; 4; 5]) 0 (-1) = Raise ZeroDivisionError /\
  split (mk_ndarray [2; 3] [0; 1; 2; 3; 4; 5]) 2 (-1) = Raise ValueError.
Proof.
  pose proof (split_failures (mk_ndarray [2; 3] [0; 1; 2; 3; 4; 5])) as H.
  split; [|split].
  - apply (proj1 (H 2 5%Z)). left. simpl. lia.
  - apply (proj1 (proj2 (H 0 (-1)%Z)) 1); [|reflexivity].
    unfold denotes_axis, ndim. simpl. split; [lia | right; reflexivity].
  - apply (proj2 (proj2 (H 2 (-1)%Z)) [2] 3 []).
    + reflexivity.
    + unfold size_of. simpl. lia.
    + reflexivity.
    + unfold denotes_axis, ndim. simpl. split; [lia | right; reflexivity].
    + lia.
    + simpl. lia.
Defined.

(** X3. [hsplit] and [vsplit] are [split] along the second and the first axis
    whenever the number of pieces is positive and divides the extent and the
    array holds elements. *)
Theorem hsplit_vsplit_are_splits {A} (arr : ndarray A) (n s d0 : nat) (post : list nat) :
  wf arr -> 0 < n -> 0 < size_of post ->
  (shape arr = d0 :: (n * s) :: post -> 0 < d0 -> hsplit arr n = split arr n 1) /\
  (shape arr = (n * s) :: post -> vsplit arr n = split arr n 0).
Proof.
  intros Hwf Hn Hpost. split.
  - intros Hs Hd0.
    rewrite (@hsplit_ok A arr n s d0 post Hwf Hs Hd0 Hn Hpost).
    symmetry. apply (@split_ok A arr n s 1 [d0] post Hwf Hn Hs).
    unfold denotes_axis, ndim. rewrite Hs. simpl. split; [lia | left; reflexivity].
  - intros Hs.
    rewrite (@vsplit_ok A arr n s post Hwf Hs Hn Hpost).
    symmetry. apply (@split_ok A arr n s 0 [] post Hwf Hn Hs).
    unfold denotes_axis, ndim. rewrite Hs. simpl. split; [lia | left; reflexivity].
Qed.

Lemma hsplit_vsplit_are_splits_witness :
  hsplit (mk_ndarray [2; 4] [0; 1; 2; 3; 4; 5; 6; 7]) 2
  = split (mk_ndarray [2; 4] [0; 1; 2; 3; 4; 5; 6; 7]) 2 1 /\
  vsplit (mk_ndarray [4; 2] [0; 1; 2; 3; 4; 5; 6; 7]) 2
  = split (mk_ndarray [4; 2] [0; 1; 2; 3; 4; 5; 6; 7]) 2 0.
Proof.
  split.
  - apply (proj1 (hsplit_vsplit_are_splits
                    (mk_ndarray [2; 4] [0; 1; 2; 3; 4; 5; 6; 7]) 2 2 2 []
                    eq_refl ltac:(lia) ltac:(unfold size_of; simpl; lia)));
      [reflexivity | lia].
  - apply (proj2 (hsplit_vsplit_are_splits
                    (mk_ndarray [4; 2] [0; 1; 2; 3; 4; 5; 6; 7]) 2 2 0 [2]
                    eq_refl ltac:(lia) ltac:(unfold size_of; simpl; lia))).
    reflexivity.
Defined.

Lemma resolve_shape_infer_zero (size : nat) (s1 s2 : list nat) :
  size_of s1 * size_of s2 = 0 ->
  resolve_shape size (map Z.of_nat s1 ++ (-1)%Z :: map Z.of_nat s2)
  = Raise ZeroDivisionError.
Proof.
  intros Hzero. unfold resolve_shape, count_unknown, known_size.
  rewrite existsb_app. simpl. rewrite !existsb_negative_of_nat. simpl.
  rewrite !filter_app. simpl.
  rewrite !filter_unknown_of_nat, !filter_known_of_nat. simpl.
  rewrite <- map_app, map_to_nat_of_nat, size_of_app, Hzero. reflexivity.
Qed.

(** X4. [hsplit] and [vsplit] need the axes they do not split to be
    non-empty; [split] does not.  On an array whose split axis has an extent
    that is a multiple of [n], [split] always returns [n] pieces.  [hsplit]
    and [vsplit] let the reshape infer an extent: when another axis has
    extent zero the inference divides by zero and they raise
    [ZeroDivisionError]; when the other axes are not empty they return [n]
    pieces, also when the split axis itself is empty. *)
Theorem hsplit_vsplit_need_the_other_axes_nonempty {A} (arr : ndarray A) (n s d0 : nat)
        (post : list nat) :
  wf arr -> 0 < n ->
  (shape arr = d0 :: (n * s) :: post ->
   (exists pieces, split arr n 1 = Ok pieces /\ length pieces = n) /\
   (d0 * size_of post = 0 -> hsplit arr n = Raise ZeroDivisionError) /\
   (0 < d0 * size_of post ->
    exists pieces, hsplit arr n = Ok pieces /\ length pieces = n)) /\
  (shape arr = (n * s) :: post ->
   (exists pieces, split arr n 0 = Ok pieces /\ length pieces = n) /\
   (size_of post = 0 -> vsplit arr n = Raise ZeroDivisionError) /\
   (0 < size_of post ->
    exists pieces, vsplit arr n = Ok pieces /\ length pieces = n)).
Proof.
  intros Hwf Hn. split.
  - intros Hs. split; [|split].
    + eexists. split.
      * apply (@split_ok A arr n s 1 [d0] post Hwf Hn Hs).
        unfold denotes_axis, ndim. rewrite Hs. simpl. split; [lia | left; reflexivity].
      * now rewrite length_map, length_seq.
    + intros Hzero. unfold hsplit. rewrite Hs, py_index_0. cbn [bind].
      change (py_slice_from (d0 :: n * s :: post) 2) with post.
      unfold reshape.
      change ([Z.of_nat d0; Z.of_nat n; (-1)%Z] ++ map Z.of_nat post)
        with (map Z.of_nat [d0; n] ++ (-1)%Z :: map Z.of_nat post).
      rewrite resolve_shape_infer_zero; [reflexivity|].
      rewrite !size_of_cons. change (size_of []) with 1. nia.
    + intros Hpos. eexists. split.
      * apply (@hsplit_ok A arr n s d0 post Hwf Hs); [nia | exact Hn | nia].
      * now rewrite length_map, length_seq.
  - intros Hs. split; [|split].
    + eexists. split.
      * apply (@split_ok A arr n s 0 [] post Hwf Hn Hs).
        unfold denotes_axis, ndim. rewrite Hs. simpl. split; [lia | left; reflexivity].
      * now rewrite length_map, length_seq.
    + intros Hzero. unfold vsplit. rewrite Hs.
      change (py_slice_from (n * s :: post) 1) with post.
      unfold reshape.
      change ([Z.of_nat n; (-1)%Z] ++ map Z.of_nat post)
        with (map Z.of_nat [n] ++ (-1)%Z :: map Z.of_nat post).
      rewrite resolve_shape_infer_zero; [reflexivity|].
      rewrite !size_of_cons. change (size_of []) with 1. nia.
    + intros Hpos. eexists. split.
      * apply (@vsplit_ok A arr n s post Hwf Hs Hn Hpos).
      * now rewrite length_map, length_seq.
Qed.

Lemma hsplit_vsplit_need_the_other_axes_nonempty_witness :
  ((exists pieces,
       split (mk_ndarray [0; 4] (@nil nat)) 2 1 = Ok pieces /\ length pieces = 2) /\
   hsplit (mk_ndarray [0; 4] (@nil nat)) 2 = Raise ZeroDivisionError) /\
  (exists pieces,
      hsplit (mk_ndarray [2; 0] (@nil nat)) 2 = Ok pieces /\ length pieces = 2).
Proof.
  split.
  - destruct (proj1 (hsplit_vsplit_need_the_other_axes_nonempty
                       (mk_ndarray [0; 4] (@nil nat)) 2 2 0 [] eq_refl ltac:(lia))
                    eq_refl) as (Hsplit & Hzero & _).
    split; [exact Hsplit | apply Hzero; reflexivity].
  - destruct (proj1 (hsplit_vsplit_need_the_other_axes_nonempty
                       (mk_ndarray [2; 0] (@nil nat)) 2 0 2 [] eq_refl ltac:(lia))
                    eq_refl) as (_ & _ & Hpos).
    apply Hpos. unfold size_of. simpl. lia.
Defined.

(** ** The stackers on every rank *)

(** X5. [reshape_to_stacked_3d] does not depend on the number of leading axes:
    for data of shape [bnd ++ (R * sr, C * sc)] chunked [R] by [C] along the
    two last axes it returns the array of shape [bnd ++ (sr, sc, R * C)]
    whose tile [c * R + r] is chunk [(r, c)], for every index of the leading
    axes; chunks without elements are accepted. *)
Theorem reshape_to_stacked_any_rank {A} (array : dask_array A) (bnd : list nat)
        (R sr C sc : nat) :
  wf (values array) ->
  shape (values array) = bnd ++ [R * sr; C * sc] ->
  chunk_counts (chunks array) (-2) (-1) R C ->
  0 < R -> 0 < C ->
  exists st,
    reshape_to_stacked_3d array = Ok st /\
    shape st = bnd ++ [sr; sc; R * C] /\ wf st /\
    forall Ib i j c r,
      length Ib = length bnd -> i < sr -> j < sc -> c < C -> r < R ->
      get st (Ib ++ [i; j; c * R + r]) = get (values array) (Ib ++ [r * sr + i; c * sc + j]).
Proof.
  intros Hwf Hs Hcc HR HC.
  exists (stacked_chunks bnd R sr C sc (values array)).
  split; [now apply reshape_to_stacked_3d_ok|].
  apply (@stacked_chunks_spec A bnd R sr C sc (values array) Hwf Hs).
Qed.

Lemma reshape_to_stacked_any_rank_witness :
  exists st,
    reshape_to_stacked_3d (mk_dask (mk_ndarray [2; 1; 2; 4] (seq 0 16))
                                   [[2]; [1]; [1; 1]; [2; 2]]) = Ok st /\
    shape st = [2; 1] ++ [1; 2; 2 * 2] /\ wf st /\
    forall Ib i j c r,
      length Ib = length [2; 1] -> i < 1 -> j < 2 -> c < 2 -> r < 2 ->
      get st (Ib ++ [i; j; c * 2 + r])
      = get (mk_ndarray [2; 1; 2; 4] (seq 0 16)) (Ib ++ [r * 1 + i; c * 2 + j]).
Proof.
  apply (reshape_to_stacked_any_rank
           (mk_dask (mk_ndarray [2; 1; 2; 4] (seq 0 16)) [[2]; [1]; [1; 1]; [2; 2]])
           [2; 1] 2 1 2 2).
  - reflexivity.
  - reflexivity.
  - exists [1; 1], [2; 2]. repeat split; reflexivity.
  - lia.
  - lia.
Defined.

(** X6. On a two-dimensional array the two stackers give the same array. *)
Theorem stackers_agree_on_2d {A} (a : ndarray A) (cy cx : list nat) (sr sc : nat) :
  wf a ->
  shape a = [length cy * sr; length cx * sc] ->
  0 < length cy -> 0 < length cx -> 0 < sr -> 0 < sc ->
  exists st,
    reshape_arrays_in_stacked_chunks [a] [cy; cx] = Ok [st] /\
    reshape_to_stacked_3d (mk_dask a [cy; cx]) = Ok st.
Proof.
  intros Hwf Hs HR HC Hsr Hsc.
  exists (stacked_chunks [] (length cy) sr (length cx) sc a). split.
  - apply (@reshape_arrays_in_stacked_chunks_ok A [a] [cy; cx] (length cy) sr (length cx) sc);
      try assumption.
    + exists cy, cx. repeat split; reflexivity.
    + intros b [<- | []]. now split.
  - apply (@reshape_to_stacked_3d_ok A (mk_dask a [cy; cx]) [] (length cy) sr (length cx) sc);
      try assumption.
    exists cy, cx. repeat split; reflexivity.
Qed.

Lemma stackers_agree_on_2d_witness :
  exists st,
    reshape_arrays_in_stacked_chunks [mk_ndarray [4; 6] (seq 0 24)] [[2; 2]; [2; 2; 2]]
    = Ok [st] /\
    reshape_to_stacked_3d (mk_dask (mk_ndarray [4; 6] (seq 0 24)) [[2; 2]; [2; 2; 2]])
    = Ok st.
Proof.
  apply (stackers_agree_on_2d (mk_ndarray [4; 6] (seq 0 24)) [2; 2] [2; 2; 2] 2 2);
    try reflexivity; simpl; lia.
Defined.


(** ** Footprints *)

Lemma slice_one {A} (p : nat) (d : list A) (x : A) :
  nth_error d p = Some x -> slice p 1 d = [x].
Proof.
  unfold slice. revert d. induction p as [|p IH]; intros [|y d] H; try discriminate.
  - injection H as ->. reflexivity.
  - apply IH. exact H.
Qed.

(** An element of a two-dimensional array addressed with signed indices. *)
Lemma item2_2d {A} (a : ndarray A) (h w r c : nat) (i j : Z) :
  wf a -> shape a = [h; w] -> denotes_axis h i r -> denotes_axis w j c ->
  exists v, get a [r; c] = Some v /\ item2 a i j = Ok [v].
Proof.
  intros Hwf Hs Hi Hj.
  assert (Hr : r < h) by apply Hi. assert (Hc : c < w) by apply Hj.
  assert (Hlen : length (data a) = h * w).
  { unfold wf in Hwf. rewrite Hwf, Hs, !size_of_cons. change (size_of []) with 1. lia. }
  destruct (nth_error (data a) (r * w + c)) as [v|] eqn:Hv.
  - exists v. split.
    + rewrite (get_2d a Hs Hr Hc). exact Hv.
    + unfold item2. rewrite Hs, (norm_index_denotes Hi), (norm_index_denotes Hj).
      cbv zeta. change (size_of []) with 1. rewrite Nat.mul_1_r.
      now rewrite (slice_one _ _ _ Hv).
  - apply nth_error_None in Hv. nia.
Qed.

Lemma denotes_first (n : nat) : 0 < n -> denotes_axis n 0 0.
Proof. intros Hn. split; [lia | left; reflexivity]. Qed.

Lemma denotes_minus_one (n : nat) : 0 < n -> denotes_axis n (-1) (n - 1).
Proof. intros Hn. split; [lia | right; lia]. Qed.

(** X7. On two-dimensional grids the boundary is made of the four corner points
    - upper left, upper right, lower right, lower left, in this order -
    less those with a coordinate that is not finite.  The two grids need not
    have the same shape. *)
Theorem boundary_is_the_finite_corners (x_coords y_coords : ndarray f64) (h w h' w' : nat) :
  wf x_coords -> wf y_coords ->
  shape x_coords = [h; w] -> shape y_coords = [h'; w'] ->
  0 < h -> 0 < w -> 0 < h' -> 0 < w' ->
  exists x1 x2 x3 x4 y1 y2 y3 y4,
    (get x_coords [0; 0] = Some x1 /\ get x_coords [0; w - 1] = Some x2 /\
     get x_coords [h - 1; w - 1] = Some x3 /\ get x_coords [h - 1; 0] = Some x4) /\
    (get y_coords [0; 0] = Some y1 /\ get y_coords [0; w' - 1] = Some y2 /\
     get y_coords [h' - 1; w' - 1] = Some y3 /\ get y_coords [h' - 1; 0] = Some y4) /\
    get_boundary x_coords y_coords
    = Ok (filter (fun p => isfinite (fst p) && isfinite (snd p))
                 [(x1, y1); (x2, y2); (x3, y3); (x4, y4)]).
Proof.
  intros Hwx Hwy Hsx Hsy Hh Hw Hh' Hw'.
  destruct (item2_2d x_coords h w 0 0 0 0 Hwx Hsx (denotes_first h Hh) (denotes_first w Hw))
    as (x1 & Gx1 & Ix1).
  destruct (item2_2d x_coords h w 0 (w - 1) 0 (-1) Hwx Hsx
                     (denotes_first h Hh) (denotes_minus_one w Hw)) as (x2 & Gx2 & Ix2).
  destruct (item2_2d x_coords h w (h - 1) (w - 1) (-1) (-1) Hwx Hsx
                     (denotes_minus_one h Hh) (denotes_minus_one w Hw)) as (x3 & Gx3 & Ix3).
  destruct (item2_2d x_coords h w (h - 1) 0 (-1) 0 Hwx Hsx
                     (denotes_minus_one h Hh) (denotes_first w Hw)) as (x4 & Gx4 & Ix4).
  destruct (item2_2d y_coords h' w' 0 0 0 0 Hwy Hsy (denotes_first h' Hh') (denotes_first w' Hw'))
    as (y1 & Gy1 & Iy1).
  destruct (item2_2d y_coords h' w' 0 (w' - 1) 0 (-1) Hwy Hsy
                     (denotes_first h' Hh') (denotes_minus_one w' Hw')) as (y2 & Gy2 & Iy2).
  destruct (item2_2d y_coords h' w' (h' - 1) (w' - 1) (-1) (-1) Hwy Hsy
                     (denotes_minus_one h' Hh') (denotes_minus_one w' Hw')) as (y3 & Gy3 & Iy3).
  destruct (item2_2d y_coords h' w' (h' - 1) 0 (-1) 0 Hwy Hsy
                     (denotes_minus_one h' Hh') (denotes_first w' Hw')) as (y4 & Gy4 & Iy4).
  exists x1, x2, x3, x4, y1, y2, y3, y4.
  split; [repeat split; assumption|]. split; [repeat split; assumption|].
  unfold get_boundary, get_corners.
  rewrite Ix1, Ix2, Ix3, Ix4, Iy1, Iy2, Iy3, Iy4.
  cbn [bind fst snd combine finite_corners scalar_of filter].
  destruct (isfinite x1), (isfinite y1), (isfinite x2), (isfinite y2),
           (isfinite x3), (isfinite y3), (isfinite x4), (isfinite y4);
    cbn [bind andb]; reflexivity.
Qed.

Lemma boundary_is_the_finite_corners_witness :
  exists x1 x2 x3 x4 y1 y2 y3 y4,
    (get Demo.dst_x_two [0; 0] = Some x1 /\ get Demo.dst_x_two [0; 2 - 1] = Some x2 /\
     get Demo.dst_x_two [2 - 1; 2 - 1] = Some x3 /\ get Demo.dst_x_two [2 - 1; 0] = Some x4) /\
    (get Demo.dst_y_two [0; 0] = Some y1 /\ get Demo.dst_y_two [0; 2 - 1] = Some y2 /\
     get Demo.dst_y_two [2 - 1; 2 - 1] = Some y3 /\ get Demo.dst_y_two [2 - 1; 0] = Some y4) /\
    get_boundary Demo.dst_x_two Demo.dst_y_two
    = Ok (filter (fun p => isfinite (fst p) && isfinite (snd p))
                 [(x1, y1); (x2, y2); (x3, y3); (x4, y4)]).
Proof.
  apply (boundary_is_the_finite_corners Demo.dst_x_two Demo.dst_y_two 2 2 2 2);
    try reflexivity; lia.
Defined.

(** A grid is degenerate when it has fewer than two axes or when one of its
    two leading axes is empty. *)
Lemma item2_degenerate {A} (a : ndarray A) (i j : Z) :
  ndim a < 2 \/ nth 0 (shape a) 1 = 0 \/ nth 1 (shape a) 1 = 0 ->
  item2 a i j = Raise IndexError.
Proof.
  unfold item2, ndim. destruct (shape a) as [|d0 [|d1 rest]]; try reflexivity.
  cbn [length nth]. intros [H | [H | H]]; [lia | |]; subst.
  - assert (Hn : norm_index 0 i = None) by (apply norm_index_none; lia).
    now rewrite Hn.
  - assert (Hn : norm_index 0 j = None) by (apply norm_index_none; lia).
    rewrite Hn. now destruct (norm_index d0 i).
Qed.

Lemma item2_regular {A} (a : ndarray A) (i j : Z) :
  (i = 0 \/ i = -1)%Z -> (j = 0 \/ j = -1)%Z ->
  ~ (ndim a < 2 \/ nth 0 (shape a) 1 = 0 \/ nth 1 (shape a) 1 = 0) ->
  exists v, item2 a i j = Ok v.
Proof.
  unfold item2, ndim. intros Hi Hj Hreg.
  destruct (shape a) as [|d0 [|d1 rest]]; cbn [length nth] in Hreg; try lia.
  destruct (norm_index d0 i) as [r|] eqn:Hr.
  - destruct (norm_index d1 j) as [c|] eqn:Hc; [eexists; reflexivity|].
    apply norm_index_none in Hc. lia.
  - apply norm_index_none in Hr. lia.
Qed.

(** X8. A degenerate grid - of rank below two, or without rows or columns - has
    no corners: [get_corners], [get_boundary] and [get_polygon] raise
    [IndexError] when one of the two coordinate grids is degenerate, and the
    culling against such a destination raises it before it looks at its
    arrays. *)
Theorem degenerate_grid_has_no_footprint (x_coords y_coords : ndarray f64) :
  (ndim x_coords < 2 \/ nth 0 (shape x_coords) 1 = 0 \/ nth 1 (shape x_coords) 1 = 0) \/
  (ndim y_coords < 2 \/ nth 0 (shape y_coords) 1 = 0 \/ nth 1 (shape y_coords) 1 = 0) ->
  get_corners x_coords y_coords = Raise IndexError /\
  get_boundary x_coords y_coords = Raise IndexError /\
  get_polygon x_coords y_coords = Raise IndexError /\
  forall area intersects arrays,
    remove_extra_chunks area intersects arrays x_coords y_coords = Raise IndexError.
Proof.
  intros Hdeg.
  assert (Hc : get_corners x_coords y_coords = Raise IndexError).
  { unfold get_corners.
    assert (Hx : (ndim x_coords < 2 \/ nth 0 (shape x_coords) 1 = 0 \/
                  nth 1 (shape x_coords) 1 = 0) \/
                 ~ (ndim x_coords < 2 \/ nth 0 (shape x_coords) 1 = 0 \/
                    nth 1 (shape x_coords) 1 = 0)) by lia.
    destruct Hx as [Hx | Hx].
    - now rewrite (item2_degenerate x_coords 0 0 Hx).
    - destruct Hdeg as [Hd | Hy]; [contradiction|].
      destruct (item2_regular x_coords 0 0 ltac:(lia) ltac:(lia) Hx) as [v1 ->].
      destruct (item2_regular x_coords 0 (-1) ltac:(lia) ltac:(lia) Hx) as [v2 ->].
      destruct (item2_regular x_coords (-1) (-1) ltac:(lia) ltac:(lia) Hx) as [v3 ->].
      destruct (item2_regular x_coords (-1) 0 ltac:(lia) ltac:(lia) Hx) as [v4 ->].
      cbn [bind]. now rewrite (item2_degenerate y_coords 0 0 Hy). }
  assert (Hb : get_boundary x_coords y_coords = Raise IndexError).
  { unfold get_boundary. now rewrite Hc. }
  assert (Hp : get_polygon x_coords y_coords = Raise IndexError).
  { unfold get_polygon. now rewrite Hb. }
  repeat split; try assumption.
  intros area intersects arrays. unfold remove_extra_chunks. now rewrite Hp.
Qed.

Lemma degenerate_grid_has_no_footprint_witness :
  get_corners (mk_ndarray [0; 3] (@nil f64)) Demo.dst_y22 = Raise IndexError /\
  get_boundary (mk_ndarray [0; 3] (@nil f64)) Demo.dst_y22 = Raise IndexError /\
  get_polygon (mk_ndarray [0; 3] (@nil f64)) Demo.dst_y22 = Raise IndexError /\
  forall area intersects arrays,
    remove_extra_chunks area intersects arrays (mk_ndarray [0; 3] (@nil f64)) Demo.dst_y22
    = Raise IndexError.
Proof.
  apply (degenerate_grid_has_no_footprint (mk_ndarray [0; 3] (@nil f64)) Demo.dst_y22).
  left. right. left. reflexivity.
Defined.

(** ** The culling: what it needs and what a successful run implies *)

Lemma py_index_raises {A} (l : list A) (i : Z) (e : exn) :
  py_index l i = Raise e -> e = IndexError.
Proof.
  unfold py_index. destruct (norm_index (length l) i) as [k|].
  - destruct (nth_error l k); [discriminate | now intros [= <-]].
  - now intros [= <-].
Qed.

(** X9. The culling reads the first three arrays of its input: with fewer it
    raises [IndexError], whatever the tests would answer. *)
Theorem culling_needs_three_arrays
        (area : polygon -> f64) (intersects : polygon -> polygon -> result bool)
        (arrays : list (ndarray f64)) (dst_x dst_y : ndarray f64) (dp : polygon) :
  get_polygon dst_x dst_y = Ok dp ->
  length arrays < 3 ->
  remove_extra_chunks area intersects arrays dst_x dst_y = Raise IndexError.
Proof.
  intros Hdp Hlen. unfold remove_extra_chunks. rewrite Hdp. cbn [bind].
  destruct arrays as [|b0 [|b1 [|b2 rest]]]; cbn [length] in Hlen; try lia.
  - reflexivity.
  - rewrite py_index_0. cbn [bind].
    destruct (py_index (shape b0) (-1)) as [n|e] eqn:He; [reflexivity|].
    now rewrite (py_index_raises _ _ _ He).
  - rewrite py_index_0. cbn [bind].
    destruct (py_index (shape b0) (-1)) as [n|e] eqn:He; [reflexivity|].
    now rewrite (py_index_raises _ _ _ He).
Qed.

Lemma culling_needs_three_arrays_witness :
  remove_extra_chunks Demo.area Demo.intersects (firstn 2 Demo.stacked44)
                      Demo.dst_x22 Demo.dst_y22 = Raise IndexError.
Proof.
  apply (culling_needs_three_arrays Demo.area Demo.intersects (firstn 2 Demo.stacked44)
           Demo.dst_x22 Demo.dst_y22 (Demo.quad 0 0)).
  - reflexivity.
  - simpl. lia.
Defined.






(** ** Grids that are not a whole number of chunks *)

Lemma resolve_shape_infer_uneven (size : nat) (s1 s2 : list nat) :
  0 < size_of s1 * size_of s2 ->
  size mod (size_of s1 * size_of s2) <> 0 ->
  resolve_shape size (map Z.of_nat s1 ++ (-1)%Z :: map Z.of_nat s2) = Raise IndexError.
Proof.
  intros Hpos Hrem. unfold resolve_shape, count_unknown, known_size.
  rewrite existsb_app. simpl. rewrite !existsb_negative_of_nat. simpl.
  rewrite !filter_app. simpl.
  rewrite !filter_unknown_of_nat, !filter_known_of_nat. simpl.
  rewrite <- map_app, map_to_nat_of_nat, size_of_app.
  destruct (Nat.eqb_spec (size_of s1 * size_of s2) 0); [lia|].
  destruct (Nat.eqb_spec (size mod (size_of s1 * size_of s2)) 0); [contradiction|].
  reflexivity.
Qed.

Lemma uneven_blocks (k L n : nat) : 0 < k -> L mod n <> 0 -> (k * L) mod (k * n) <> 0.
Proof. intros Hk Hrem. rewrite Nat.Div0.mul_mod_distr_l. nia. Qed.

Lemma hsplit_uneven {A} (arr : ndarray A) (n L d0 : nat) (post : list nat) :
  wf arr -> shape arr = d0 :: L :: post ->
  0 < d0 -> 0 < size_of post -> 0 < n -> L mod n <> 0 ->
  hsplit arr n = Raise IndexError.
Proof.
  intros Hwf Hs Hd0 Hpost Hn Hrem. unfold hsplit. rewrite Hs, py_index_0. cbn [bind].
  change (py_slice_from (d0 :: L :: post) 2) with post.
  unfold reshape.
  change ([Z.of_nat d0; Z.of_nat n; (-1)%Z] ++ map Z.of_nat post)
    with (map Z.of_nat [d0; n] ++ (-1)%Z :: map Z.of_nat post).
  rewrite resolve_shape_infer_uneven; [reflexivity | |].
  { rewrite !size_of_cons. change (size_of []) with 1. nia. }
  unfold wf in Hwf. rewrite Hwf, Hs, !size_of_cons. change (size_of []) with 1.
  replace (d0 * (L * size_of post)) with ((d0 * size_of post) * L) by lia.
  replace (d0 * (n * 1) * size_of post) with ((d0 * size_of post) * n) by lia.
  apply uneven_blocks; [nia | exact Hrem].
Qed.

Lemma vsplit_uneven {A} (arr : ndarray A) (n L : nat) (post : list nat) :
  wf arr -> shape arr = L :: post ->
  0 < size_of post -> 0 < n -> L mod n <> 0 ->
  vsplit arr n = Raise IndexError.
Proof.
  intros Hwf Hs Hpost Hn Hrem. unfold vsplit. rewrite Hs.
  change (py_slice_from (L :: post) 1) with post.
  unfold reshape.
  change ([Z.of_nat n; (-1)%Z] ++ map Z.of_nat post)
    with (map Z.of_nat [n] ++ (-1)%Z :: map Z.of_nat post).
  rewrite resolve_shape_infer_uneven; [reflexivity | |].
  { rewrite !size_of_cons. change (size_of []) with 1. nia. }
  unfold wf in Hwf. rewrite Hwf, Hs, !size_of_cons. change (size_of []) with 1.
  replace (L * size_of post) with (size_of post * L) by lia.
  replace (n * 1 * size_of post) with (size_of post * n) by lia.
  apply uneven_blocks; [lia | exact Hrem].
Qed.

Lemma split_remainder {A} (arr : ndarray A) (n L : nat) (axis : Z) (pre post : list nat) :
  wf arr -> 0 < size_of (shape arr) ->
  shape arr = pre ++ L :: post ->
  denotes_axis (ndim arr) axis (length pre) ->
  0 < n -> L mod n <> 0 ->
  split arr n axis = Raise ValueError.
Proof.
  intros Hwf Hpos Hs Hax Hn Hrem.
  rewrite (split_unfold arr n L axis pre post Hs Hax).
  unfold py_int_div. destruct (Nat.eqb_spec n 0); [lia|]. cbn [bind].
  unfold reshape. rewrite resolve_shape_nat.
  destruct (Nat.eqb_spec (size_of (pre ++ n :: L / n :: post)) (length (data arr)))
    as [Hsize|]; [|reflexivity].
  exfalso. apply Hrem.
  unfold wf in Hwf. rewrite Hwf, Hs in Hsize. rewrite Hs in Hpos.
  destruct (size_of_pos_app _ _ _ Hpos) as (HP & HL0 & HQ).
  rewrite !size_of_app, !size_of_cons in Hsize.
  assert (Heq : n * (L / n) = L) by nia.
  apply Nat.Div0.div_exact. lia.
Qed.

(** X12. The stackers never drop or pad pixels: on a grid whose number of
    lines or of pixels per line is not a multiple of the number of chunks
    along that axis, both raise, whatever the other arrays of the set are.
    [reshape_arrays_in_stacked_chunks] raises the [IndexError] of the
    reshape that cannot infer a whole extent for its [-1];
    [reshape_to_stacked_3d], whose [split] spells the new shape out, raises
    the [ValueError] of a shape of another size. *)
Theorem stacking_rejects_uneven_grids {A} (a : ndarray A) (others : list (ndarray A))
        (cy cx : list nat) (h w : nat) :
  wf a -> shape a = [h; w] -> 0 < h -> 0 < w ->
  0 < length cy -> 0 < length cx ->
  w mod length cx <> 0 \/ h mod length cy <> 0 ->
  reshape_arrays_in_stacked_chunks (a :: others) [cy; cx] = Raise IndexError /\
  reshape_to_stacked_3d (mk_dask a [cy; cx]) = Raise ValueError.
Proof.
  intros Hwf Hs Hh Hw HR HC Hrem.
  assert (Hsize1 : 0 < size_of []) by (unfold size_of; simpl; lia).
  destruct (Nat.eq_dec (w mod length cx) 0) as [Hdiv | Hx].
  - (* the columns divide, the lines do not *)
    destruct Hrem as [Hrem | Hrem]; [contradiction|].
    apply Nat.Div0.div_exact in Hdiv.
    set (s := w / length cx) in *.
    assert (Hspos : 0 < s) by nia.
    assert (Hs' : shape a = [h] ++ (length cx * s) :: []) by (now rewrite Hs, Hdiv).
    assert (Hseq : seq 0 (length cx) = 0 :: seq 1 (length cx - 1)).
    { destruct (length cx) as [|c]; [lia|]. simpl. now rewrite Nat.sub_0_r. }
    set (col := mk_ndarray ([h] ++ s :: [])
                  (take_data (size_of [h]) (length cx) (size_of (s :: [])) 0 (data a))).
    assert (Hcol : wf col).
    { apply (@split_piece_spec A a (length cx) s 0 [h] [] Hwf Hs' HC). }
    assert (Hcolsize : 0 < size_of [s]).
    { rewrite size_of_cons. change (size_of []) with 1. lia. }
    split.
    + unfold reshape_arrays_in_stacked_chunks.
      change (py_index [cy; cx] 1) with (Ok cx). change (py_index [cy; cx] 0) with (Ok cy).
      cbn [bind mapM].
      rewrite (@hsplit_ok A a (length cx) s h [] Hwf Hs' Hh HC Hsize1).
      cbn [bind]. rewrite Hseq. cbn [map mapM]. fold col.
      now rewrite (vsplit_uneven col (length cy) h [s] Hcol eq_refl Hcolsize HR Hrem).
    + unfold reshape_to_stacked_3d. cbn [chunks values].
      change (py_index [cy; cx] (-1)) with (Ok cx).
      change (py_index [cy; cx] (-2)) with (Ok cy).
      cbn [bind].
      rewrite (@split_ok A a (length cx) s (-1) [h] [] Hwf HC Hs').
      2:{ unfold denotes_axis, ndim. rewrite Hs. simpl. split; [lia | right; reflexivity]. }
      cbn [bind]. rewrite Hseq. cbn [map mapM]. fold col.
      rewrite (split_remainder col (length cy) h (-2) [] [s] Hcol).
      * reflexivity.
      * cbn [col shape app]. rewrite !size_of_cons. change (size_of []) with 1. nia.
      * reflexivity.
      * unfold denotes_axis, ndim. simpl. split; [lia | right; reflexivity].
      * exact HR.
      * exact Hrem.
  - (* the columns do not divide *)
    split.
    + unfold reshape_arrays_in_stacked_chunks.
      change (py_index [cy; cx] 1) with (Ok cx). change (py_index [cy; cx] 0) with (Ok cy).
      cbn [bind mapM].
      now rewrite (hsplit_uneven a (length cx) w h [] Hwf Hs Hh Hsize1 HC Hx).
    + unfold reshape_to_stacked_3d. cbn [chunks values].
      change (py_index [cy; cx] (-1)) with (Ok cx).
      change (py_index [cy; cx] (-2)) with (Ok cy).
      cbn [bind].
      rewrite (split_remainder a (length cx) w (-1) [h] [] Hwf).
      * reflexivity.
      * rewrite Hs, !size_of_cons. change (size_of []) with 1. nia.
      * exact Hs.
      * unfold denotes_axis, ndim. rewrite Hs. simpl. split; [lia | right; reflexivity].
      * exact HC.
      * exact Hx.
Qed.

Lemma stacking_rejects_uneven_grids_witness :
  reshape_arrays_in_stacked_chunks [mk_ndarray [4; 3] (seq 0 12)] [[2; 2]; [2; 1]]
  = Raise IndexError /\
  reshape_to_stacked_3d (mk_dask (mk_ndarray [4; 3] (seq 0 12)) [[2; 2]; [2; 1]])
  = Raise ValueError.
Proof.
  apply (stacking_rejects_uneven_grids (mk_ndarray [4; 3] (seq 0 12)) [] [2; 2] [2; 1] 4 3);
    try reflexivity; simpl; lia.
Defined.

(** ** The border of a grid *)

Lemma strided_count (len s k : nat) : 0 < s -> k < (len + s - 1) / s <-> k * s < len.
Proof.
  intros Hs. pose proof (Nat.div_mod_eq (len + s - 1) s) as Hdm.
  pose proof (Nat.mod_upper_bound (len + s - 1) s ltac:(lia)) as Hr.
  set (q := (len + s - 1) / s) in *. set (r := (len + s - 1) mod s) in *.
  split; intros H; nia.
Qed.

Lemma strided_forward (len s : nat) :
  0 < s ->
  strided len (Z.of_nat s) = Ok (map (fun k => k * s) (seq 0 ((len + s - 1) / s))).
Proof.
  intros Hs. unfold strided.
  destruct (Z.eqb_spec (Z.of_nat s) 0); [lia|].
  destruct (Z.ltb_spec 0 (Z.of_nat s)); [|lia].
  now rewrite Zabs2Nat.id.
Qed.

Lemma strided_backward (len s : nat) :
  0 < s ->
  strided len (- Z.of_nat s)
  = Ok (map (fun k => len - 1 - k * s) (seq 0 ((len + s - 1) / s))).
Proof.
  intros Hs. unfold strided.
  destruct (Z.eqb_spec (- Z.of_nat s) 0); [lia|].
  destruct (Z.ltb_spec 0 (- Z.of_nat s)); [lia|].
  replace (Z.abs_nat (- Z.of_nat s)) with s by lia. reflexivity.
Qed.

Lemma flat_map_of_map {X Y B} (f : Y -> list B) (g : X -> Y) (l : list X) :
  flat_map f (map g l) = flat_map (fun x => f (g x)) l.
Proof. induction l as [|x l IH]; simpl; congruence. Qed.

Lemma row_slice_2d {A} (a : ndarray A) (h w r : nat) (i step : Z) (cs : list nat) :
  shape a = [h; w] -> denotes_axis h i r -> strided w step = Ok cs ->
  row_slice a i step
  = Ok (mk_ndarray [length cs]
          (flat_map (fun c => slice ((r * w + c) * 1) 1 (data a)) cs)).
Proof.
  intros Hs Hi Hcs. unfold row_slice. rewrite Hs, (norm_index_denotes Hi), Hcs.
  reflexivity.
Qed.

Lemma col_slice_2d {A} (a : ndarray A) (h w c : nat) (step j : Z) (rs : list nat) :
  shape a = [h; w] -> denotes_axis w j c -> strided h step = Ok rs ->
  col_slice a step j
  = Ok (mk_ndarray [length rs]
          (flat_map (fun r => slice ((r * w + c) * 1) 1 (data a)) rs)).
Proof.
  intros Hs Hj Hrs. unfold col_slice. rewrite Hs, Hrs. cbn [bind].
  rewrite (norm_index_denotes Hj). reflexivity.
Qed.

(** A side of the border: the values at the cells [(row k, col k)]. *)
Lemma side_values {A} (a : ndarray A) (h w n : nat) (row col : nat -> nat) :
  wf a -> shape a = [h; w] ->
  (forall k, k < n -> row k < h /\ col k < w) ->
  length (flat_map (fun k => slice ((row k * w + col k) * 1) 1 (data a)) (seq 0 n)) = n /\
  forall k, k < n ->
    nth_error (flat_map (fun k => slice ((row k * w + col k) * 1) 1 (data a)) (seq 0 n)) k
    = get a [row k; col k].
Proof.
  intros Hwf Hs Hcells.
  assert (Hlen : length (data a) = h * w).
  { unfold wf in Hwf. rewrite Hwf, Hs, !size_of_cons. change (size_of []) with 1. lia. }
  assert (Hunit : forall o, 0 <= o < 0 + n ->
                    length (slice ((row o * w + col o) * 1) 1 (data a)) = 1).
  { intros o Ho. apply length_slice. destruct (Hcells o) as [Hr Hc]; [lia|]. nia. }
  split.
  - rewrite length_flat_map_seq with (len := 1); [lia | exact Hunit].
  - intros k Hk. destruct (Hcells k Hk) as [Hr Hc].
    rewrite (get_2d a Hs Hr Hc).
    transitivity (nth_error (flat_map (fun k => slice ((row k * w + col k) * 1) 1 (data a))
                                      (seq 0 n)) (k * 1 + 0)).
    { f_equal. lia. }
    rewrite nth_error_flat_map_seq with (len := 1); [| exact Hunit | exact Hk | lia].
    rewrite nth_error_slice by lia. cbn [Nat.add]. f_equal. lia.
Qed.

Lemma four_sides {A} (U R D L : list A) (nu nr : nat) :
  length U = nu -> length R = nr -> length D = nu -> length L = nr ->
  (forall k, k < nu -> nth_error (U ++ R ++ D ++ L ++ []) k = nth_error U k) /\
  (forall k, k < nr -> nth_error (U ++ R ++ D ++ L ++ []) (nu + k) = nth_error R k) /\
  (forall k, k < nu -> nth_error (U ++ R ++ D ++ L ++ []) (nu + nr + k) = nth_error D k) /\
  (forall k, k < nr ->
             nth_error (U ++ R ++ D ++ L ++ []) (nu + nr + nu + k) = nth_error L k).
Proof.
  intros HU HR HD HL. repeat split; intros k Hk.
  - now rewrite nth_error_app1 by lia.
  - rewrite nth_error_app2 by lia. rewrite nth_error_app1 by lia. f_equal. lia.
  - rewrite nth_error_app2 by lia. rewrite nth_error_app2 by lia.
    rewrite nth_error_app1 by lia. f_equal. lia.
  - rewrite nth_error_app2 by lia. rewrite nth_error_app2 by lia.
    rewrite nth_error_app2 by lia. rewrite nth_error_app1 by lia. f_equal. lia.
Qed.

(** The four slices of one grid and their concatenation. *)
Lemma border_one_grid {A} (a : ndarray A) (h w sx sy : nat) :
  wf a -> shape a = [h; w] -> 0 < h -> 0 < w -> 0 < sx -> 0 < sy ->
  exists u r d l b,
    row_slice a 0 (Z.of_nat sx) = Ok u /\
    col_slice a (Z.of_nat sy) (-1) = Ok r /\
    row_slice a (-1) (- Z.of_nat sx) = Ok d /\
    col_slice a (- Z.of_nat sy) 0 = Ok l /\
    np_concatenate [u; r; d; l] = Ok b /\
    border_of a h w sx sy b.
Proof.
  intros Hwf Hs Hh Hw Hsx Hsy.
  set (nu := (w + sx - 1) / sx). set (nr := (h + sy - 1) / sy).
  assert (Hnu : forall k, k < nu <-> k * sx < w) by (intros k; now apply strided_count).
  assert (Hnr : forall k, k < nr <-> k * sy < h) by (intros k; now apply strided_count).
  destruct (side_values a h w nu (fun _ => 0) (fun k => k * sx) Hwf Hs) as [LU VU].
  { intros k Hk. apply Hnu in Hk. lia. }
  destruct (side_values a h w nr (fun k => k * sy) (fun _ => w - 1) Hwf Hs) as [LR VR].
  { intros k Hk. apply Hnr in Hk. lia. }
  destruct (side_values a h w nu (fun _ => h - 1) (fun k => w - 1 - k * sx) Hwf Hs)
    as [LD VD].
  { intros k Hk. lia. }
  destruct (side_values a h w nr (fun k => h - 1 - k * sy) (fun _ => 0) Hwf Hs) as [LL VL].
  { intros k Hk. lia. }
  do 5 eexists.
  split. { rewrite (row_slice_2d a h w 0 0 _ _ Hs (denotes_first h Hh) (strided_forward w sx Hsx)).
           rewrite flat_map_of_map, length_map, length_seq. reflexivity. }
  split. { rewrite (col_slice_2d a h w (w - 1) _ (-1) _ Hs (denotes_minus_one w Hw)
                                 (strided_forward h sy Hsy)).
           rewrite flat_map_of_map, length_map, length_seq. reflexivity. }
  split. { rewrite (row_slice_2d a h w (h - 1) (-1) _ _ Hs (denotes_minus_one h Hh)
                                 (strided_backward w sx Hsx)).
           rewrite flat_map_of_map, length_map, length_seq. reflexivity. }
  split. { rewrite (col_slice_2d a h w 0 _ 0 _ Hs (denotes_first w Hw)
                                 (strided_backward h sy Hsy)).
           rewrite flat_map_of_map, length_map, length_seq. reflexivity. }
  split; [reflexivity|].
  fold nu nr.
  destruct (four_sides _ _ _ _ nu nr LU LR LD LL) as (F1 & F2 & F3 & F4).
  exists nu, nr. cbn [shape data map concat hd list_sum fold_right].
  split; [exact Hnu|]. split; [exact Hnr|].
  split; [f_equal; lia|].
  split.
  { unfold wf. cbn [shape data map concat]. rewrite !length_app, LU, LR, LD, LL.
    rewrite size_of_cons. simpl. change (size_of []) with 1. lia. }
  repeat split; intros k Hk.
  - rewrite F1 by exact Hk. now apply VU.
  - rewrite F2 by exact Hk. now apply VR.
  - rewrite F3 by exact Hk. now apply VD.
  - rewrite F4 by exact Hk. now apply VL.
Qed.

(** X14. On non-empty two-dimensional grids and for positive strides,
    [get_border] returns, for each grid, its border walked clockwise from
    the upper left corner: the first line from the left, the last column
    from the top, the last line from the right and the first column from the
    bottom, each side in steps of its stride for as long as it stays on the
    grid.  Every side starts on a corner. *)
Theorem border_walks_the_four_sides {A} (x_coords y_coords : ndarray A)
        (h w h' w' sx sy : nat) :
  wf x_coords -> wf y_coords ->
  shape x_coords = [h; w] -> shape y_coords = [h'; w'] ->
  0 < h -> 0 < w -> 0 < h' -> 0 < w' -> 0 < sx -> 0 < sy ->
  exists x_s y_s,
    get_border x_coords y_coords (Z.of_nat sx) (Z.of_nat sy) = Ok (x_s, y_s) /\
    border_of x_coords h w sx sy x_s /\
    border_of y_coords h' w' sx sy y_s.
Proof.
  intros Hwx Hwy Hsx Hsy Hh Hw Hh' Hw' Hx Hy.
  destruct (border_one_grid x_coords h w sx sy Hwx Hsx Hh Hw Hx Hy)
    as (ux & rx & dx & lx & bx & E1 & E2 & E3 & E4 & E5 & Bx).
  destruct (border_one_grid y_coords h' w' sx sy Hwy Hsy Hh' Hw' Hx Hy)
    as (uy & ry & dy & ly & bY & G1 & G2 & G3 & G4 & G5 & By).
  exists bx, bY. split; [|split; assumption].
  unfold get_border. rewrite E1, E2, E3, E4, G1, G2, G3, G4. cbn [bind].
  rewrite E5, G5. reflexivity.
Qed.

Lemma border_walks_the_four_sides_witness :
  exists x_s y_s,
    get_border (mk_ndarray [2; 3] [10; 11; 12; 20; 21; 22])
               (mk_ndarray [2; 3] [50; 51; 52; 60; 61; 62]) (Z.of_nat 2) (Z.of_nat 1)
    = Ok (x_s, y_s) /\
    border_of (mk_ndarray [2; 3] [10; 11; 12; 20; 21; 22]) 2 3 2 1 x_s /\
    border_of (mk_ndarray [2; 3] [50; 51; 52; 60; 61; 62]) 2 3 2 1 y_s.
Proof.
  apply (border_walks_the_four_sides
           (mk_ndarray [2; 3] [10; 11; 12; 20; 21; 22])
           (mk_ndarray [2; 3] [50; 51; 52; 60; 61; 62]) 2 3 2 3 2 1);
    try reflexivity; lia.
Defined.

Example border_of_2_by_3 :
  get_border (mk_ndarray [2; 3] [10; 11; 12; 20; 21; 22])
             (mk_ndarray [2; 3] [50; 51; 52; 60; 61; 62]) 1 1
  = Ok (mk_ndarray [10] [10; 11; 12; 12; 22; 22; 21; 20; 20; 10],
        mk_ndarray [10] [50; 51; 52; 52; 62; 62; 61; 60; 60; 50]) /\
  get_border (mk_ndarray [2; 3] [10; 11; 12; 20; 21; 22])
             (mk_ndarray [2; 3] [50; 51; 52; 60; 61; 62]) 2 1
  = Ok (mk_ndarray [8] [10; 12; 12; 22; 22; 20; 20; 10],
        mk_ndarray [8] [50; 52; 52; 62; 62; 60; 60; 50]).
Proof. split; reflexivity. Qed.

Lemma side_count_exact (len s n : nat) :
  0 < s -> 0 < len -> (len - 1) mod s = 0 ->
  (forall k, k < n <-> k * s < len) ->
  n = (len - 1) / s + 1 /\ (n - 1) * s = len - 1.
Proof.
  intros Hs Hlen Hdiv Hn.
  apply Nat.Div0.div_exact in Hdiv. set (q := (len - 1) / s) in *.
  assert (H1 : q < n) by (apply Hn; nia).
  assert (H2 : ~ q + 1 < n) by (intros H; apply Hn in H; nia).
  split; [lia|]. replace (n - 1) with q by lia. lia.
Qed.

Lemma sides_of_ring {A} (a b : ndarray A) (h w sx sy : nat) :
  0 < h -> 0 < w -> 0 < sx -> 0 < sy ->
  (w - 1) mod sx = 0 -> (h - 1) mod sy = 0 ->
  border_of a h w sx sy b ->
  sides_meet b ((w - 1) / sx + 1) ((h - 1) / sy + 1).
Proof.
  intros Hh Hw Hsx Hsy Hdx Hdy (nu & nr & Hnu & Hnr & Hshape & _ & VU & VR & VD & VL).
  destruct (side_count_exact w sx nu Hsx Hw Hdx Hnu) as [Enu Elast_u].
  destruct (side_count_exact h sy nr Hsy Hh Hdy Hnr) as [Enr Elast_r].
  rewrite <- Enu, <- Enr.
  assert (Hu0 : 0 < nu) by lia. assert (Hr0 : 0 < nr) by lia.
  assert (U0 : nth_error (data b) 0 = get a [0; 0 * sx]) by (apply VU; lia).
  assert (R0 : nth_error (data b) nu = get a [0 * sy; w - 1])
    by (rewrite <- (VR 0) by lia; f_equal; lia).
  assert (D0 : nth_error (data b) (nu + nr) = get a [h - 1; w - 1 - 0 * sx])
    by (rewrite <- (VD 0) by lia; f_equal; lia).
  assert (L0 : nth_error (data b) (nu + nr + nu) = get a [h - 1 - 0 * sy; 0])
    by (rewrite <- (VL 0) by lia; f_equal; lia).
  assert (Ue : nth_error (data b) (nu - 1) = get a [0; (nu - 1) * sx])
    by (apply VU; lia).
  assert (Re : nth_error (data b) (nu + nr - 1) = get a [(nr - 1) * sy; w - 1])
    by (rewrite <- (VR (nr - 1)) by lia; f_equal; lia).
  assert (De : nth_error (data b) (nu + nr + nu - 1)
               = get a [h - 1; w - 1 - (nu - 1) * sx])
    by (rewrite <- (VD (nu - 1)) by lia; f_equal; lia).
  assert (Le : nth_error (data b) (nu + nr + nu + nr - 1)
               = get a [h - 1 - (nr - 1) * sy; 0])
    by (rewrite <- (VL (nr - 1)) by lia; f_equal; lia).
  split; [exact Hshape|]. repeat split.
  - rewrite Ue, R0, Elast_u. now rewrite ?Nat.mul_0_l, ?Nat.sub_0_r, ?Nat.sub_diag.
  - rewrite Re, D0, Elast_r. now rewrite ?Nat.mul_0_l, ?Nat.sub_0_r, ?Nat.sub_diag.
  - rewrite De, L0, Elast_u. now rewrite ?Nat.mul_0_l, ?Nat.sub_0_r, ?Nat.sub_diag.
  - rewrite Le, U0, Elast_r. now rewrite ?Nat.mul_0_l, ?Nat.sub_0_r, ?Nat.sub_diag.
Qed.

(** X15. When the strides divide the number of steps along the sides - as the
    default strides of one do - the border is a closed ring that lists every
    corner twice: each side ends on the corner the next side starts on, and
    the last point is the first one. *)
Theorem border_is_a_closed_ring {A} (x_coords y_coords : ndarray A)
        (h w sx sy : nat) :
  wf x_coords -> wf y_coords ->
  shape x_coords = [h; w] -> shape y_coords = [h; w] ->
  0 < h -> 0 < w -> 0 < sx -> 0 < sy ->
  (w - 1) mod sx = 0 -> (h - 1) mod sy = 0 ->
  exists x_s y_s,
    get_border x_coords y_coords (Z.of_nat sx) (Z.of_nat sy) = Ok (x_s, y_s) /\
    sides_meet x_s ((w - 1) / sx + 1) ((h - 1) / sy + 1) /\
    sides_meet y_s ((w - 1) / sx + 1) ((h - 1) / sy + 1).
Proof.
  intros Hwx Hwy Hsx Hsy Hh Hw Hx Hy Hdx Hdy.
  destruct (border_one_grid x_coords h w sx sy Hwx Hsx Hh Hw Hx Hy)
    as (ux & rx & dx & lx & bx & E1 & E2 & E3 & E4 & E5 & Bx).
  destruct (border_one_grid y_coords h w sx sy Hwy Hsy Hh Hw Hx Hy)
    as (uy & ry & dy & ly & bY & G1 & G2 & G3 & G4 & G5 & By).
  exists bx, bY. split; [|split].
  - unfold get_border. rewrite E1, E2, E3, E4, G1, G2, G3, G4. cbn [bind].
    rewrite E5, G5. reflexivity.
  - exact (sides_of_ring x_coords bx h w sx sy Hh Hw Hx Hy Hdx Hdy Bx).
  - exact (sides_of_ring y_coords bY h w sx sy Hh Hw Hx Hy Hdx Hdy By).
Qed.

Lemma border_is_a_closed_ring_witness :
  exists x_s y_s,
    get_border (mk_ndarray [2; 3] [10; 11; 12; 20; 21; 22])
               (mk_ndarray [2; 3] [50; 51; 52; 60; 61; 62]) (Z.of_nat 2) (Z.of_nat 1)
    = Ok (x_s, y_s) /\
    sides_meet x_s ((3 - 1) / 2 + 1) ((2 - 1) / 1 + 1) /\
    sides_meet y_s ((3 - 1) / 2 + 1) ((2 - 1) / 1 + 1).
Proof.
  apply (border_is_a_closed_ring
           (mk_ndarray [2; 3] [10; 11; 12; 20; 21; 22])
           (mk_ndarray [2; 3] [50; 51; 52; 60; 61; 62]) 2 3 2 1);
    try reflexivity; lia.
Defined.


(** ** The coordinate set-up of the resampler *)

Section ResamplerFacts.
Variables Coords Proj Chunks : Type.
Variable longlat : Proj.
Variable CHUNK_SIZE : Chunks.
Variable transform :
  option Coords -> option Coords -> Proj -> Proj -> Resampler.outcome (Coords * Coords).

Ltac run_setup :=
  unfold Resampler.compute_setup, Resampler.source_side, Resampler.target_side,
    Resampler.reproject, Resampler.try_except_AttributeError, Resampler.bindA,
    Resampler.call, Resampler.read, Resampler.attribute, Resampler.assign,
    Resampler.raise, Resampler.ret,
    Resampler.set_src, Resampler.set_dst, Resampler.set_src_prj, Resampler.set_dst_prj,
    Resampler.set_use_input_coords, Resampler.__init__ in *;
  cbn [Resampler.source_geo_def Resampler.target_geo_def Resampler.use_input_coords
       Resampler.src_x Resampler.src_y Resampler.dst_x Resampler.dst_y
       Resampler.src_prj Resampler.dst_prj fst snd] in *.

(** The source side returns exactly when the source geometry can be
    located, and then it has assigned the source attributes and
    [use_input_coords]. *)
Lemma source_side_returns (self self' : Resampler.resampler Coords Proj Chunks)
      (datachunks : Chunks) :
  Resampler.source_side longlat datachunks self = (self', Resampler.Returned tt) <->
  exists b x y p,
    Resampler.located longlat (Resampler.source_geo_def self) datachunks b x y p /\
    self' = Resampler.mk_resampler
              (Resampler.source_geo_def self) (Resampler.target_geo_def self)
              (Some b) (Some x) (Some y)
              (Resampler.dst_x self) (Resampler.dst_y self)
              (Some p) (Resampler.dst_prj self).
Proof.
  split.
  - intros H. run_setup.
    destruct (Resampler.get_proj_coords (Resampler.source_geo_def self) datachunks)
      as [[x y]|[|e]] eqn:Hc; run_setup.
    + destruct (Resampler.proj_of_dict (Resampler.source_geo_def self))
        as [p|[|e]] eqn:Hp; run_setup.
      * injection H as <-. exists true, x, y, p. split; [now constructor | reflexivity].
      * destruct (Resampler.get_lonlats (Resampler.source_geo_def self) datachunks)
          as [[lon lat]|e] eqn:Hl; run_setup; [|discriminate].
        injection H as <-. exists false, lon, lat, longlat. split; [|reflexivity].
        constructor; [|exact Hl]. right. split; [now exists (x, y) | exact Hp].
      * discriminate.
    + destruct (Resampler.get_lonlats (Resampler.source_geo_def self) datachunks)
        as [[lon lat]|e] eqn:Hl; run_setup; [|discriminate].
      injection H as <-. exists false, lon, lat, longlat. split; [|reflexivity].
      constructor; [now left | exact Hl].
    + discriminate.
  - intros (b & x & y & p & Hloc & ->).
    destruct Hloc as [x y p Hc Hp | x y [Hc | [[xy Hc] Hp]] Hl]; run_setup.
    + rewrite Hc. run_setup. rewrite Hp. reflexivity.
    + rewrite Hc. run_setup. rewrite Hl. reflexivity.
    + rewrite Hc. run_setup. rewrite Hp. run_setup. rewrite Hl. reflexivity.
Qed.

(** The target side, once [use_input_coords] is decided. *)
Lemma target_side_returns (self self' : Resampler.resampler Coords Proj Chunks) (b : bool) :
  Resampler.use_input_coords self = Some b ->
  Resampler.target_side longlat CHUNK_SIZE self = (self', Resampler.Returned tt) <->
  exists bt x y p,
    Resampler.located longlat (Resampler.target_geo_def self) CHUNK_SIZE bt x y p /\
    (b = true \/ bt = true) /\
    self' = Resampler.mk_resampler
              (Resampler.source_geo_def self) (Resampler.target_geo_def self)
              (Some b) (Resampler.src_x self) (Resampler.src_y self)
              (Some x) (Some y)
              (Resampler.src_prj self) (Some p).
Proof.
  intros Hu. split.
  - intros H. run_setup.
    destruct (Resampler.get_proj_coords (Resampler.target_geo_def self) CHUNK_SIZE)
      as [[x y]|[|e]] eqn:Hc; run_setup.
    + destruct (Resampler.proj_of_dict (Resampler.target_geo_def self))
        as [p|[|e]] eqn:Hp; run_setup.
      * injection H as <-. exists true, x, y, p. rewrite Hu.
        split; [now constructor | split; [now right | reflexivity]].
      * rewrite Hu in H. destruct b; run_setup; [|discriminate].
        destruct (Resampler.get_lonlats (Resampler.target_geo_def self) CHUNK_SIZE)
          as [[lon lat]|e] eqn:Hl; run_setup; [|discriminate].
        injection H as <-. exists false, lon, lat, longlat. rewrite ?Hu.
        split; [|split; [now left | reflexivity]].
        constructor; [|exact Hl]. right. split; [now exists (x, y) | exact Hp].
      * discriminate.
    + rewrite Hu in H. destruct b; run_setup; [|discriminate].
      destruct (Resampler.get_lonlats (Resampler.target_geo_def self) CHUNK_SIZE)
        as [[lon lat]|e] eqn:Hl; run_setup; [|discriminate].
      injection H as <-. exists false, lon, lat, longlat. rewrite ?Hu.
      split; [|split; [now left | reflexivity]].
      constructor; [now left | exact Hl].
    + discriminate.
  - intros (bt & x & y & p & Hloc & Hb & ->).
    destruct Hloc as [x y p Hc Hp | x y [Hc | [[xy Hc] Hp]] Hl]; run_setup.
    + rewrite Hc. run_setup. rewrite Hp. run_setup. now rewrite Hu.
    + destruct Hb as [-> | Hb]; [|discriminate].
      rewrite Hc. run_setup. rewrite Hu. run_setup. rewrite Hl. run_setup.
      now rewrite ?Hu.
    + destruct Hb as [-> | Hb]; [|discriminate].
      rewrite Hc. run_setup. rewrite Hp. run_setup. rewrite Hu. run_setup.
      rewrite Hl. run_setup. now rewrite ?Hu.
Qed.

(** X16. A fresh resampler is set up exactly when both geometries can be located
    and at least one of them has a projection of its own; then exactly one
    side has been reprojected: the destination coordinates into the
    projection of the source when the source has one, and else the
    longitudes and latitudes of the source into the projection of the
    destination.  The other side keeps the coordinates of its geometry. *)
Theorem setup_reprojects_one_side
        (source target : Resampler.geo_def Coords Proj Chunks) (datachunks : Chunks)
        (self' : Resampler.resampler Coords Proj Chunks) :
  Resampler.compute_setup longlat CHUNK_SIZE transform datachunks
                          (Resampler.__init__ source target)
  = (self', Resampler.Returned tt) <->
  exists bs sx sy sp bt dx dy dp tx ty,
    Resampler.located longlat source datachunks bs sx sy sp /\
    Resampler.located longlat target CHUNK_SIZE bt dx dy dp /\
    (bs = true \/ bt = true) /\
    (if bs then transform (Some dx) (Some dy) dp sp
     else transform (Some sx) (Some sy) sp dp) = Resampler.Returned (tx, ty) /\
    self' = if bs
            then Resampler.mk_resampler source target (Some true)
                   (Some sx) (Some sy) (Some tx) (Some ty) (Some sp) (Some dp)
            else Resampler.mk_resampler source target (Some false)
                   (Some tx) (Some ty) (Some dx) (Some dy) (Some sp) (Some dp).
Proof.
  unfold Resampler.compute_setup, Resampler.__init__.
  unfold Resampler.bindA at 1. unfold Resampler.read at 1.
  cbn [Resampler.use_input_coords].
  unfold Resampler.bindA at 1.
  split.
  - intros H.
    destruct (Resampler.source_side longlat datachunks
                (Resampler.mk_resampler source target None None None None None None None))
      as [self1 [[]|e1]] eqn:Hs; [|discriminate].
    apply source_side_returns in Hs. destruct Hs as (bs & sx & sy & sp & Hloc & ->).
    cbn [Resampler.source_geo_def Resampler.target_geo_def Resampler.dst_x Resampler.dst_y
         Resampler.dst_prj] in *.
    unfold Resampler.bindA at 1 in H.
    destruct (Resampler.target_side longlat CHUNK_SIZE _) as [self2 [[]|e2]] eqn:Ht;
      [|discriminate].
    apply (target_side_returns
             (Resampler.mk_resampler source target (Some bs) (Some sx) (Some sy)
                                     None None (Some sp) None)
             self2 bs eq_refl) in Ht.
    destruct Ht as (bt & dx & dy & dp & Hloct & Hb & ->).
    cbn [Resampler.source_geo_def Resampler.target_geo_def Resampler.src_x Resampler.src_y
         Resampler.src_prj] in *.
    run_setup.
    destruct bs; run_setup.
    + destruct (transform (Some dx) (Some dy) dp sp) as [[tx ty]|e] eqn:Htr;
        run_setup; [|discriminate].
      injection H as <-.
      exists true, sx, sy, sp, bt, dx, dy, dp, tx, ty. repeat split; assumption.
    + destruct (transform (Some sx) (Some sy) sp dp) as [[tx ty]|e] eqn:Htr;
        run_setup; [|discriminate].
      injection H as <-.
      exists false, sx, sy, sp, bt, dx, dy, dp, tx, ty. repeat split; assumption.
  - intros (bs & sx & sy & sp & bt & dx & dy & dp & tx & ty & Hs & Ht & Hb & Htr & ->).
    rewrite (proj2 (source_side_returns
                      (Resampler.mk_resampler source target None None None None None None None)
                      _ datachunks)
                   (ex_intro _ bs (ex_intro _ sx (ex_intro _ sy (ex_intro _ sp
                      (conj Hs eq_refl)))))).
    cbn [Resampler.source_geo_def Resampler.target_geo_def Resampler.dst_x Resampler.dst_y
         Resampler.dst_prj].
    unfold Resampler.bindA at 1.
    rewrite (proj2 (target_side_returns
                      (Resampler.mk_resampler source target (Some bs) (Some sx) (Some sy)
                                              None None (Some sp) None)
                      _ bs eq_refl)
                   (ex_intro _ bt (ex_intro _ dx (ex_intro _ dy (ex_intro _ dp
                      (conj Ht (conj Hb eq_refl))))))).
    run_setup. destruct bs; simpl in Htr; run_setup; rewrite Htr; reflexivity.
Qed.

Ltac crunch_setup :=
  repeat (run_setup;
          match goal with
          | |- context [match ?c with _ => _ end] =>
              lazymatch type of c with
              | Resampler.outcome _ => destruct c eqn:?
              | Resampler.py_error => destruct c
              | option _ => destruct c eqn:?
              | bool => destruct c
              | prod _ _ => is_var c; destruct c
              end
          end);
  run_setup; try reflexivity; try congruence.

Lemma source_side_raises_keep (self self' : Resampler.resampler Coords Proj Chunks)
      (datachunks : Chunks) (e : Resampler.py_error) :
  Resampler.source_side longlat datachunks self = (self', Resampler.Raised e) ->
  Resampler.use_input_coords self' = Resampler.use_input_coords self.
Proof.
  intros H.
  replace self' with (fst (Resampler.source_side longlat datachunks self))
    by (now rewrite H).
  assert (He : snd (Resampler.source_side longlat datachunks self) = Resampler.Raised e)
    by (now rewrite H).
  clear H. revert He. crunch_setup.
Qed.

Lemma target_side_keeps_use (self : Resampler.resampler Coords Proj Chunks) :
  Resampler.use_input_coords (fst (Resampler.target_side longlat CHUNK_SIZE self))
  = Resampler.use_input_coords self.
Proof. crunch_setup. Qed.

Lemma reproject_keeps_use (self : Resampler.resampler Coords Proj Chunks) :
  Resampler.use_input_coords (fst (Resampler.reproject transform self))
  = Resampler.use_input_coords self.
Proof. crunch_setup. Qed.

(** X17. A set-up that raises is tried again by the next call only when it
    failed on the source side.  Once the source side has returned,
    [use_input_coords] is set: when the target side or the transform raises
    afterwards, every later call skips the block and returns, with the
    attributes as the failed call left them. *)
Theorem failed_setup_is_retried_only_for_the_source
        (self self' : Resampler.resampler Coords Proj Chunks)
        (datachunks : Chunks) (e : Resampler.py_error) :
  Resampler.use_input_coords self = None ->
  Resampler.compute_setup longlat CHUNK_SIZE transform datachunks self
  = (self', Resampler.Raised e) ->
  (Resampler.source_side longlat datachunks self = (self', Resampler.Raised e) /\
   Resampler.use_input_coords self' = None) \/
  ((exists self1,
       Resampler.source_side longlat datachunks self = (self1, Resampler.Returned tt)) /\
   Resampler.use_input_coords self' <> None /\
   forall chunks',
     Resampler.compute_setup longlat CHUNK_SIZE transform chunks' self'
     = (self', Resampler.Returned tt)).
Proof.
  intros Hu H. unfold Resampler.compute_setup in H.
  unfold Resampler.bindA at 1 in H. unfold Resampler.read at 1 in H.
  rewrite Hu in H. unfold Resampler.bindA at 1 in H.
  destruct (Resampler.source_side longlat datachunks self) as [self1 [[]|e1]] eqn:Hs.
  - right. split; [now exists self1|].
    assert (U1 : exists b, Resampler.use_input_coords self1 = Some b).
    { apply source_side_returns in Hs. destruct Hs as (b & x & y & p & _ & ->).
      now exists b. }
    destruct U1 as [b U1].
    assert (U' : Resampler.use_input_coords self' = Some b).
    { unfold Resampler.bindA at 1 in H.
      pose proof (target_side_keeps_use self1) as K1.
      destruct (Resampler.target_side longlat CHUNK_SIZE self1) as [self2 [[]|e2]].
      - pose proof (reproject_keeps_use self2) as K2. rewrite H in K2.
        cbn [fst] in K1, K2. congruence.
      - injection H as <- _. cbn [fst] in K1. congruence. }
    split; [congruence|].
    intros chunks'. unfold Resampler.compute_setup, Resampler.bindA, Resampler.read.
    now rewrite U'.
  - left. injection H as <- <-. split; [reflexivity|].
    rewrite (source_side_raises_keep _ _ _ _ Hs). exact Hu.
Qed.

(** X18. Two geometries without projection are rejected with
    [NotImplementedError], but only once: the failed call leaves
    [use_input_coords] at [False] and the destination coordinates at [None],
    so every later call skips the set-up and returns. *)
Theorem lonlat_to_lonlat_is_rejected_only_once
        (source target : Resampler.geo_def Coords Proj Chunks) (datachunks : Chunks)
        (lon lat : Coords) :
  Resampler.located longlat source datachunks false lon lat longlat ->
  Resampler.get_proj_coords target CHUNK_SIZE = Resampler.Raised Resampler.AttributeError ->
  Resampler.compute_setup longlat CHUNK_SIZE transform datachunks
                          (Resampler.__init__ source target)
  = (Resampler.mk_resampler source target (Some false) (Some lon) (Some lat)
                            None None (Some longlat) None,
     Resampler.Raised
       (Resampler.OtherError (NotImplementedError Resampler.lonlat_message))) /\
  forall chunks',
    Resampler.compute_setup longlat CHUNK_SIZE transform chunks'
      (Resampler.mk_resampler source target (Some false) (Some lon) (Some lat)
                              None None (Some longlat) None)
    = (Resampler.mk_resampler source target (Some false) (Some lon) (Some lat)
                              None None (Some longlat) None,
       Resampler.Returned tt).
Proof.
  intros Hloc Hc. split; [|reflexivity].
  unfold Resampler.compute_setup, Resampler.__init__.
  unfold Resampler.bindA at 1. unfold Resampler.read at 1.
  cbn [Resampler.use_input_coords].
  unfold Resampler.bindA at 1.
  rewrite (proj2 (source_side_returns
                    (Resampler.mk_resampler source target None None None None None None None)
                    _ datachunks)
                 (ex_intro _ false (ex_intro _ lon (ex_intro _ lat (ex_intro _ longlat
                    (conj Hloc eq_refl)))))).
  cbn [Resampler.source_geo_def Resampler.target_geo_def Resampler.dst_x Resampler.dst_y
       Resampler.dst_prj].
  run_setup. rewrite Hc. reflexivity.
Qed.

End ResamplerFacts.

Lemma setup_reprojects_one_side_witness :
  Resampler.compute_setup 0 tt Resampler.shift tt
    (Resampler.__init__ (Resampler.swath_def 3 4) (Resampler.area_def 10 20 7))
  = (Resampler.mk_resampler (Resampler.swath_def 3 4) (Resampler.area_def 10 20 7)
       (Some false) (Some 10) (Some 11) (Some 10) (Some 20) (Some 0) (Some 7),
     Resampler.Returned tt).
Proof.
  apply (proj2 (setup_reprojects_one_side nat nat unit 0 tt Resampler.shift
                  (Resampler.swath_def 3 4) (Resampler.area_def 10 20 7) tt _)).
  exists false, 3, 4, 0, true, 10, 20, 7, 10, 11.
  split; [|split; [|split; [|split]]].
  - apply Resampler.located_lonlat; [left|]; reflexivity.
  - apply Resampler.located_projected; reflexivity.
  - now right.
  - reflexivity.
  - reflexivity.
Defined.

Lemma failed_setup_is_retried_only_for_the_source_witness :
  (Resampler.source_side 0 tt
     (Resampler.__init__ (Resampler.swath_def 3 4) (Resampler.swath_def 5 6))
   = (Resampler.mk_resampler (Resampler.swath_def 3 4) (Resampler.swath_def 5 6)
        (Some false) (Some 3) (Some 4) None None (Some 0) None,
      Resampler.Raised (Resampler.OtherError (NotImplementedError Resampler.lonlat_message))) /\
   Resampler.use_input_coords
     (Resampler.mk_resampler (Resampler.swath_def 3 4) (Resampler.swath_def 5 6)
        (Some false) (Some 3) (Some 4) None None (Some 0) None) = None) \/
  ((exists self1,
       Resampler.source_side 0 tt
         (Resampler.__init__ (Resampler.swath_def 3 4) (Resampler.swath_def 5 6))
       = (self1, Resampler.Returned tt)) /\
   Resampler.use_input_coords
     (Resampler.mk_resampler (Resampler.swath_def 3 4) (Resampler.swath_def 5 6)
        (Some false) (Some 3) (Some 4) None None (Some 0) None) <> None /\
   forall chunks',
     Resampler.compute_setup 0 tt Resampler.shift chunks'
       (Resampler.mk_resampler (Resampler.swath_def 3 4) (Resampler.swath_def 5 6)
          (Some false) (Some 3) (Some 4) None None (Some 0) None)
     = (Resampler.mk_resampler (Resampler.swath_def 3 4) (Resampler.swath_def 5 6)
          (Some false) (Some 3) (Some 4) None None (Some 0) None,
        Resampler.Returned tt)).
Proof.
  apply (failed_setup_is_retried_only_for_the_source nat nat unit 0 tt Resampler.shift
           (Resampler.__init__ (Resampler.swath_def 3 4) (Resampler.swath_def 5 6))
           _ tt
           (Resampler.OtherError (NotImplementedError Resampler.lonlat_message)));
    reflexivity.
Defined.

Lemma lonlat_to_lonlat_is_rejected_only_once_witness :
  Resampler.compute_setup 0 tt Resampler.shift tt
    (Resampler.__init__ (Resampler.swath_def 3 4) (Resampler.swath_def 5 6))
  = (Resampler.mk_resampler (Resampler.swath_def 3 4) (Resampler.swath_def 5 6)
       (Some false) (Some 3) (Some 4) None None (Some 0) None,
     Resampler.Raised (Resampler.OtherError (NotImplementedError Resampler.lonlat_message))) /\
  forall chunks',
    Resampler.compute_setup 0 tt Resampler.shift chunks'
      (Resampler.mk_resampler (Resampler.swath_def 3 4) (Resampler.swath_def 5 6)
         (Some false) (Some 3) (Some 4) None None (Some 0) None)
    = (Resampler.mk_resampler (Resampler.swath_def 3 4) (Resampler.swath_def 5 6)
         (Some false) (Some 3) (Some 4) None None (Some 0) None,
       Resampler.Returned tt).
Proof.
  apply (lonlat_to_lonlat_is_rejected_only_once nat nat unit 0 tt Resampler.shift
           (Resampler.swath_def 3 4) (Resampler.swath_def 5 6) tt 3 4).
  - apply Resampler.located_lonlat; [left|]; reflexivity.
  - reflexivity.
Defined.


(** ** Source tiles with corners in space *)

Lemma np_split_tiles {A} (a : ndarray A) :
  shape a <> [] -> 0 < tile_axis a ->
  np_split a (tile_axis a) (-1) = Ok (map (tile_block a) (seq 0 (tile_axis a))).
Proof.
  intros Hs Hnz. unfold np_split.
  rewrite (norm_index_denotes (@denotes_last A a Hs)).
  pose proof (@shape_split_last A a Hs) as Hsh.
  assert (Hdim : nth (length (removelast (shape a))) (shape a) 0 = tile_axis a).
  { rewrite Hsh at 2. apply nth_app_exact. }
  assert (Hpre : firstn (length (removelast (shape a))) (shape a) = removelast (shape a)).
  { rewrite Hsh at 2. apply firstn_app_exact. }
  assert (Hpost : skipn (S (length (removelast (shape a)))) (shape a) = []).
  { rewrite Hsh at 2. apply skipn_S_app_exact. }
  cbv zeta. rewrite Hdim, Hpre, Hpost.
  destruct (Nat.eqb_spec (tile_axis a) 0); [lia|].
  rewrite Nat.Div0.mod_same, Nat.div_same by lia. cbn [Nat.eqb].
  reflexivity.
Qed.

(** A corner of a tile of a stacked coordinate array. *)
Lemma item2_tile {A} (a : ndarray A) (sr sc nz t r c : nat) (i j : Z) :
  wf a -> shape a = [sr; sc; nz] -> t < nz ->
  denotes_axis sr i r -> denotes_axis sc j c ->
  exists v, get a [r; c; t] = Some v /\ item2 (tile_block a t) i j = Ok [v].
Proof.
  intros Hwf Hs Ht Hi Hj.
  assert (Hr : r < sr) by apply Hi. assert (Hc : c < sc) by apply Hj.
  assert (Hlen : length (data a) = sr * sc * nz).
  { unfold wf in Hwf. rewrite Hwf, Hs, !size_of_cons. change (size_of []) with 1. lia. }
  assert (Hcell : r * sc + c < sr * sc) by nia.
  assert (Hpos : (r * sc + c) * nz + t < sr * sc * nz).
  { set (p := r * sc + c) in *. set (n := sr * sc) in *. nia. }
  destruct (nth_error (data a) ((r * sc + c) * nz + t)) as [v|] eqn:Hv.
  2:{ apply nth_error_None in Hv. lia. }
  exists v. split.
  - rewrite (get_3d a Hs Hr Hc Ht), <- Hv. f_equal. ring.
  - unfold item2, tile_block. rewrite Hs. cbn [shape data removelast app last].
    rewrite (norm_index_denotes Hi), (norm_index_denotes Hj). cbv zeta.
    rewrite !size_of_cons. change (size_of []) with 1. rewrite !Nat.mul_1_r.
    f_equal. apply slice_one.
    unfold section_data.
    transitivity (nth_error
                    (flat_map (fun o => slice ((o * nz + t * 1) * 1) (1 * 1) (data a))
                              (seq 0 (sr * sc))) ((r * sc + c) * 1 + 0)).
    { f_equal. lia. }
    rewrite nth_error_flat_map_seq with (len := 1); [| | nia | lia].
    + rewrite nth_error_slice by lia. rewrite <- Hv. f_equal. lia.
    + intros o Ho. apply length_slice. nia.
Qed.

(** The boundary of a tile holds its finite corner points. *)
Lemma tile_boundary (x y : ndarray f64) (sr sc nz t : nat) :
  wf x -> wf y -> shape x = [sr; sc; nz] -> shape y = [sr; sc; nz] ->
  0 < sr -> 0 < sc -> t < nz ->
  exists b,
    get_boundary (tile_block x t) (tile_block y t) = Ok b /\
    length b = length (filter finite_point (tile_corner_points x y sr sc t)).
Proof.
  intros Hwx Hwy Hsx Hsy Hr Hc Ht.
  destruct (item2_tile x sr sc nz t 0 0 0 0 Hwx Hsx Ht
                       (denotes_first sr Hr) (denotes_first sc Hc)) as (x1 & Gx1 & Ix1).
  destruct (item2_tile x sr sc nz t 0 (sc - 1) 0 (-1) Hwx Hsx Ht
                       (denotes_first sr Hr) (denotes_minus_one sc Hc)) as (x2 & Gx2 & Ix2).
  destruct (item2_tile x sr sc nz t (sr - 1) (sc - 1) (-1) (-1) Hwx Hsx Ht
                       (denotes_minus_one sr Hr) (denotes_minus_one sc Hc))
    as (x3 & Gx3 & Ix3).
  destruct (item2_tile x sr sc nz t (sr - 1) 0 (-1) 0 Hwx Hsx Ht
                       (denotes_minus_one sr Hr) (denotes_first sc Hc)) as (x4 & Gx4 & Ix4).
  destruct (item2_tile y sr sc nz t 0 0 0 0 Hwy Hsy Ht
                       (denotes_first sr Hr) (denotes_first sc Hc)) as (y1 & Gy1 & Iy1).
  destruct (item2_tile y sr sc nz t 0 (sc - 1) 0 (-1) Hwy Hsy Ht
                       (denotes_first sr Hr) (denotes_minus_one sc Hc)) as (y2 & Gy2 & Iy2).
  destruct (item2_tile y sr sc nz t (sr - 1) (sc - 1) (-1) (-1) Hwy Hsy Ht
                       (denotes_minus_one sr Hr) (denotes_minus_one sc Hc))
    as (y3 & Gy3 & Iy3).
  destruct (item2_tile y sr sc nz t (sr - 1) 0 (-1) 0 Hwy Hsy Ht
                       (denotes_minus_one sr Hr) (denotes_first sc Hc)) as (y4 & Gy4 & Iy4).
  unfold get_boundary, get_corners, tile_corner_points.
  rewrite Ix1, Ix2, Ix3, Ix4, Iy1, Iy2, Iy3, Iy4.
  cbn [map fst snd]. rewrite Gx1, Gx2, Gx3, Gx4, Gy1, Gy2, Gy3, Gy4.
  cbn [bind fst snd combine finite_corners scalar_of filter finite_point].
  destruct (isfinite x1), (isfinite y1), (isfinite x2), (isfinite y2),
           (isfinite x3), (isfinite y3), (isfinite x4), (isfinite y4);
    cbn [bind andb]; eexists; split; reflexivity.
Qed.

Lemma mapM_raises {X Y} (f : X -> result Y) (l : list X) (e : exn) :
  (forall x, In x l -> (exists y, f x = Ok y) \/ f x = Raise e) ->
  (exists x, In x l /\ f x = Raise e) ->
  mapM f l = Raise e.
Proof.
  induction l as [|x l IH]; intros Hall (x0 & Hin & Hx0); [contradiction|].
  cbn [mapM]. destruct (Hall x (or_introl eq_refl)) as [[y Hy] | Hx].
  - rewrite Hy. cbn [bind]. rewrite IH; [reflexivity | |].
    + intros z Hz. apply Hall. now right.
    + destruct Hin as [-> | Hin]; [congruence|]. now exists x0.
  - now rewrite Hx.
Qed.

Lemma combine_maps {X Y Z} (f : X -> Y) (g : X -> Z) (l : list X) :
  combine (map f l) (map g l) = map (fun t => (f t, g t)) l.
Proof. induction l as [|x l IH]; simpl; congruence. Qed.

(** X19. A source tile with one or two finite corners stops the culling with the
    [ValueError] of the polygon constructor, whatever the geometry engine
    would answer and even when the destination has no area: the tile
    polygons are built before the first tile is decided on.  Stated for
    coordinate arrays of shape [(sr, sc, nz)]. *)
Theorem tile_of_two_corners_stops_the_culling
        (area : polygon -> f64) (intersects : polygon -> polygon -> result bool)
        (a0 a1 a2 : ndarray f64) (others : list (ndarray f64))
        (dst_x dst_y : ndarray f64) (dp : polygon) (sr sc nz t : nat) :
  get_polygon dst_x dst_y = Ok dp ->
  py_index (shape a0) (-1) = Ok nz ->
  wf a1 -> wf a2 -> shape a1 = [sr; sc; nz] -> shape a2 = [sr; sc; nz] ->
  0 < sr -> 0 < sc -> t < nz ->
  0 < length (filter finite_point (tile_corner_points a1 a2 sr sc t)) < 3 ->
  remove_extra_chunks area intersects (a0 :: a1 :: a2 :: others) dst_x dst_y
  = Raise ValueError.
Proof.
  intros Hdp Hnz Hw1 Hw2 Hs1 Hs2 Hr Hc Ht Hcount.
  unfold remove_extra_chunks. rewrite Hdp. cbn [bind].
  rewrite py_index_0. cbn [bind]. rewrite Hnz. cbn [bind].
  assert (E1 : py_index (a0 :: a1 :: a2 :: others) 1 = Ok a1).
  { apply (@py_index_denotes _ [a0] (a2 :: others) a1 1).
    cbn [length app]. split; [lia | left; reflexivity]. }
  assert (E2 : py_index (a0 :: a1 :: a2 :: others) 2 = Ok a2).
  { apply (@py_index_denotes _ [a0; a1] others a2 2).
    cbn [length app]. split; [lia | left; reflexivity]. }
  rewrite E1. cbn [bind]. rewrite E2. cbn [bind].
  assert (T1 : tile_axis a1 = nz) by (unfold tile_axis; now rewrite Hs1).
  assert (T2 : tile_axis a2 = nz) by (unfold tile_axis; now rewrite Hs2).
  assert (N1 : shape a1 <> []) by (rewrite Hs1; discriminate).
  assert (N2 : shape a2 <> []) by (rewrite Hs2; discriminate).
  rewrite <- T1 at 1. rewrite (np_split_tiles a1 N1) by lia. cbn [bind].
  rewrite <- T2 at 1. rewrite (np_split_tiles a2 N2) by lia. cbn [bind].
  rewrite T1, T2, combine_maps.
  rewrite (mapM_raises _ _ ValueError); [reflexivity | |].
  - intros xy Hxy. apply in_map_iff in Hxy. destruct Hxy as (u & <- & Hu).
    apply in_seq in Hu. cbn [fst snd].
    destruct (tile_boundary a1 a2 sr sc nz u Hw1 Hw2 Hs1 Hs2 Hr Hc ltac:(lia))
      as (b & Hb & _).
    rewrite (get_polygon_boundary _ _ Hb). unfold Polygon.
    destruct (length b) as [|[|[|n]]]; [left; eauto | now right | now right | left; eauto].
  - exists (tile_block a1 t, tile_block a2 t). split.
    + apply in_map_iff. exists t. split; [reflexivity | apply in_seq; lia].
    + cbn [fst snd].
      destruct (tile_boundary a1 a2 sr sc nz t Hw1 Hw2 Hs1 Hs2 Hr Hc Ht) as (b & Hb & Hlen).
      rewrite (get_polygon_boundary _ _ Hb). unfold Polygon. rewrite Hlen.
      destruct (length (filter finite_point (tile_corner_points a1 a2 sr sc t)))
        as [|[|[|n]]]; try lia; reflexivity.
Qed.

Lemma tile_of_two_corners_stops_the_culling_witness :
  remove_extra_chunks Demo.area Demo.intersects
    (mk_ndarray [1; 1; 2; 2] [Finite 7; Finite 8; Finite 9; Finite 10]
     :: mk_ndarray [1; 2; 2] [Finite 0; Finite 0; Finite 1; PosInf]
     :: mk_ndarray [1; 2; 2] [Finite 0; Finite 0; Finite 0; Finite 0] :: [])
    Demo.dst_point Demo.dst_point
  = Raise ValueError.
Proof.
  apply (tile_of_two_corners_stops_the_culling Demo.area Demo.intersects _ _ _ []
           Demo.dst_point Demo.dst_point
           (mk_polygon [(Finite 0, Finite 0); (Finite 0, Finite 0);
                        (Finite 0, Finite 0); (Finite 0, Finite 0)])
           1 2 2 1);
    try reflexivity; try lia.
  simpl. lia.
Defined.


(** ** The culling of a destination without area *)

Lemma source_polygons_of_degenerate_tile
      (a0 a1 a2 : ndarray f64) (others : list (ndarray f64)) (sr sc nz t : nat) :
  py_index (shape a0) (-1) = Ok nz ->
  wf a1 -> wf a2 -> shape a1 = [sr; sc; nz] -> shape a2 = [sr; sc; nz] ->
  0 < sr -> 0 < sc -> t < nz ->
  0 < length (filter finite_point (tile_corner_points a1 a2 sr sc t)) < 3 ->
  source_polygons (a0 :: a1 :: a2 :: others) = Raise ValueError.
Proof.
  intros Hnz Hw1 Hw2 Hs1 Hs2 Hr Hc Ht Hcount.
  unfold source_polygons. rewrite py_index_0. cbn [bind]. rewrite Hnz. cbn [bind].
  assert (E1 : py_index (a0 :: a1 :: a2 :: others) 1 = Ok a1).
  { apply (@py_index_denotes _ [a0] (a2 :: others) a1 1).
    cbn [length app]. split; [lia | left; reflexivity]. }
  assert (E2 : py_index (a0 :: a1 :: a2 :: others) 2 = Ok a2).
  { apply (@py_index_denotes _ [a0; a1] others a2 2).
    cbn [length app]. split; [lia | left; reflexivity]. }
  rewrite E1. cbn [bind]. rewrite E2. cbn [bind].
  assert (T1 : tile_axis a1 = nz) by (unfold tile_axis; now rewrite Hs1).
  assert (T2 : tile_axis a2 = nz) by (unfold tile_axis; now rewrite Hs2).
  assert (N1 : shape a1 <> []) by (rewrite Hs1; discriminate).
  assert (N2 : shape a2 <> []) by (rewrite Hs2; discriminate).
  rewrite <- T1 at 1. rewrite (np_split_tiles a1 N1) by lia. cbn [bind].
  rewrite <- T2 at 1. rewrite (np_split_tiles a2 N2) by lia. cbn [bind].
  rewrite T1, T2, combine_maps.
  apply mapM_raises.
  - intros xy Hxy. apply in_map_iff in Hxy. destruct Hxy as (u & <- & Hu).
    apply in_seq in Hu. cbn [fst snd].
    destruct (tile_boundary a1 a2 sr sc nz u Hw1 Hw2 Hs1 Hs2 Hr Hc ltac:(lia))
      as (b & Hb & _).
    rewrite (get_polygon_boundary _ _ Hb). unfold Polygon.
    destruct (length b) as [|[|[|n]]]; [left; eauto | now right | now right | left; eauto].
  - exists (tile_block a1 t, tile_block a2 t). split.
    + apply in_map_iff. exists t. split; [reflexivity | apply in_seq; lia].
    + cbn [fst snd].
      destruct (tile_boundary a1 a2 sr sc nz t Hw1 Hw2 Hs1 Hs2 Hr Hc Ht) as (b & Hb & Hlen).
      rewrite (get_polygon_boundary _ _ Hb). unfold Polygon. rewrite Hlen.
      destruct (length (filter finite_point (tile_corner_points a1 a2 sr sc t)))
        as [|[|[|n]]]; try lia; reflexivity.
Qed.

(** C3 (what the code does). The culling fails open only once every tile
    polygon is built.  When they all are: a destination polygon of area zero
    gives every array back unchanged, all tiles kept, whatever the
    intersection test would do; and when the test only ever answers or
    fails with a topological error, the culling returns normally and every
    tile on which the test failed is among the kept tiles.  But the tile
    polygons are built before the loop that holds the handler and the test
    on the area, so the geometry of the tiles does matter: a tile with one
    or two finite corners makes the culling raise [ValueError], whatever the
    area of the destination is - zero included - and whatever the test
    would answer. *)
Theorem culling_fails_open_past_the_polygons
        (area : polygon -> f64) (intersects : polygon -> polygon -> result bool)
        (arrays : list (ndarray f64)) (dst_x dst_y : ndarray f64) (dp : polygon) :
  get_polygon dst_x dst_y = Ok dp ->
  (forall nz sps,
      stacked_set nz arrays -> source_polygons arrays = Ok sps ->
      f64_eqb (area dp) (Finite 0) = true ->
      kept_tiles area intersects dp sps = seq 0 nz /\
      remove_extra_chunks area intersects arrays dst_x dst_y = Ok arrays) /\
  (forall nz sps,
      stacked_set nz arrays -> source_polygons arrays = Ok sps ->
      Forall (decided_or_topological intersects dp) sps ->
      let kept := kept_tiles area intersects dp sps in
      remove_extra_chunks area intersects arrays dst_x dst_y
      = Ok (map (select_tiles kept) arrays) /\
      (forall arr, In arr arrays ->
         tile_axis (select_tiles kept arr) = length kept /\
         forall k I, k < length kept -> length I = length (removelast (shape arr)) ->
           get (select_tiles kept arr) (I ++ [k]) = get arr (I ++ [nth k kept 0])) /\
      forall t sp, nth_error sps t = Some sp ->
                   intersects dp sp = Raise TopologicalError -> In t kept) /\
  (forall a0 a1 a2 others sr sc nz t,
      arrays = a0 :: a1 :: a2 :: others ->
      py_index (shape a0) (-1) = Ok nz ->
      wf a1 -> wf a2 -> shape a1 = [sr; sc; nz] -> shape a2 = [sr; sc; nz] ->
      0 < sr -> 0 < sc -> t < nz ->
      0 < length (filter finite_point (tile_corner_points a1 a2 sr sc t)) < 3 ->
      remove_extra_chunks area intersects arrays dst_x dst_y = Raise ValueError).
Proof.
  intros Hdp. split; [|split].
  - intros nz sps Hset Hsps Harea.
    pose proof (@source_polygons_length arrays nz sps Hset Hsps) as Hlen.
    pose proof (@kept_tiles_zero_area area intersects dp sps Harea) as Hall.
    rewrite Hlen in Hall. split; [exact Hall|].
    destruct (@culling_spec area intersects arrays dst_x dst_y nz dp sps
                            Hset Hdp Hsps (or_introl Harea)) as [Hrun _].
    rewrite Hrun, Hall. f_equal. apply map_id_on. intros arr Harr.
    destruct (Hset arr Harr) as (Hwf & Hs & <-). now apply select_all.
  - intros nz sps Hset Hsps Hsafe kept.
    destruct (@culling_spec area intersects arrays dst_x dst_y nz dp sps
                            Hset Hdp Hsps (or_intror Hsafe)) as [Hrun Hget].
    split; [exact Hrun|]. split; [exact Hget|].
    intros t sp Ht Herr. apply kept_tiles_In. exists sp. split; [exact Ht|].
    now apply keeps_on_topological_error.
  - intros a0 a1 a2 others sr sc nz t -> Hnz Hw1 Hw2 Hs1 Hs2 Hr Hc Ht Hcount.
    rewrite remove_extra_chunks_factor, Hdp. cbn [bind].
    now rewrite (source_polygons_of_degenerate_tile a0 a1 a2 others sr sc nz t
                   Hnz Hw1 Hw2 Hs1 Hs2 Hr Hc Ht Hcount).
Qed.

Lemma culling_fails_open_past_the_polygons_witness :
  f64_eqb (Demo.area (mk_polygon (repeat (Finite 0, Finite 0) 4))) (Finite 0) = true /\
  remove_extra_chunks Demo.area Demo.fragile_intersects
                      Demo.stacked44 Demo.dst_point Demo.dst_point
  = Ok Demo.stacked44 /\
  remove_extra_chunks Demo.area Demo.fragile_intersects
    [mk_ndarray [1; 2; 2; 2] (repeat (Finite 5) 8);
     mk_ndarray [2; 2; 2] [Finite 0; Finite 2; Finite 1; Finite 3;
                           Finite 0; Finite 2; Finite 1; Finite 3];
     mk_ndarray [2; 2; 2] [Finite 0; Finite 0; Finite 0; PosInf;
                           Finite 1; PosInf; Finite 1; Finite 1]]
    Demo.dst_point Demo.dst_point
  = Raise ValueError.
Proof.
  split; [reflexivity|]. split.
  - apply (proj1 (@culling_fails_open_past_the_polygons
                    Demo.area Demo.fragile_intersects
                    Demo.stacked44 Demo.dst_point Demo.dst_point
                    (mk_polygon (repeat (Finite 0, Finite 0) 4)) eq_refl)
                 4 [Demo.quad 0 0; Demo.quad 0 2; Demo.quad 2 0; Demo.quad 2 2]
                 stacked_set44 eq_refl eq_refl).
  - apply (proj2 (proj2 (@culling_fails_open_past_the_polygons
                    Demo.area Demo.fragile_intersects _
                    Demo.dst_point Demo.dst_point
                    (mk_polygon (repeat (Finite 0, Finite 0) 4)) eq_refl))
                 _ _ _ [] 2 2 2 1 eq_refl);
      try reflexivity; try lia.
    simpl. lia.
Defined.

(** ** Evenly chunked inputs *)

Lemma bindT_enter_ok {A B} (s : stage) (a : A) (k : A -> traced B) :
  bindT (enter s (Ok a)) k = (s :: fst (k a), snd (k a)).
Proof. unfold bindT, enter. now destruct (k a). Qed.

Lemma bindT_enter_raise {A B} (s : stage) (e : exn) (k : A -> traced B) :
  bindT (enter s (Raise e)) k = ([s], Raise e).
Proof. reflexivity. Qed.

Lemma reach_the_culling_3d
      (area : polygon -> f64) (intersects : polygon -> polygon -> result bool)
      (kernel : ndarray f64 -> ndarray f64 -> ndarray f64 ->
                ndarray f64 -> ndarray f64 -> ndarray f64 -> ndarray f64 ->
                ndarray f64 -> ndarray f64 -> string -> result (ndarray f64))
      (np_gradient : ndarray f64 -> result (ndarray f64 * ndarray f64))
      (src_data src_x src_y : dask_array f64) (dst_x dst_y : ndarray f64)
      (kwargs_method : option string)
      (B R sr C sc : nat) (gxl gxp gyl gyp : ndarray f64) :
  wf (values src_data) ->
  shape (values src_data) = [B; R * sr; C * sc] ->
  chunk_counts (chunks src_data) (-2) (-1) R C ->
  chunk_counts (chunks src_x) 0 1 R C ->
  0 < R -> 0 < C -> 0 < sr -> 0 < sc ->
  np_gradient (values src_x) = Ok (gxl, gxp) ->
  np_gradient (values src_y) = Ok (gyl, gyp) ->
  (forall g, In g [values src_x; values src_y; gxl; gxp; gyl; gyp] ->
             wf g /\ shape g = [R * sr; C * sc]) ->
  (exists rest outcome,
      parallel_gradient_search area intersects kernel np_gradient
        src_data src_x src_y dst_x dst_y kwargs_method
      = (GradientStage :: GradientStage :: StackStage :: StackStage :: CullStage :: rest,
         outcome)) /\
  (forall e,
      remove_extra_chunks area intersects
        (stacked_chunks [B] R sr C sc (values src_data)
         :: map (stacked_chunks [] R sr C sc)
                [values src_x; values src_y; gxl; gxp; gyl; gyp])
        dst_x dst_y = Raise e ->
      parallel_gradient_search area intersects kernel np_gradient
        src_data src_x src_y dst_x dst_y kwargs_method
      = ([GradientStage; GradientStage; StackStage; StackStage; CullStage], Raise e)).
Proof.
  intros Hwf Hs Hcd Hcx HR HC Hsr Hsc Hgx Hgy Hall.
  unfold parallel_gradient_search, ndim. rewrite Hs.
  cbn [length existsb Nat.eqb orb negb].
  rewrite Hgx, bindT_enter_ok, Hgy, bindT_enter_ok. cbn [fst snd].
  rewrite (@reshape_arrays_in_stacked_chunks_ok f64 _ (chunks src_x) R sr C sc
             Hcx HR HC Hsr Hsc Hall).
  cbn [bind map unpack6 fst snd]. rewrite bindT_enter_ok.
  rewrite (@reshape_to_stacked_3d_ok f64 src_data [B] R sr C sc Hwf Hs Hcd HR HC).
  rewrite bindT_enter_ok. cbn [fst snd].
  split.
  - destruct (remove_extra_chunks area intersects _ dst_x dst_y) as [l|e].
    + cbn [bind]. destruct (unpack7 l) as [arrays|e].
      * rewrite bindT_enter_ok. cbn [fst snd]. eauto.
      * rewrite bindT_enter_raise. cbn [fst snd]. eauto.
    + cbn [bind]. rewrite bindT_enter_raise. cbn [fst snd]. eauto.
  - intros e He. rewrite He. cbn [bind]. rewrite bindT_enter_raise. reflexivity.
Qed.

(** X20. Inputs that are a whole number of chunks get through the stacking: for
    data of [B] bands (or two-dimensional data, [B = 1]) and coordinates on a
    grid of [R] by [C] non-empty chunks, with gradients of the shape of the
    grid, the run enters the culling, on the arrays stacked by chunk, and an
    exception of the culling is the outcome of the run. *)
Theorem evenly_chunked_inputs_reach_the_culling
        (area : polygon -> f64) (intersects : polygon -> polygon -> result bool)
        (kernel : ndarray f64 -> ndarray f64 -> ndarray f64 ->
                  ndarray f64 -> ndarray f64 -> ndarray f64 -> ndarray f64 ->
                  ndarray f64 -> ndarray f64 -> string -> result (ndarray f64))
        (np_gradient : ndarray f64 -> result (ndarray f64 * ndarray f64))
        (src_data src_x src_y : dask_array f64) (dst_x dst_y : ndarray f64)
        (kwargs_method : option string)
        (B R sr C sc : nat) (gxl gxp gyl gyp : ndarray f64) :
  wf (values src_data) ->
  shape (values src_data) = [B; R * sr; C * sc] \/
  (shape (values src_data) = [R * sr; C * sc] /\ B = 1) ->
  chunk_counts (chunks src_data) (-2) (-1) R C ->
  chunk_counts (chunks src_x) 0 1 R C ->
  0 < R -> 0 < C -> 0 < sr -> 0 < sc ->
  np_gradient (values src_x) = Ok (gxl, gxp) ->
  np_gradient (values src_y) = Ok (gyl, gyp) ->
  (forall g, In g [values src_x; values src_y; gxl; gxp; gyl; gyp] ->
             wf g /\ shape g = [R * sr; C * sc]) ->
  (exists rest outcome,
      parallel_gradient_search area intersects kernel np_gradient
        src_data src_x src_y dst_x dst_y kwargs_method
      = (GradientStage :: GradientStage :: StackStage :: StackStage :: CullStage :: rest,
         outcome)) /\
  (forall e,
      remove_extra_chunks area intersects
        (stacked_chunks [B] R sr C sc
           (mk_ndarray [B; R * sr; C * sc] (data (values src_data)))
         :: map (stacked_chunks [] R sr C sc)
                [values src_x; values src_y; gxl; gxp; gyl; gyp])
        dst_x dst_y = Raise e ->
      parallel_gradient_search area intersects kernel np_gradient
        src_data src_x src_y dst_x dst_y kwargs_method
      = ([GradientStage; GradientStage; StackStage; StackStage; CullStage], Raise e)).
Proof.
  intros Hwf Hs Hcd Hcx HR HC Hsr Hsc Hgx Hgy Hall.
  destruct Hs as [Hs | [Hs ->]].
  - replace (mk_ndarray [B; R * sr; C * sc] (data (values src_data)))
      with (values src_data) by (rewrite <- Hs; now destruct (values src_data)).
    now apply reach_the_culling_3d with (gxl := gxl) (gxp := gxp) (gyl := gyl) (gyp := gyp).
  - rewrite rank2_as_single_band by (unfold ndim; now rewrite Hs).
    assert (Hv : values (newaxis0 src_data)
                 = mk_ndarray [1; R * sr; C * sc] (data (values src_data))).
    { unfold newaxis0. cbn [values]. now rewrite Hs. }
    rewrite <- Hv.
    apply reach_the_culling_3d with (gxl := gxl) (gxp := gxp) (gyl := gyl) (gyp := gyp);
      try assumption.
    + rewrite Hv. unfold wf in *. cbn [shape data].
      rewrite size_of_cons, <- Hs, <- Hwf. lia.
    + now rewrite Hv.
    + destruct Hcd as (cy & cx & Hcy & Hcx' & Hly & Hlx).
      exists cy, cx. cbn [newaxis0 chunks].
      repeat split; try assumption; apply py_index_cons_negative; auto; lia.
Qed.

Lemma evenly_chunked_inputs_reach_the_culling_witness :
  exists rest outcome,
    Demo.run Demo.data44 Demo.src_x44 Demo.src_y44 Demo.dst_x_two Demo.dst_y_two None
    = (GradientStage :: GradientStage :: StackStage :: StackStage :: CullStage :: rest,
       outcome).
Proof.
  apply (evenly_chunked_inputs_reach_the_culling
           Demo.area Demo.intersects Demo.kernel Demo.gradient
           Demo.data44 Demo.src_x44 Demo.src_y44 Demo.dst_x_two Demo.dst_y_two None
           1 2 2 2 2
           (values Demo.src_x44) (values Demo.src_x44)
           (values Demo.src_y44) (values Demo.src_y44)).
  - reflexivity.
  - right. split; reflexivity.
  - exists [2; 2], [2; 2]. repeat split; reflexivity.
  - exists [2; 2], [2; 2]. repeat split; reflexivity.
  - lia.
  - lia.
  - lia.
  - lia.
  - reflexivity.
  - reflexivity.
  - intros g Hg. simpl in Hg.
    destruct Hg as [<- | [<- | [<- | [<- | [<- | [<- | []]]]]]]; split; reflexivity.
Defined.
